(** * Arcane::Model — mesh import, bone registry and bone-influence slots

    A shallow embedding of [Arcane/Graphics/Mesh/Model.cpp] and the
    properties of its natural-language specification.

    Conventions of the embedding:
    - [float] values are IEEE-754 single precision numbers, taken from the
      standard library's executable specification of floating point
      ([spec_float]); the only float operations of the source are copies
      and the comparisons [<] and [>], which are [SFltb];
    - [unsigned int] counts and indices are [nat], [int] values are [Z];
      the one conversion of the source that can change a value
      ([unsigned] to [int] of a vertex id) is written out as [to_int];
    - a C array given by a pointer and a count is a list; an access that
      the C++ standard leaves undefined is the outcome [Undefined], a
      failed [ARC_ASSERT] is the outcome [AssertFailed];
    - logging and the calls to external collaborators are recorded, in
      order, in a trace of [Event]s;
    - [Draw] is embedded by the list of render calls it makes, in order;
      [GenerateGpuData], which only hands the finished meshes to the
      renderer, is not part of the embedding. *)

From Stdlib Require Import ZArith Lia String Ascii SpecFloat.
From stdpp Require Import base option list gmap strings.

Local Open Scope Z_scope.

(** ** Single precision floats and their comparison *)

Module Float32.

Definition float : Type := spec_float.

Definition prec : Z := 24.
Definition emax : Z := 128.

(** The values of the C++ type [float]. *)
Definition is_float32 (x : float) : bool := valid_binary prec emax x.

(** [0.0f], also the value every byte-zeroed float has. *)
Definition zero : float := S754_zero false.
(** [1.0f] *)
Definition one : float := S754_finite false 8388608 (-23).
(** [2.0f], [0.5f] and [0.25f], used in examples. *)
Definition two : float := S754_finite false 8388608 (-22).
Definition half : float := S754_finite false 8388608 (-24).
Definition quarter : float := S754_finite false 8388608 (-25).

(** [x < y] and [x > y] of C++ on floats. *)
Definition ltb (x y : float) : bool := SFltb x y.
Definition gtb (x y : float) : bool := SFltb y x.
(** [x >= y], used only to state properties. *)
Definition geb (x y : float) : bool := SFleb y x.

Definition is_nan (x : float) : bool :=
  match x with S754_nan => true | _ => false end.

(** A position of every non-NaN value in a lexicographic order on
    triples of integers: class, then exponent, then mantissa. *)
Definition rank (x : float) : Z * Z * Z :=
  match x with
  | S754_infinity true => (-2, 0, 0)
  | S754_finite true m e => (-1, - e, - Z.pos m)
  | S754_zero _ => (0, 0, 0)
  | S754_nan => (0, 0, 0)
  | S754_finite false m e => (1, e, Z.pos m)
  | S754_infinity false => (2, 0, 0)
  end.

Definition lex_lt (a b : Z * Z * Z) : Prop :=
  let '(a1, a2, a3) := a in
  let '(b1, b2, b3) := b in
  a1 < b1 ∨ (a1 = b1 ∧ (a2 < b2 ∨ (a2 = b2 ∧ a3 < b3))).

End Float32.

Import Float32.

#[export] Instance float_inhabited : Inhabited float := populate zero.

(** ** Outcomes of a run

    [Ok] is normal completion. [AssertFailed] is a failed [ARC_ASSERT].
    [Thrown] is a C++ exception leaving the function. [Undefined] is an
    array access outside its bounds or through a null pointer. *)

Inductive outcome (A : Type) : Type :=
| Ok (a : A)
| AssertFailed (msg : string)
| Thrown (what : string)
| Undefined.

Arguments Ok {A} a.
Arguments AssertFailed {A} msg.
Arguments Thrown {A} what.
Arguments Undefined {A}.

#[export] Instance outcome_ret : MRet outcome := λ A a, Ok a.

#[export] Instance outcome_bind : MBind outcome := λ A B f o,
  match o with
  | Ok a => f a
  | AssertFailed msg => AssertFailed msg
  | Thrown what => Thrown what
  | Undefined => Undefined
  end.

(** Modelled from the spec: the macro [ARC_ASSERT(cond, msg)], whose
    definition is not part of the sources. A violated assertion is fatal:
    the run stops there (spec, sections 4.4 and 7). *)
Definition ARC_ASSERT (cond : bool) (msg : string) : outcome unit :=
  if cond then Ok tt else AssertFailed msg.

(** [a[i]] on a C array or a [std::vector]. *)
Definition at_index {A : Type} (a : list A) (i : nat) : outcome A :=
  match a !! i with
  | Some v => Ok v
  | None => Undefined
  end.

(** A [for] loop over the elements of [l] whose body may stop the run. *)
Fixpoint foldM {S A : Type} (body : S → A → outcome S) (s : S) (l : list A)
  : outcome S :=
  match l with
  | [] => Ok s
  | a :: l' => s' ← body s a; foldM body s' l'
  end.

(** ** [std::string] *)

Module StdString.

(** [size_t] is taken to be 64 bits wide; [npos] is its largest value. *)
Definition size_t_modulus : Z := 2 ^ 64.
Definition npos : Z := size_t_modulus - 1.

(** Unsigned addition on [size_t]. *)
Definition size_t_add (a b : Z) : Z := (a + b) mod size_t_modulus.

Definition size (s : string) : Z := Z.of_nat (String.length s).

Fixpoint contains (set : string) (c : ascii) : bool :=
  match set with
  | EmptyString => false
  | String d set' => Ascii.eqb c d || contains set' c
  end.

(** Index of the last character of [s] that occurs in [set]. *)
Fixpoint last_index_of (set : string) (s : string) : option nat :=
  match s with
  | EmptyString => None
  | String c s' =>
      match last_index_of set s' with
      | Some k => Some (S k)
      | None => if contains set c then Some O else None
      end
  end.

(** [s.find_last_of(set)] *)
Definition find_last_of (s set : string) : Z :=
  match last_index_of set s with
  | Some k => Z.of_nat k
  | None => npos
  end.

(** [s.substr(pos, count)]; [count] defaults to [npos]. *)
Definition substr (s : string) (pos count : Z) : outcome string :=
  if size s <? pos then Thrown "std::out_of_range"
  else Ok (String.substring (Z.to_nat pos)
             (Z.to_nat (Z.min count (size s - pos))) s).

(** The [std::string] built from a [const char*]: the characters before
    the first NUL. *)
Fixpoint of_c_str (buf : string) : string :=
  match buf with
  | EmptyString => EmptyString
  | String c buf' =>
      if Ascii.eqb c Ascii.zero then EmptyString else String c (of_c_str buf')
  end.

End StdString.

(** [int] is 32 bits wide; [to_int] is the conversion from [unsigned]. *)
Definition to_int (u : Z) : Z := (u + 2 ^ 31) mod 2 ^ 32 - 2 ^ 31.

(** ** The importer's scene (Assimp), as far as the source reads it

    The types and constants of this part are those of the Assimp library,
    with the names of its headers. *)

Record aiVector3D := mk_aiVector3D { ai_x : float; ai_y : float; ai_z : float }.

(** A 4x4 matrix of floats, sixteen entries. *)
Definition aiMatrix4x4 : Type := list float.
Definition mat4 : Type := list float.

Record aiVertexWeight := mk_aiVertexWeight {
  mVertexId : nat;
  mWeight : float
}.

(** [mNumWeights] is the length of [mWeights]; [mName] is the content of
    the [aiString] buffer. *)
Record aiBone := mk_aiBone {
  mName : string;
  mOffsetMatrix : aiMatrix4x4;
  mWeights : list aiVertexWeight
}.

(** [mNumIndices] is the length of [mIndices]. *)
Record aiFace := mk_aiFace { mIndices : list nat }.

(** [mNumBones] and [mNumFaces] are the lengths of [mBones] and [mFaces].
    The five per-vertex arrays share the count [mNumVertices]; a null array
    is the empty list, except [mTextureCoords[0]], which the source tests. *)
Record aiMesh := mk_aiMesh {
  mNumVertices : nat;
  mVertices : list aiVector3D;
  mNormals : list aiVector3D;
  mTangents : list aiVector3D;
  mBitangents : list aiVector3D;
  mTextureCoords0 : option (list aiVector3D);
  mBones : list aiBone;
  mFaces : list aiFace;
  mMaterialIndex : nat
}.

Definition mNumBones (mesh : aiMesh) : nat := length (mBones mesh).
Definition mNumFaces (mesh : aiMesh) : nat := length (mFaces mesh).

Inductive aiTextureType :=
| aiTextureType_NONE
| aiTextureType_DIFFUSE
| aiTextureType_SPECULAR
| aiTextureType_AMBIENT
| aiTextureType_EMISSIVE
| aiTextureType_HEIGHT
| aiTextureType_NORMALS
| aiTextureType_SHININESS
| aiTextureType_OPACITY
| aiTextureType_DISPLACEMENT
| aiTextureType_LIGHTMAP
| aiTextureType_REFLECTION.

(** The textures of a material, per type, in the order [GetTexture]
    enumerates them. *)
Record aiMaterial := mk_aiMaterial { textures : aiTextureType → list string }.

Definition GetTextureCount (mat : aiMaterial) (type : aiTextureType) : nat :=
  length (textures mat type).

(** [mat->GetTexture(type, index, &str)] on a default-constructed,
    empty [str]. *)
Definition GetTexture (mat : aiMaterial) (type : aiTextureType) (index : nat)
  : string :=
  default EmptyString (textures mat type !! index).

(** A node: its transformation, the indices of its meshes in the scene's
    mesh array, its children. *)
#[warnings="-register-all"]
Inductive aiNode :=
| mk_aiNode (mTransformation : aiMatrix4x4) (mMeshes : list nat)
    (mChildren : list aiNode).

Definition mTransformation (node : aiNode) : aiMatrix4x4 :=
  match node with mk_aiNode t _ _ => t end.

Record aiScene := mk_aiScene {
  mFlags : Z;
  mRootNode : option aiNode;
  scene_mMeshes : list aiMesh;
  mMaterials : list aiMaterial
}.

Definition AI_SCENE_FLAGS_INCOMPLETE : Z := 1.
Definition aiProcess_CalcTangentSpace : Z := 1.
Definition aiProcess_Triangulate : Z := 8.
Definition aiProcess_FlipUVs : Z := 8388608.

(** ** The engine's data

    [glm::vec2] and [glm::vec3], then the classes of the engine that
    [Model.cpp] uses. *)

Record vec2 := mk_vec2 { vec2_x : float; vec2_y : float }.
Record vec3 := mk_vec3 { vec3_x : float; vec3_y : float; vec3_z : float }.

(** Modelled from the spec: the struct [VertexBoneData], declared in a
    header that is not part of the sources; a fixed-capacity array of
    bone ids and one of weights (spec, section 3), under the member names
    [Model.cpp] uses: [int BoneIDs[MaxBonesPerVertex]] and
    [float Weights[MaxBonesPerVertex]]. *)
Record VertexBoneData := mk_VertexBoneData {
  BoneIDs : list Z;
  Weights : list float
}.

(** Modelled from the spec: the struct [BoneData], declared in a header
    that is not part of the sources; an integer bone id and the inverse
    bind-pose transform (spec, section 3). *)
Record BoneData := mk_BoneData {
  boneID : Z;
  inverseBindPose : mat4
}.

(** A [Texture*]: [None] is the null pointer. *)
Definition TextureHandle : Type := N.

(** Modelled from the spec: [TextureSettings], declared in a header that
    is not part of the sources; of its members [Model.cpp] sets
    [IsSRGB], the colour-data flag of the texture load boundary (spec,
    section 6). *)
Record TextureSettings := mk_TextureSettings { IsSRGB : bool }.

(** Modelled from the spec: the class [Material] and its four setters,
    declared in a header that is not part of the sources; up to one
    texture reference per channel, each absent or a handle, and absent in
    a new material (spec, section 3). *)
Record Material := mk_Material {
  m_AlbedoMap : option TextureHandle;
  m_NormalMap : option TextureHandle;
  m_AmbientOcclusionMap : option TextureHandle;
  m_DisplacementMap : option TextureHandle
}.

Definition empty_Material : Material := mk_Material None None None None.

Definition SetAlbedoMap (t : option TextureHandle) (m : Material) : Material :=
  mk_Material t (m_NormalMap m) (m_AmbientOcclusionMap m) (m_DisplacementMap m).
Definition SetNormalMap (t : option TextureHandle) (m : Material) : Material :=
  mk_Material (m_AlbedoMap m) t (m_AmbientOcclusionMap m) (m_DisplacementMap m).
Definition SetAmbientOcclusionMap (t : option TextureHandle) (m : Material)
  : Material :=
  mk_Material (m_AlbedoMap m) (m_NormalMap m) t (m_DisplacementMap m).
Definition SetDisplacementMap (t : option TextureHandle) (m : Material)
  : Material :=
  mk_Material (m_AlbedoMap m) (m_NormalMap m) (m_AmbientOcclusionMap m) t.

(** Modelled from the spec: the class [Mesh], declared in a header that
    is not part of the sources; its constructor takes the five attribute
    sequences, the bone-influence sequence and the index sequence, and it
    owns one material (spec, sections 3 and 4.6). *)
Record Mesh := mk_Mesh {
  m_Positions : list vec3;
  m_UVs : list vec2;
  m_Normals : list vec3;
  m_Tangents : list vec3;
  m_Bitangents : list vec3;
  m_BoneWeights : list VertexBoneData;
  m_Indices : list nat;
  m_Material : Material
}.

Definition set_Material (mat : Material) (mesh : Mesh) : Mesh :=
  mk_Mesh (m_Positions mesh) (m_UVs mesh) (m_Normals mesh) (m_Tangents mesh)
    (m_Bitangents mesh) (m_BoneWeights mesh) (m_Indices mesh) mat.

(** Modelled from the spec: the members of the class [Model], declared in
    a header that is not part of the sources, under the names [Model.cpp]
    uses: the meshes, the map from bone name to bone data, the running
    bone count, the global inverse transform and the directory and name
    strings (spec, section 3). The bone count is an unbounded integer.
    [m_GlobalInverseTransform] is [None] until [ProcessMesh] assigns it. *)
Record Model := mk_Model {
  m_Meshes : list Mesh;
  m_BoneDataMap : gmap string BoneData;
  m_BoneCount : Z;
  m_GlobalInverseTransform : option mat4;
  m_Directory : string;
  m_Name : string
}.

Definition set_GlobalInverseTransform (t : mat4) (m : Model) : Model :=
  mk_Model (m_Meshes m) (m_BoneDataMap m) (m_BoneCount m) (Some t)
    (m_Directory m) (m_Name m).

(** [m_Meshes.emplace_back(mesh)] *)
Definition emplace_back_Mesh (mesh : Mesh) (m : Model) : Model :=
  mk_Model (m_Meshes m ++ [mesh]) (m_BoneDataMap m) (m_BoneCount m)
    (m_GlobalInverseTransform m) (m_Directory m) (m_Name m).

Definition set_Directory_Name (directory name : string) (m : Model) : Model :=
  mk_Model (m_Meshes m) (m_BoneDataMap m) (m_BoneCount m)
    (m_GlobalInverseTransform m) directory name.

(** [Model::Model()] *)
Definition Model_new : Model :=
  mk_Model [] ∅ 0 None EmptyString EmptyString.

(** [Model::Model(const Mesh&)] *)
Definition Model_of_mesh (mesh : Mesh) : Model :=
  mk_Model [mesh] ∅ 0 None EmptyString EmptyString.

(** [Model::Model(const std::vector<Mesh>&)] *)
Definition Model_of_meshes (meshes : list Mesh) : Model :=
  mk_Model meshes ∅ 0 None EmptyString EmptyString.

(** What the run logs ([ARC_LOG_ERROR], [ARC_LOG_WARN], with the arguments
    of the message) and asks of its collaborators, in order. *)
Inductive Event :=
| LogError_FailedToLoad (errorString : string)
| LogWarn_Replacing (capacity : nat) (vertexID oldBoneID : Z)
    (oldWeight : float) (newBoneID : Z) (newWeight : float)
| LogWarn_NotAdding (capacity : nat) (vertexID newBoneID : Z)
    (newWeight : float)
| LogWarn_MultipleTextures
| Call_Load2DTextureAsync (file : string) (settings : TextureSettings)
| Call_Mesh_LoadData.

(** ** Example inputs *)

(** Slot arrays of capacity 4: one with two unused slots, one full, one
    full with every weight 1.0. *)
Definition example_open_slots : VertexBoneData :=
  mk_VertexBoneData [0; -1; 2; -1] [half; zero; quarter; zero].
Definition example_full_slots : VertexBoneData :=
  mk_VertexBoneData [0; 1; 2; 3] [half; quarter; quarter; one].
Definition example_ones_slots : VertexBoneData :=
  mk_VertexBoneData [0; 1; 2; 3] [one; one; one; one].

Definition example_vector : aiVector3D := mk_aiVector3D one two half.

Definition example_material : aiMaterial := mk_aiMaterial (λ _, []).

(** A quad: 4 vertices, 2 triangles, no bones, no texture coordinates. *)
Definition example_quad : aiMesh :=
  mk_aiMesh 4
    (replicate 4 example_vector) (replicate 4 example_vector)
    (replicate 4 example_vector) (replicate 4 example_vector)
    None []
    [mk_aiFace [0; 1; 2]%nat; mk_aiFace [2; 3; 0]%nat] 0.

(** Two vertices and two bones; vertex 0 is influenced by both. *)
Definition example_skinned : aiMesh :=
  mk_aiMesh 2
    (replicate 2 example_vector) (replicate 2 example_vector)
    (replicate 2 example_vector) (replicate 2 example_vector)
    (Some [mk_aiVector3D half quarter zero; mk_aiVector3D one half zero])
    [mk_aiBone "Hip" [] [mk_aiVertexWeight 0 half; mk_aiVertexWeight 1 one];
     mk_aiBone "Knee" [] [mk_aiVertexWeight 0 quarter]]
    [] 0.

(** One vertex and one bone that lists the vertex twice. *)
Definition example_repeated : aiMesh :=
  mk_aiMesh 1
    [example_vector] [example_vector] [example_vector] [example_vector]
    None
    [mk_aiBone "Hip" [] [mk_aiVertexWeight 0 half; mk_aiVertexWeight 0 half]]
    [] 0.

(** One vertex and a bone that refers to vertex 5. *)
Definition example_stray_bone : aiMesh :=
  mk_aiMesh 1
    [example_vector] [example_vector] [example_vector] [example_vector]
    None [mk_aiBone "Hip" [] [mk_aiVertexWeight 5 half]] [] 0.

(** Three vertices and one triangle with an index that is no vertex. *)
Definition example_stray_index : aiMesh :=
  mk_aiMesh 3
    (replicate 3 example_vector) (replicate 3 example_vector)
    (replicate 3 example_vector) (replicate 3 example_vector)
    None [] [mk_aiFace [0; 1; 7]%nat] 0.

(** A material with two albedo textures and no other. *)
Definition example_two_albedo : aiMaterial :=
  mk_aiMaterial (λ type,
    match type with
    | aiTextureType_DIFFUSE => ["a.png"; "b.png"]%string
    | _ => []
    end).

(** A scene whose root node carries the given mesh. *)
Definition example_scene (mesh : aiMesh) : aiScene :=
  mk_aiScene 0 (Some (mk_aiNode [] [0%nat] [])) [mesh] [example_material].

(** A scene of two meshes and three nodes: the root carries the quad, its
    first child carries the skinned mesh and the quad again, its second
    child carries nothing. *)
Definition example_tree_root : aiNode :=
  mk_aiNode [] [0%nat]
    [mk_aiNode [] [1; 0]%nat []; mk_aiNode [] [] []].
Definition example_tree : aiScene :=
  mk_aiScene 0 (Some example_tree_root) [example_quad; example_skinned]
    [example_material].

(** A scene whose nodes carry no mesh. *)
Definition example_bare_root : aiNode := mk_aiNode [] [] [mk_aiNode [] [] []].
Definition example_bare : aiScene :=
  mk_aiScene 0 (Some example_bare_root) [example_quad] [example_material].

(** Stand-ins for the collaborators. *)
Definition example_convert : aiMatrix4x4 → mat4 := λ a, a.
Definition example_inverse : mat4 → mat4 := λ a, a.
Definition example_loader : string → TextureSettings → option TextureHandle :=
  λ _ _, Some 1%N.
Definition example_importer (scene : aiScene)
  : string → Z → option aiScene * string :=
  λ _ _, (Some scene, EmptyString).
Definition example_failing_importer : string → Z → option aiScene * string :=
  λ _ _, (None, "Unable to open file"%string).

(** ** The source, function by function *)

(** [a[i] = v] on a [std::vector]. *)
Definition set_index {A : Type} (a : list A) (i : nat) (v : A)
  : outcome (list A) :=
  if decide (i < length a)%nat then Ok (<[i := v]> a) else Undefined.

(** The local vectors of [ProcessMesh] that are filled per vertex. *)
Record VertexArrays := mk_VertexArrays {
  positions : list vec3;
  uvs : list vec2;
  normals : list vec3;
  tangents : list vec3;
  bitangents : list vec3;
  boneWeights : list VertexBoneData
}.

Definition to_vec3 (v : aiVector3D) : vec3 :=
  mk_vec3 (ai_x v) (ai_y v) (ai_z v).

Section ModelCpp.

(** Declared outside this file: the slot capacity, two matrix functions,
    the asset manager's loader (its result is the handle it returns) and
    the importer ([ReadFile] gives the scene pointer, and the string
    [GetErrorString] returns afterwards). *)
Variable MaxBonesPerVertex : nat.
Variable ConvertAssimpMatrixToGLM : aiMatrix4x4 → mat4.
Variable glm_inverse : mat4 → mat4.
Variable Load2DTextureAsync : string → TextureSettings → option TextureHandle.
Variable ReadFile : string → Z → option aiScene * string.

(** *** [ProcessMesh]: process vertices (lines 93-125) *)

(** An element as [boneWeights.resize] value-initialises it. *)
Definition resized_VertexBoneData : VertexBoneData :=
  mk_VertexBoneData (replicate MaxBonesPerVertex 0)
    (replicate MaxBonesPerVertex zero).

(** An element after the two [memset]s: every id -1, every weight 0. *)
Definition cleared_VertexBoneData : VertexBoneData :=
  mk_VertexBoneData (replicate MaxBonesPerVertex (-1))
    (replicate MaxBonesPerVertex zero).

Definition initial_VertexArrays (mesh : aiMesh) : VertexArrays :=
  mk_VertexArrays [] [] [] [] []
    (if (0 <? mNumBones mesh)%nat
     then replicate (mNumVertices mesh) resized_VertexBoneData
     else []).

Definition vertex_step (mesh : aiMesh) (va : VertexArrays) (i : nat)
  : outcome VertexArrays :=
  uvCoord ← match mTextureCoords0 mesh with
            | Some coords =>
                t ← at_index coords i; mret (mk_vec2 (ai_x t) (ai_y t))
            | None => mret (mk_vec2 zero zero)
            end;
  p ← at_index (mVertices mesh) i;
  n ← at_index (mNormals mesh) i;
  t ← at_index (mTangents mesh) i;
  b ← at_index (mBitangents mesh) i;
  bw ← (if (0 <? mNumBones mesh)%nat
        then set_index (boneWeights va) i cleared_VertexBoneData
        else mret (boneWeights va));
  mret (mk_VertexArrays
          (positions va ++ [to_vec3 p])
          (uvs va ++ [uvCoord])
          (normals va ++ [to_vec3 n])
          (tangents va ++ [to_vec3 t])
          (bitangents va ++ [to_vec3 b])
          bw).

Definition ProcessVertices (mesh : aiMesh) : outcome VertexArrays :=
  foldM (vertex_step mesh) (initial_VertexArrays mesh)
    (seq 0 (mNumVertices mesh)).

(** *** [ProcessMesh]: the bone registry (lines 137-150) *)

Definition RegisterBone (boneName : string) (offsetMatrix : aiMatrix4x4)
    (m : Model) : Z * Model :=
  match m_BoneDataMap m !! boneName with
  | None =>
      let newBoneData :=
        mk_BoneData (m_BoneCount m) (ConvertAssimpMatrixToGLM offsetMatrix) in
      (boneID newBoneData,
       mk_Model (m_Meshes m)
         (<[boneName := newBoneData]> (m_BoneDataMap m))
         (m_BoneCount m + 1)
         (m_GlobalInverseTransform m) (m_Directory m) (m_Name m))
  | Some found => (boneID found, m)
  end.

(** *** [ProcessMesh]: one bone weight into the slots of its vertex
    (lines 163-203) *)

(** The first loop: the first [i] below the capacity with
    [BoneIDs[i] == -1]. Both arrays have [MaxBonesPerVertex] elements
    ([vbd_wf] below), so the reads [!!!] of the two loops are in range. *)
Fixpoint find_open_slot (ids : list Z) (i count : nat) : option nat :=
  match count with
  | O => None
  | S count' =>
      if decide (ids !!! i = -1) then Some i
      else find_open_slot ids (S i) count'
  end.

(** The body of the second loop, on [(lowestWeight, smallestWeightIndex)]. *)
Definition lowest_step (ws : list float) (st : float * Z) (i : nat)
  : float * Z :=
  if ltb (ws !!! i) (fst st) then (ws !!! i, Z.of_nat i) else st.

Definition find_lowest (ws : list float) : float * Z :=
  foldl (lowest_step ws) (one, -1) (seq 0 MaxBonesPerVertex).

Definition AddBoneWeight (vertexID boneID : Z) (currentWeight : float)
    (vb : VertexBoneData) : VertexBoneData * list Event :=
  match find_open_slot (BoneIDs vb) 0 MaxBonesPerVertex with
  | Some i =>
      (mk_VertexBoneData (<[i := boneID]> (BoneIDs vb))
         (<[i := currentWeight]> (Weights vb)), [])
  | None =>
      let '(lowestWeight, smallestWeightIndex) := find_lowest (Weights vb) in
      if gtb currentWeight lowestWeight && negb (smallestWeightIndex =? -1)
      then
        let k := Z.to_nat smallestWeightIndex in
        (mk_VertexBoneData (<[k := boneID]> (BoneIDs vb))
           (<[k := currentWeight]> (Weights vb)),
         [LogWarn_Replacing MaxBonesPerVertex vertexID (BoneIDs vb !!! k)
            (Weights vb !!! k) boneID currentWeight])
      else
        (vb, [LogWarn_NotAdding MaxBonesPerVertex vertexID boneID
                currentWeight])
  end.

(** *** [ProcessMesh]: process bones (lines 131-205) *)

Definition weight_step (numVertices : nat) (boneID : Z)
    (st : list VertexBoneData * list Event) (w : aiVertexWeight)
  : outcome (list VertexBoneData * list Event) :=
  let vertexID := to_int (Z.of_nat (mVertexId w)) in
  let currentWeight := mWeight w in
  _ ← ARC_ASSERT (vertexID <? to_int (Z.of_nat numVertices))
        "Bone data is trying to access an vertex that doesn't exist";
  if vertexID <? 0 then Undefined
  else
    vb ← at_index (fst st) (Z.to_nat vertexID);
    let '(vb', events) := AddBoneWeight vertexID boneID currentWeight vb in
    mret (<[Z.to_nat vertexID := vb']> (fst st), snd st ++ events).

Definition bone_step (numVertices : nat)
    (st : Model * list VertexBoneData * list Event) (bone : aiBone)
  : outcome (Model * list VertexBoneData * list Event) :=
  let '(m, bw, tr) := st in
  let boneName := StdString.of_c_str (mName bone) in
  let '(boneID, m') := RegisterBone boneName (mOffsetMatrix bone) m in
  _ ← ARC_ASSERT (negb (boneID =? -1)) "Bone not found or created..";
  r ← foldM (weight_step numVertices boneID) (bw, tr) (mWeights bone);
  mret (m', fst r, snd r).

Definition ProcessBones (numVertices : nat) (bones : list aiBone)
    (st : Model * list VertexBoneData * list Event)
  : outcome (Model * list VertexBoneData * list Event) :=
  foldM (bone_step numVertices) st bones.

(** *** [ProcessMesh]: process indices (lines 209-216) *)

Definition ProcessIndices (faces : list aiFace) : list nat :=
  foldl (λ indices face,
           foldl (λ indices index, indices ++ [index]) indices (mIndices face))
    [] faces.

(** *** [LoadMaterialTexture] (lines 237-258) *)

Definition LoadMaterialTexture (m : Model) (mat : aiMaterial)
    (type : aiTextureType) (isSRGB : bool)
  : option TextureHandle * list Event :=
  let warned :=
    if (1 <? GetTextureCount mat type)%nat then [LogWarn_MultipleTextures]
    else [] in
  if (0 <? GetTextureCount mat type)%nat then
    let str := GetTexture mat type 0 in
    let fileToSearch :=
      StdString.of_c_str
        (m_Directory m +:+ "/" +:+ StdString.of_c_str str) in
    let textureSettings := mk_TextureSettings isSRGB in
    (Load2DTextureAsync fileToSearch textureSettings,
     warned ++ [Call_Load2DTextureAsync fileToSearch textureSettings])
  else (None, warned).

(** The four calls of lines 228-231 on the material of the new mesh. *)
Definition LoadMaterial (m : Model) (material : aiMaterial)
  : Material * list Event :=
  let '(albedo, e1) :=
    LoadMaterialTexture m material aiTextureType_DIFFUSE true in
  let '(normal, e2) :=
    LoadMaterialTexture m material aiTextureType_NORMALS false in
  let '(ao, e3) :=
    LoadMaterialTexture m material aiTextureType_AMBIENT false in
  let '(displacement, e4) :=
    LoadMaterialTexture m material aiTextureType_DISPLACEMENT false in
  (SetDisplacementMap displacement
     (SetAmbientOcclusionMap ao
        (SetNormalMap normal (SetAlbedoMap albedo empty_Material))),
   e1 ++ e2 ++ e3 ++ e4).

(** *** [ProcessMesh] (lines 78-235) *)

Definition ProcessMesh (mesh : aiMesh) (scene : aiScene)
    (st : Model * list Event) : outcome (Model * list Event) :=
  let '(m, tr) := st in
  va ← ProcessVertices mesh;
  root ← match mRootNode scene with
         | Some root => Ok root
         | None => Undefined
         end;
  let m1 :=
    set_GlobalInverseTransform
      (glm_inverse (ConvertAssimpMatrixToGLM (mTransformation root))) m in
  '(m2, bw, tr2) ← ProcessBones (mNumVertices mesh) (mBones mesh)
                     (m1, boneWeights va, tr);
  let indices := ProcessIndices (mFaces mesh) in
  let newMesh :=
    mk_Mesh (positions va) (uvs va) (normals va) (tangents va)
      (bitangents va) bw indices empty_Material in
  let tr3 := tr2 ++ [Call_Mesh_LoadData] in
  '(newMesh', tr4) ←
    (if 0 <=? Z.of_nat (mMaterialIndex mesh) then
       material ← at_index (mMaterials scene) (mMaterialIndex mesh);
       let '(mat, events) := LoadMaterial m2 material in
       mret (set_Material mat newMesh, tr3 ++ events)
     else mret (newMesh, tr3));
  mret (emplace_back_Mesh newMesh' m2, tr4).

(** *** [ProcessNode] (lines 64-76) *)

Definition ProcessNodeMeshes (scene : aiScene) (st : Model * list Event)
    (meshIndex : nat) : outcome (Model * list Event) :=
  mesh ← at_index (scene_mMeshes scene) meshIndex;
  ProcessMesh mesh scene st.

Fixpoint ProcessNode (node : aiNode) (scene : aiScene)
    (st : Model * list Event) {struct node} : outcome (Model * list Event) :=
  match node with
  | mk_aiNode _ meshes children =>
      st1 ← foldM (ProcessNodeMeshes scene) st meshes;
      (fix children_loop (cs : list aiNode) (st : Model * list Event)
         : outcome (Model * list Event) :=
         match cs with
         | [] => Ok st
         | child :: cs' =>
             st' ← ProcessNode child scene st; children_loop cs' st'
         end) children st1
  end.

(** *** [LoadModel] (lines 39-54) *)

Definition import_flags : Z :=
  Z.lor (Z.lor aiProcess_Triangulate aiProcess_FlipUVs)
    aiProcess_CalcTangentSpace.

Definition LoadModel (path : string) (st : Model * list Event)
  : outcome (Model * list Event) :=
  let '(m, tr) := st in
  let '(scene, errorString) := ReadFile path import_flags in
  match scene with
  | None => Ok (m, tr ++ [LogError_FailedToLoad errorString])
  | Some sc =>
      if negb (Z.land (mFlags sc) AI_SCENE_FLAGS_INCOMPLETE =? 0)
      then Ok (m, tr ++ [LogError_FailedToLoad errorString])
      else
        match mRootNode sc with
        | None => Ok (m, tr ++ [LogError_FailedToLoad errorString])
        | Some root =>
            directory ←
              StdString.substr path 0 (StdString.find_last_of path "/");
            name ←
              StdString.substr path
                (StdString.size_t_add (StdString.find_last_of path "/\") 1)
                StdString.npos;
            ProcessNode root sc (set_Directory_Name directory name m, tr)
        end
  end.

(** *** [Draw] (lines 28-37) *)

(** Modelled from the spec: the enumeration [RenderPassType], declared in
    a header that is not part of the sources; a pass either requires
    material state or does not (spec, section 6). *)
Inductive RenderPassType := MaterialRequired | NoMaterialRequired.

(** What [Draw] asks of a mesh and of its material, in order. *)
Inductive RenderCall :=
| Call_BindMaterialInformation (material : Material) (shader : N)
| Call_Mesh_Draw (mesh : Mesh).

Definition draw_step (m : Model) (shader : N) (pass : RenderPassType)
    (calls : list RenderCall) (i : nat) : outcome (list RenderCall) :=
  bound ← (if pass is MaterialRequired then
             mesh ← at_index (m_Meshes m) i;
             mret (calls ++ [Call_BindMaterialInformation (m_Material mesh)
                               shader])
           else mret calls);
  mesh ← at_index (m_Meshes m) i;
  mret (bound ++ [Call_Mesh_Draw mesh]).

Definition Draw (m : Model) (shader : N) (pass : RenderPassType)
  : outcome (list RenderCall) :=
  foldM (draw_step m shader pass) [] (seq 0 (length (m_Meshes m))).

(** ** Vocabulary of the properties *)

(** The file a texture path resolves to (line 250). *)
Definition texture_file (m : Model) (str : string) : string :=
  StdString.of_c_str (m_Directory m +:+ "/" +:+ StdString.of_c_str str).

(** The arrays of a mesh that the vertex loop reads have at least
    [mNumVertices] elements. *)
Definition vertex_arrays_ok (mesh : aiMesh) : Prop :=
  (mNumVertices mesh ≤ length (mVertices mesh))%nat ∧
  (mNumVertices mesh ≤ length (mNormals mesh))%nat ∧
  (mNumVertices mesh ≤ length (mTangents mesh))%nat ∧
  (mNumVertices mesh ≤ length (mBitangents mesh))%nat ∧
  (∀ coords, mTextureCoords0 mesh = Some coords →
             (mNumVertices mesh ≤ length coords)%nat).

(** What the UV of vertex [j] has to be. *)
Definition uv_at (mesh : aiMesh) (j : nat) (uv : option vec2) : Prop :=
  match mTextureCoords0 mesh with
  | None => uv = Some (mk_vec2 zero zero)
  | Some coords =>
      ∃ t, coords !! j = Some t ∧ uv = Some (mk_vec2 (ai_x t) (ai_y t))
  end.

(** The state of the vertex loop when [i] vertices are done. *)
Definition vertex_inv (mesh : aiMesh) (i : nat) (va : VertexArrays) : Prop :=
  length (positions va) = i ∧
  length (uvs va) = i ∧
  length (normals va) = i ∧
  length (tangents va) = i ∧
  length (bitangents va) = i ∧
  length (boneWeights va) =
    (if (0 <? mNumBones mesh)%nat then mNumVertices mesh else 0%nat) ∧
  (∀ j, (j < i)%nat → uv_at mesh j (uvs va !! j)) ∧
  (∀ j, (j < i)%nat → (0 < mNumBones mesh)%nat →
        boneWeights va !! j = Some cleared_VertexBoneData).

(** Both arrays of a [VertexBoneData] have the capacity as their length. *)
Definition vbd_wf (vb : VertexBoneData) : Prop :=
  length (BoneIDs vb) = MaxBonesPerVertex ∧
  length (Weights vb) = MaxBonesPerVertex.

(** Slot [k] is the first one, in slot order, whose bone id is -1. *)
Definition first_open_slot (ids : list Z) (k : nat) : Prop :=
  ids !! k = Some (-1) ∧ ∀ j, (j < k)%nat → ids !! j ≠ Some (-1).

(** No slot has bone id -1. *)
Definition no_open_slot (ids : list Z) : Prop :=
  ∀ j, ids !! j ≠ Some (-1).

(** Slot [k] holds [wk], no slot holds a smaller weight, and every slot
    before [k] holds a larger one: [k] is the first slot, in slot order,
    with the minimum weight. *)
Definition first_min_slot (ws : list float) (k : nat) (wk : float) : Prop :=
  ws !! k = Some wk ∧
  (∀ j wj, ws !! j = Some wj → ltb wj wk = false) ∧
  (∀ j wj, (j < k)%nat → ws !! j = Some wj → ltb wk wj = true).

(** The slots with [(boneID, weight)] written into slot [k]. *)
Definition with_slot (k : nat) (boneID : Z) (weight : float)
    (vb : VertexBoneData) : VertexBoneData :=
  mk_VertexBoneData (<[k := boneID]> (BoneIDs vb))
    (<[k := weight]> (Weights vb)).

(** The name a bone is registered under, and the vertex id an influence
    is applied to (lines 137 and 158). *)
Definition bone_name (bone : aiBone) : string :=
  StdString.of_c_str (mName bone).
Definition vertexID_of (w : aiVertexWeight) : Z :=
  to_int (Z.of_nat (mVertexId w)).

(** No two slots with a bone id other than -1 hold the same bone id. *)
Definition distinct_occupied (vb : VertexBoneData) : Prop :=
  ∀ i j id,
    BoneIDs vb !! i = Some id → BoneIDs vb !! j = Some id → id ≠ -1 → i = j.

(** The registry of a model: the counter is not negative, every stored id
    is below it, and two names never share an id. *)
Definition registry_wf (m : Model) : Prop :=
  0 ≤ m_BoneCount m ∧
  (∀ name bd, m_BoneDataMap m !! name = Some bd →
              0 ≤ boneID bd < m_BoneCount m) ∧
  (∀ n1 n2 bd1 bd2,
     m_BoneDataMap m !! n1 = Some bd1 → m_BoneDataMap m !! n2 = Some bd2 →
     boneID bd1 = boneID bd2 → n1 = n2).

(** The bones of a mesh have pairwise different names, and no bone lists
    a vertex twice. *)
Definition bones_distinct (bones : list aiBone) : Prop :=
  NoDup (bone_name <$> bones) ∧
  Forall (λ bone, NoDup (vertexID_of <$> mWeights bone)) bones.

(** [bones_prefix done bones]: the bone loop over [bones] has, at some
    point of its run, processed exactly [done]: some of the first bones
    completely and, of the next one, some of the first weights. *)
Inductive bones_prefix : list aiBone → list aiBone → Prop :=
| bones_prefix_nil (bones : list aiBone) : bones_prefix [] bones
| bones_prefix_weights (name : string) (offset : aiMatrix4x4)
    (ws1 ws2 : list aiVertexWeight) (bones : list aiBone) :
    bones_prefix [mk_aiBone name offset ws1]
      (mk_aiBone name offset (ws1 ++ ws2) :: bones)
| bones_prefix_cons (bone : aiBone) (done bones : list aiBone) :
    bones_prefix done bones → bones_prefix (bone :: done) (bone :: bones).

(** Bone id [id] belongs to one of the names [names] in the registry. *)
Definition known_id (names : list string) (m : Model) (id : Z) : Prop :=
  ∃ name bd, name ∈ names ∧ m_BoneDataMap m !! name = Some bd ∧
             boneID bd = id.

(** The slots while the weights of the bone with id [id] are applied:
    occupied slots of a vertex hold different ids, each of them [id] or
    one satisfying [P]. *)
Definition slots_inv (id : Z) (P : Z → Prop) (bw : list VertexBoneData)
  : Prop :=
  ∀ v vb, bw !! v = Some vb →
    distinct_occupied vb ∧
    ∀ id', id' ∈ BoneIDs vb → id' ≠ -1 → id' = id ∨ P id'.

(** The state of the bone loop when the bones named [names] are done. *)
Definition bones_inv (names : list string) (m : Model)
    (bw : list VertexBoneData) : Prop :=
  registry_wf m ∧
  ∀ v vb, bw !! v = Some vb →
    distinct_occupied vb ∧
    ∀ id, id ∈ BoneIDs vb → id ≠ -1 → known_id names m id.

(** A mesh and a scene on which [ProcessMesh] reads no array outside its
    bounds and fails no assertion. *)
Definition mesh_ok (mesh : aiMesh) (scene : aiScene) : Prop :=
  vertex_arrays_ok mesh ∧
  (∀ bone w, bone ∈ mBones mesh → w ∈ mWeights bone →
             0 ≤ vertexID_of w < to_int (Z.of_nat (mNumVertices mesh))) ∧
  is_Some (mRootNode scene) ∧
  is_Some (mMaterials scene !! mMaterialIndex mesh).

(** No character of [s] is one of the characters of [set]. *)
Fixpoint no_char_of (set s : string) : bool :=
  match s with
  | EmptyString => true
  | String c s' => negb (StdString.contains set c) && no_char_of set s'
  end.

(** [path] is [before], then a character of [set], then [after], and no
    character of [after] is in [set]: [before] is the path up to, and
    [after] the path after, the last character of [set]. *)
Definition split_at_last (set path before after : string) : Prop :=
  ∃ c, path = before +:+ String c after ∧
       StdString.contains set c = true ∧ no_char_of set after = true.

(** The mesh indices of a node and of its descendants, in document order:
    the node's own, then those of each child in turn. *)
Fixpoint node_mesh_indices (node : aiNode) : list nat :=
  match node with
  | mk_aiNode _ meshes children =>
      meshes ++ concat (node_mesh_indices <$> children)
  end.

(** The finished mesh [newMesh] is made from the source mesh [mesh]: the
    attribute sequences are the first [mNumVertices] entries of the source
    arrays, and the index sequence is the index lists of the faces, one
    after the other in face order. *)
Definition mesh_made_from (mesh : aiMesh) (newMesh : Mesh) : Prop :=
  m_Positions newMesh = to_vec3 <$> take (mNumVertices mesh) (mVertices mesh) ∧
  m_Normals newMesh = to_vec3 <$> take (mNumVertices mesh) (mNormals mesh) ∧
  m_Tangents newMesh = to_vec3 <$> take (mNumVertices mesh) (mTangents mesh) ∧
  m_Bitangents newMesh =
    to_vec3 <$> take (mNumVertices mesh) (mBitangents mesh) ∧
  m_Indices newMesh = concat (mIndices <$> mFaces mesh).

(** Every id below the bone count belongs to a registered name. *)
Definition registry_dense (m : Model) : Prop :=
  ∀ id, 0 ≤ id < m_BoneCount m →
    ∃ name bd, m_BoneDataMap m !! name = Some bd ∧ boneID bd = id.

(** Slots as the bone loop keeps them: both arrays have the capacity as
    their length, and a slot with bone id -1 has weight 0. *)
Definition slots_clean (vb : VertexBoneData) : Prop :=
  vbd_wf vb ∧
  ∀ k, BoneIDs vb !! k = Some (-1) → Weights vb !! k = Some zero.

(** The warnings of the slot policy. *)
Definition is_slot_warning (e : Event) : bool :=
  match e with
  | LogWarn_Replacing _ _ _ _ _ _ | LogWarn_NotAdding _ _ _ _ => true
  | _ => false
  end.

(** The characters of [s] before the first NUL are all of [s]. *)
Definition nul_free (s : string) : Prop := StdString.of_c_str s = s.

(** The calls of [Draw] for one mesh. *)
Definition draw_calls (shader : N) (pass : RenderPassType) (mesh : Mesh)
  : list RenderCall :=
  (if pass is MaterialRequired
   then [Call_BindMaterialInformation (m_Material mesh) shader] else []) ++
  [Call_Mesh_Draw mesh].

(** The requests to the asset manager. *)
Definition is_texture_request (e : Event) : bool :=
  match e with
  | Call_Load2DTextureAsync _ _ => true
  | _ => false
  end.

(** ** Properties *)

(** *** Comparison of floats *)

Lemma compare_rank (x y : float) :
  is_nan x = false → is_nan y = false →
  SFcompare x y =
    Some (if decide (lex_lt (rank x) (rank y)) then Lt
          else if decide (rank x = rank y) then Eq else Gt).
Proof.
  intros Hx Hy.
  destruct x as [sx|sx| |sx mx ex], y as [sy|sy| |sy my ey];
    try discriminate; try destruct sx; try destruct sy; simpl;
    repeat case_decide; unfold lex_lt in *; simpl in *;
    try reflexivity; try (exfalso; lia); try congruence.
  all: rewrite ?Pos.compare_cont_spec; simpl.
  all: try match goal with H : (_, _, _) = (_, _, _) |- _ => injection H as ? ? end.
  all: try (destruct (Z.compare_spec ex ey), (Pos.compare_spec mx my);
            simpl; first [reflexivity | exfalso; lia | congruence]).
Qed.

Lemma ltb_true_not_nan (x y : float) :
  ltb x y = true → is_nan x = false ∧ is_nan y = false.
Proof. destruct x, y; simpl; auto; discriminate. Qed.

Lemma ltb_lex (x y : float) :
  ltb x y = true ↔
  is_nan x = false ∧ is_nan y = false ∧ lex_lt (rank x) (rank y).
Proof.
  split.
  - intros H. destruct (ltb_true_not_nan _ _ H) as [Hx Hy].
    split; [done|split; [done|]].
    unfold ltb, SFltb in H. rewrite (compare_rank _ _ Hx Hy) in H.
    repeat case_decide; done.
  - intros (Hx & Hy & H). unfold ltb, SFltb.
    rewrite (compare_rank _ _ Hx Hy). by rewrite decide_True.
Qed.

Lemma ltb_irrefl (x : float) : ltb x x = false.
Proof.
  destruct (ltb x x) eqn:E; [|done].
  apply ltb_lex in E as (_ & _ & E).
  destruct (rank x) as [[a b] c]. simpl in E. lia.
Qed.

Lemma ltb_trans (x y z : float) :
  ltb x y = true → ltb y z = true → ltb x z = true.
Proof.
  rewrite !ltb_lex. intros (Hx & _ & H1) (_ & Hz & H2).
  split; [done|split; [done|]].
  destruct (rank x) as [[a1 a2] a3], (rank y) as [[b1 b2] b3],
    (rank z) as [[c1 c2] c3]. simpl in *. lia.
Qed.

Lemma ltb_asym (x y : float) : ltb x y = true → ltb y x = false.
Proof.
  intros H. destruct (ltb y x) eqn:E; [|done].
  pose proof (ltb_trans _ _ _ H E) as Hxx.
  by rewrite ltb_irrefl in Hxx.
Qed.

(** On non-NaN values [<] is the strict part of a total preorder. *)
Lemma ltb_false_trans (x y z : float) :
  is_nan y = false →
  ltb x y = false → ltb y z = false → ltb x z = false.
Proof.
  intros Hy H1 H2. destruct (ltb x z) eqn:E; [|done].
  apply ltb_lex in E as (Hx & Hz & E).
  assert (¬ lex_lt (rank x) (rank y)) as N1.
  { intros C. assert (ltb x y = true) by (by apply ltb_lex). congruence. }
  assert (¬ lex_lt (rank y) (rank z)) as N2.
  { intros C. assert (ltb y z = true) by (by apply ltb_lex). congruence. }
  destruct (rank x) as [[a1 a2] a3], (rank y) as [[b1 b2] b3],
    (rank z) as [[c1 c2] c3]. simpl in *. lia.
Qed.

(** [x >= y] excludes [x < y]. *)
Lemma geb_not_ltb (x y : float) : geb x y = true → ltb x y = false.
Proof.
  unfold geb, SFleb. intros H.
  destruct x as [sx|sx| |sx mx ex] eqn:Ex, y as [sy|sy| |sy my ey] eqn:Ey;
    try discriminate; try reflexivity.
  all: rewrite <- Ex, <- Ey in *.
  all: assert (is_nan x = false) as Hx by (by subst x).
  all: assert (is_nan y = false) as Hy by (by subst y).
  all: rewrite (compare_rank _ _ Hy Hx) in H.
  all: unfold ltb, SFltb; rewrite (compare_rank _ _ Hx Hy).
  all: repeat case_decide; try done.
  all: destruct (rank x) as [[a1 a2] a3], (rank y) as [[b1 b2] b3];
    simpl in *; first [lia | congruence].
Qed.

Example one_is_float32 : is_float32 one = true.
Proof. reflexivity. Qed.

Example two_is_float32 : is_float32 two = true.
Proof. reflexivity. Qed.

Example half_is_float32 : is_float32 half = true.
Proof. reflexivity. Qed.

Example quarter_is_float32 : is_float32 quarter = true.
Proof. reflexivity. Qed.

Example half_lt_one : ltb half one = true.
Proof. reflexivity. Qed.

(** *** Outcomes and loops *)

Lemma bind_Ok {A B : Type} (o : outcome A) (f : A → outcome B) (b : B) :
  o ≫= f = Ok b ↔ ∃ a, o = Ok a ∧ f a = Ok b.
Proof.
  split.
  - destruct o as [a| | |]; try discriminate. intros H. by exists a.
  - by intros (a & -> & H).
Qed.

Lemma at_index_Ok {A : Type} (a : list A) (i : nat) (v : A) :
  at_index a i = Ok v ↔ a !! i = Some v.
Proof.
  unfold at_index. destruct (a !! i); split; intros H; by simplify_eq.
Qed.

Lemma ARC_ASSERT_Ok (cond : bool) (msg : string) (u : unit) :
  ARC_ASSERT cond msg = Ok u ↔ cond = true.
Proof. destruct cond, u; simpl; split; intros H; by simplify_eq. Qed.

Lemma foldM_app {S A : Type} (body : S → A → outcome S) (s : S)
    (l1 l2 : list A) :
  foldM body s (l1 ++ l2) = foldM body s l1 ≫= λ s', foldM body s' l2.
Proof.
  revert s. induction l1 as [|a l1 IH]; intros s; simpl; [done|].
  destruct (body s a) as [s1| | |]; simpl; [apply IH|done..].
Qed.

Lemma outcome_bind_assoc {A B C : Type} (o : outcome A) (f : A → outcome B)
    (g : B → outcome C) :
  (o ≫= f) ≫= g = o ≫= λ a, f a ≫= g.
Proof. by destruct o. Qed.

Lemma outcome_bind_ret {A : Type} (o : outcome A) : o ≫= Ok = o.
Proof. by destruct o. Qed.

(** An invariant of a loop over a list. *)
Lemma foldM_inv {S A : Type} (P : S → Prop) (body : S → A → outcome S)
    (l : list A) (s s' : S) :
  (∀ s1 a s2, a ∈ l → P s1 → body s1 a = Ok s2 → P s2) →
  P s → foldM body s l = Ok s' → P s'.
Proof.
  revert s. induction l as [|a l IH]; intros s Hstep Hs Hrun; simpl in Hrun.
  - by simplify_eq.
  - apply bind_Ok in Hrun as (s1 & H1 & Hrun).
    apply (IH s1); [|by eapply Hstep; [apply list_elem_of_here|..]|done].
    intros s2 b s3 Hb. apply Hstep. by apply list_elem_of_further.
Qed.

(** An invariant, indexed by the loop counter, of a counting loop. *)
Lemma foldM_seq_inv {S : Type} (P : nat → S → Prop)
    (body : S → nat → outcome S) (k a : nat) (s s' : S) :
  (∀ i s1 s2, (a ≤ i < a + k)%nat → P i s1 → body s1 i = Ok s2 → P (Datatypes.S i) s2) →
  P a s → foldM body s (seq a k) = Ok s' → P (a + k)%nat s'.
Proof.
  revert a s. induction k as [|k IH]; intros a s Hstep Hs Hrun; simpl in Hrun.
  - simplify_eq. by rewrite Nat.add_0_r.
  - apply bind_Ok in Hrun as (s1 & H1 & Hrun).
    replace (a + Datatypes.S k)%nat with (Datatypes.S a + k)%nat by lia.
    apply (IH (Datatypes.S a) s1); [|apply (Hstep a s); [lia|done..]|done].
    intros i s2 s3 Hi. apply Hstep. lia.
Qed.

(** A counting loop whose body completes under the invariant completes. *)
Lemma foldM_seq_total {S : Type} (P : nat → S → Prop)
    (body : S → nat → outcome S) (k a : nat) (s : S) :
  (∀ i s1, (a ≤ i < a + k)%nat → P i s1 →
           ∃ s2, body s1 i = Ok s2 ∧ P (Datatypes.S i) s2) →
  P a s → ∃ s', foldM body s (seq a k) = Ok s'.
Proof.
  revert a s. induction k as [|k IH]; intros a s Hstep Hs; simpl.
  - by exists s.
  - destruct (Hstep a s) as (s1 & H1 & HP); [lia|done|].
    rewrite H1. simpl. apply (IH (Datatypes.S a) s1); [|done].
    intros i s2 Hi. apply Hstep. lia.
Qed.

(** *** Loops that push back *)

Lemma foldl_push_back {A : Type} (l acc : list A) :
  foldl (λ acc x, acc ++ [x]) acc l = acc ++ l.
Proof.
  revert acc. induction l as [|x l IH]; intros acc; simpl.
  - by rewrite app_nil_r.
  - rewrite IH. by rewrite <- app_assoc.
Qed.

Lemma ProcessIndices_concat (faces : list aiFace) :
  ProcessIndices faces = concat (mIndices <$> faces).
Proof.
  unfold ProcessIndices.
  enough (∀ acc, foldl (λ indices face,
            foldl (λ indices index, indices ++ [index]) indices (mIndices face))
            acc faces = acc ++ concat (mIndices <$> faces)) as H by apply H.
  induction faces as [|f faces IH]; intros acc; simpl.
  - by rewrite app_nil_r.
  - rewrite IH, foldl_push_back. by rewrite <- app_assoc.
Qed.

(** *** The bone registry *)

Lemma RegisterBone_known (name : string) (X : aiMatrix4x4) (m : Model)
    (found : BoneData) :
  m_BoneDataMap m !! name = Some found →
  RegisterBone name X m = (boneID found, m).
Proof. intros E. unfold RegisterBone. by rewrite E. Qed.

Lemma RegisterBone_fresh (name : string) (X : aiMatrix4x4) (m : Model) :
  m_BoneDataMap m !! name = None →
  RegisterBone name X m =
    (m_BoneCount m,
     mk_Model (m_Meshes m)
       (<[name := mk_BoneData (m_BoneCount m) (ConvertAssimpMatrixToGLM X)]>
          (m_BoneDataMap m))
       (m_BoneCount m + 1) (m_GlobalInverseTransform m) (m_Directory m)
       (m_Name m)).
Proof. intros E. unfold RegisterBone. by rewrite E. Qed.

Lemma RegisterBone_again (name : string) (X Y : aiMatrix4x4) (m : Model) :
  RegisterBone name Y (RegisterBone name X m).2 = RegisterBone name X m.
Proof.
  destruct (m_BoneDataMap m !! name) as [found|] eqn:E.
  - rewrite (RegisterBone_known _ X _ _ E). simpl.
    by rewrite (RegisterBone_known _ Y _ _ E).
  - rewrite (RegisterBone_fresh _ X _ E). simpl.
    rewrite (RegisterBone_known name Y _
               (mk_BoneData (m_BoneCount m) (ConvertAssimpMatrixToGLM X)));
      [done|].
    simpl. by rewrite lookup_insert_eq.
Qed.

(** C2. Registering a bone name is idempotent: the counter of a new model
    is 0; a name that is not in the map gets the current counter as its id,
    the counter grows by one and the converted offset matrix is stored
    under the name; a name that is in the map gets its stored id and the
    model is unchanged. In both cases a second registration of the same
    name, with any matrix, returns the same id and leaves the model, so
    also the counter and the stored data, as the first one left it. *)
Theorem RegisterBone_idempotent (name : string) (X Y : aiMatrix4x4)
    (m : Model) :
  let r1 := RegisterBone name X m in
  let r2 := RegisterBone name Y (snd r1) in
  m_BoneCount Model_new = 0 ∧
  match m_BoneDataMap m !! name with
  | None =>
      fst r1 = m_BoneCount m ∧
      m_BoneCount (snd r1) = m_BoneCount m + 1 ∧
      m_BoneDataMap (snd r1) =
        <[name := mk_BoneData (m_BoneCount m) (ConvertAssimpMatrixToGLM X)]>
          (m_BoneDataMap m)
  | Some found => fst r1 = boneID found ∧ snd r1 = m
  end ∧
  fst r2 = fst r1 ∧
  snd r2 = snd r1 ∧
  m_BoneCount (snd r2) = m_BoneCount (snd r1) ∧
  m_BoneDataMap (snd r2) !! name = m_BoneDataMap (snd r1) !! name.
Proof.
  intros r1 r2. subst r1 r2. rewrite RegisterBone_again.
  split; [done|]. split; [|done].
  destruct (m_BoneDataMap m !! name) as [found|] eqn:E.
  - by rewrite (RegisterBone_known _ X _ _ E).
  - by rewrite (RegisterBone_fresh _ X _ E).
Qed.

(** *** Fatal load failure *)

(** C3. When the importer returns a null scene, a scene whose incomplete
    flag is set, or a scene without a root node, [LoadModel] completes
    with the model it was given, unchanged in every field, and the only
    thing it did is to log the importer's error string. *)
Theorem LoadModel_fatal (path : string) (m : Model) (tr : list Event)
    (scene : option aiScene) (errorString : string) :
  ReadFile path import_flags = (scene, errorString) →
  (scene = None ∨
   ∃ sc, scene = Some sc ∧
         (Z.land (mFlags sc) AI_SCENE_FLAGS_INCOMPLETE ≠ 0 ∨
          mRootNode sc = None)) →
  LoadModel path (m, tr) = Ok (m, tr ++ [LogError_FailedToLoad errorString]).
Proof.
  intros HR Hfatal. unfold LoadModel. rewrite HR.
  destruct Hfatal as [->|(sc & -> & Hsc)]; simpl; [done|].
  destruct (Z.land (mFlags sc) AI_SCENE_FLAGS_INCOMPLETE =? 0) eqn:E; simpl.
  - destruct Hsc as [Hflag| ->]; [|done].
    apply Z.eqb_eq in E. done.
  - done.
Qed.

(** *** Materials *)

(** C6. For a channel whose material has no texture of the type, nothing
    is logged or requested and the result is the null handle. When there
    is at least one, exactly one load is requested, for the first texture,
    with the colour flag of the channel, and its handle is the result; a
    warning is logged, once and before the request, exactly when there is
    more than one texture. The four channels of a mesh are resolved in the
    order albedo, normal, ambient occlusion, displacement, the first as
    sRGB and the other three as linear, each result stored in its slot. *)
Theorem LoadMaterialTexture_channels (m : Model) (mat : aiMaterial) :
  (∀ (type : aiTextureType) (isSRGB : bool),
     LoadMaterialTexture m mat type isSRGB =
       match textures mat type with
       | [] => (None, [])
       | first :: rest =>
           let request :=
             (texture_file m first, mk_TextureSettings isSRGB) in
           (Load2DTextureAsync request.1 request.2,
            (if rest is [] then [] else [LogWarn_MultipleTextures]) ++
            [Call_Load2DTextureAsync request.1 request.2])
       end) ∧
  let albedo := LoadMaterialTexture m mat aiTextureType_DIFFUSE true in
  let normal := LoadMaterialTexture m mat aiTextureType_NORMALS false in
  let ao := LoadMaterialTexture m mat aiTextureType_AMBIENT false in
  let displacement :=
    LoadMaterialTexture m mat aiTextureType_DISPLACEMENT false in
  LoadMaterial m mat =
    (mk_Material albedo.1 normal.1 ao.1 displacement.1,
     albedo.2 ++ normal.2 ++ ao.2 ++ displacement.2).
Proof.
  split.
  - intros type isSRGB. unfold LoadMaterialTexture, GetTextureCount, GetTexture.
    destruct (textures mat type) as [|first [|second rest]]; done.
  - simpl. unfold LoadMaterial.
    destruct (LoadMaterialTexture m mat aiTextureType_DIFFUSE true).
    destruct (LoadMaterialTexture m mat aiTextureType_NORMALS false).
    destruct (LoadMaterialTexture m mat aiTextureType_AMBIENT false).
    destruct (LoadMaterialTexture m mat aiTextureType_DISPLACEMENT false).
    done.
Qed.

(** *** The vertex loop *)

Lemma set_index_Ok {A : Type} (a a' : list A) (i : nat) (v : A) :
  set_index a i v = Ok a' ↔ (i < length a)%nat ∧ a' = <[i := v]> a.
Proof.
  unfold set_index. destruct (decide (i < length a)%nat) as [Hlt|Hge]; split.
  - intros E. by simplify_eq.
  - by intros [_ ->].
  - discriminate.
  - intros [Hlt _]. lia.
Qed.

Lemma vertex_step_inv (mesh : aiMesh) (i : nat) (va va' : VertexArrays) :
  vertex_inv mesh i va → vertex_step mesh va i = Ok va' →
  vertex_inv mesh (S i) va'.
Proof.
  intros (Hp & Hu & Hn & Ht & Hb & Hbw & Huv & Hcl) Hstep.
  unfold vertex_step in Hstep.
  apply bind_Ok in Hstep as (uv & Huv' & Hstep).
  apply bind_Ok in Hstep as (p & _ & Hstep).
  apply bind_Ok in Hstep as (n & _ & Hstep).
  apply bind_Ok in Hstep as (t & _ & Hstep).
  apply bind_Ok in Hstep as (b & _ & Hstep).
  apply bind_Ok in Hstep as (bw & Hbw' & Hstep).
  injection Hstep as <-. unfold vertex_inv. simpl.
  rewrite !length_app. simpl.
  repeat split; try lia.
  - revert Hbw Hbw'. destruct (0 <? mNumBones mesh)%nat; intros Hbw Hbw'.
    + apply set_index_Ok in Hbw' as [_ ->]. by rewrite length_insert.
    + by injection Hbw' as <-.
  - intros j Hj. destruct (decide (j = i)) as [->|Hne].
    + rewrite lookup_app_r, Hu, Nat.sub_diag by lia. simpl.
      unfold uv_at. destruct (mTextureCoords0 mesh) as [coords|].
      * apply bind_Ok in Huv' as (c & Hc & Huv'). apply at_index_Ok in Hc.
        injection Huv' as <-. by exists c.
      * by injection Huv' as <-.
    + rewrite lookup_app_l by lia. apply Huv. lia.
  - intros j Hj Hbones. apply Nat.ltb_lt in Hbones as Hbones'.
    rewrite Hbones' in Hbw'. apply set_index_Ok in Hbw' as [Hi ->].
    destruct (decide (j = i)) as [->|Hne].
    + by apply list_lookup_insert_eq.
    + rewrite list_lookup_insert_ne by done. apply Hcl; [lia|done].
Qed.

Lemma initial_vertex_inv (mesh : aiMesh) :
  vertex_inv mesh 0 (initial_VertexArrays mesh).
Proof.
  unfold vertex_inv, initial_VertexArrays. simpl.
  repeat split; try lia.
  destruct (0 <? mNumBones mesh)%nat; [by rewrite length_replicate|done].
Qed.

Lemma ProcessVertices_inv (mesh : aiMesh) (va : VertexArrays) :
  ProcessVertices mesh = Ok va → vertex_inv mesh (mNumVertices mesh) va.
Proof.
  intros Hrun.
  apply (foldM_seq_inv (vertex_inv mesh) _ _ 0 _ _) in Hrun;
    [done| |apply initial_vertex_inv].
  intros i s1 s2 _. apply vertex_step_inv.
Qed.

(** The vertex loop completes on every mesh whose arrays are as long as
    its vertex count says. *)
Lemma ProcessVertices_total (mesh : aiMesh) :
  vertex_arrays_ok mesh → ∃ va, ProcessVertices mesh = Ok va.
Proof.
  intros (Hv & Hn & Ht & Hb & Hc). unfold ProcessVertices.
  apply (foldM_seq_total (vertex_inv mesh)); [|apply initial_vertex_inv].
  intros i va Hi Hinv.
  enough (∃ va', vertex_step mesh va i = Ok va') as [va' Hva'].
  { exists va'. split; [done|]. by eapply vertex_step_inv. }
  destruct Hinv as (_ & _ & _ & _ & _ & Hbw & _).
  unfold vertex_step.
  assert (∃ uv,
    match mTextureCoords0 mesh with
    | Some coords => t ← at_index coords i; mret (mk_vec2 (ai_x t) (ai_y t))
    | None => mret (mk_vec2 zero zero)
    end = Ok uv) as [uv ->].
  { destruct (mTextureCoords0 mesh) as [coords|]; [|by eexists].
    specialize (Hc coords eq_refl).
    destruct (lookup_lt_is_Some_2 coords i) as [c Hc']; [lia|].
    apply at_index_Ok in Hc'. rewrite Hc'. by eexists. }
  destruct (lookup_lt_is_Some_2 (mVertices mesh) i) as [p Hp]; [lia|].
  destruct (lookup_lt_is_Some_2 (mNormals mesh) i) as [n Hn']; [lia|].
  destruct (lookup_lt_is_Some_2 (mTangents mesh) i) as [t Ht']; [lia|].
  destruct (lookup_lt_is_Some_2 (mBitangents mesh) i) as [b Hb']; [lia|].
  apply at_index_Ok in Hp, Hn', Ht', Hb'. simpl.
  rewrite Hp, Hn', Ht', Hb'. simpl.
  destruct (0 <? mNumBones mesh)%nat; simpl; [|by eexists].
  unfold set_index. rewrite decide_True by lia. by eexists.
Qed.

(** *** The two scans over the slots *)

Lemma find_open_slot_Some (ids : list Z) (count i k : nat) :
  find_open_slot ids i count = Some k ↔
  (i ≤ k < i + count)%nat ∧ ids !!! k = -1 ∧
  ∀ j, (i ≤ j < k)%nat → ids !!! j ≠ -1.
Proof.
  revert i. induction count as [|count IH]; intros i; simpl.
  - split; [done|]. intros [? _]. lia.
  - destruct (decide (ids !!! i = -1)) as [Hi|Hi].
    + split.
      * intros [= <-]. split; [lia|]. split; [done|]. intros j Hj. lia.
      * intros (Hk & _ & Hfirst). f_equal.
        destruct (decide (i = k)) as [|Hne]; [done|].
        destruct (Hfirst i); [lia|done].
    + rewrite IH. split.
      * intros (Hk & Hk1 & Hfirst). split; [lia|]. split; [done|].
        intros j Hj. destruct (decide (j = i)) as [->|]; [done|].
        apply Hfirst. lia.
      * intros (Hk & Hk1 & Hfirst).
        assert (i ≠ k) by (intros ->; done).
        split; [lia|]. split; [done|]. intros j Hj. apply Hfirst. lia.
Qed.

Lemma find_open_slot_None (ids : list Z) (count i : nat) :
  find_open_slot ids i count = None ↔
  ∀ j, (i ≤ j < i + count)%nat → ids !!! j ≠ -1.
Proof.
  revert i. induction count as [|count IH]; intros i; simpl.
  - split; [|done]. intros _ j Hj. lia.
  - destruct (decide (ids !!! i = -1)) as [Hi|Hi].
    + split; [done|]. intros H. destruct (H i); [lia|done].
    + rewrite IH. split.
      * intros H j Hj. destruct (decide (j = i)) as [->|]; [done|].
        apply H. lia.
      * intros H j Hj. apply H. lia.
Qed.

Lemma find_open_slot_first (ids : list Z) (k : nat) :
  length ids = MaxBonesPerVertex → first_open_slot ids k →
  find_open_slot ids 0 MaxBonesPerVertex = Some k.
Proof.
  intros Hlen [Hk Hfirst]. apply find_open_slot_Some.
  split; [apply lookup_lt_Some in Hk; lia|].
  split; [by apply list_lookup_total_correct|].
  intros j Hj Hj1. apply (Hfirst j); [lia|].
  rewrite <- Hj1. apply list_lookup_lookup_total_lt.
  apply lookup_lt_Some in Hk. lia.
Qed.

Lemma find_open_slot_full (ids : list Z) :
  length ids = MaxBonesPerVertex → no_open_slot ids →
  find_open_slot ids 0 MaxBonesPerVertex = None.
Proof.
  intros Hlen Hfull. apply find_open_slot_None. intros j Hj Hj1.
  apply (Hfull j). rewrite <- Hj1. apply list_lookup_lookup_total_lt. lia.
Qed.

(** The second scan, started at slot [a] in state [st]. *)
Lemma find_lowest_from_first_min (ws : list float) (k : nat) (wk : float)
    (count a : nat) (st : float * Z) :
  first_min_slot ws k wk →
  (a + count)%nat = length ws →
  ((a ≤ k)%nat → ltb wk (fst st) = true) →
  ((k < a)%nat → st = (wk, Z.of_nat k)) →
  foldl (lowest_step ws) st (seq a count) = (wk, Z.of_nat k).
Proof.
  intros (Hk & Hmin & Hfirst). revert a st.
  induction count as [|count IH]; intros a st Hlen Hbefore Hafter; simpl.
  - apply Hafter. apply lookup_lt_Some in Hk. lia.
  - assert (ws !! a = Some (ws !!! a)) as Ha
      by (apply list_lookup_lookup_total_lt; lia).
    apply IH; [lia|..]; unfold lowest_step.
    + intros Hak. destruct (decide (a = k)) as [->|Hne]; [lia|].
      destruct (ltb (ws !!! a) st.1); simpl.
      * apply (Hfirst a); [lia|done].
      * apply Hbefore. lia.
    + intros Hka. destruct (decide (a = k)) as [->|Hne].
      * rewrite (list_lookup_total_correct _ _ _ Hk).
        rewrite Hbefore by lia. done.
      * rewrite Hafter by lia. simpl. by rewrite (Hmin a _ Ha).
Qed.

Lemma find_lowest_first_min (ws : list float) (k : nat) (wk : float) :
  length ws = MaxBonesPerVertex → first_min_slot ws k wk →
  ltb wk one = true →
  find_lowest ws = (wk, Z.of_nat k).
Proof.
  intros Hlen Hmin Hone. unfold find_lowest.
  apply find_lowest_from_first_min; [done|lia|done|lia].
Qed.

(** What the second scan has selected, if anything, is below [1.0f]. *)
Lemma find_lowest_selected (ws : list float) :
  find_lowest ws = (one, -1) ∨
  ∃ k : nat, (k < MaxBonesPerVertex)%nat ∧
             find_lowest ws = (ws !!! k, Z.of_nat k) ∧
             ltb (ws !!! k) one = true.
Proof.
  unfold find_lowest.
  enough (∀ count a st,
    (st = (one, -1) ∨
     ∃ k : nat, (k < a)%nat ∧ st = (ws !!! k, Z.of_nat k) ∧
                ltb (ws !!! k) one = true) →
    let st' := foldl (lowest_step ws) st (seq a count) in
    st' = (one, -1) ∨
    ∃ k : nat, (k < a + count)%nat ∧ st' = (ws !!! k, Z.of_nat k) ∧
               ltb (ws !!! k) one = true) as H.
  { apply (H MaxBonesPerVertex 0%nat). by left. }
  induction count as [|count IH]; intros a st Hst; simpl.
  - destruct Hst as [->|(k & Hk & -> & Hone)]; [by left|].
    right. exists k. split; [lia|done].
  - replace (a + S count)%nat with (S a + count)%nat by lia.
    apply IH. unfold lowest_step.
    destruct (ltb (ws !!! a) st.1) eqn:Hlt.
    + right. exists a. split; [lia|]. split; [done|].
      destruct Hst as [->|(k & Hk & -> & Hone)]; [done|].
      by eapply ltb_trans.
    + destruct Hst as [->|(k & Hk & -> & Hone)]; [by left|].
      right. exists k. split; [lia|done].
Qed.

Lemma find_lowest_none (ws : list float) :
  (∀ j, (j < MaxBonesPerVertex)%nat → ltb (ws !!! j) one = false) →
  find_lowest ws = (one, -1).
Proof.
  intros Hall. destruct (find_lowest_selected ws) as [|(k & Hk & _ & Hone)];
    [done|].
  rewrite Hall in Hone by done. done.
Qed.

(** *** The slot policy *)

(** Among weights that are numbers there is a first slot with the minimum
    weight. *)
Lemma first_min_slot_exists (ws : list float) :
  ws ≠ [] → Forall (λ w, is_nan w = false) ws →
  ∃ k wk, first_min_slot ws k wk ∧ is_nan wk = false.
Proof.
  induction ws as [|w ws IH]; [done|]. intros _ Hnum.
  apply Forall_cons in Hnum as [Hw Hnum].
  destruct ws as [|w' ws'].
  - exists 0%nat, w. split; [|done]. split; [done|]. split.
    + intros [|j] wj; simpl; [|done]. intros [= <-]. apply ltb_irrefl.
    + intros j wj Hj. lia.
  - destruct IH as (k & wk & (Hk & Hmin & Hfirst) & Hwk); [done..|].
    destruct (ltb wk w) eqn:Hlt.
    + exists (S k), wk. split; [|done]. split; [done|]. split.
      * intros [|j] wj; simpl.
        -- intros [= <-]. by apply ltb_asym.
        -- apply Hmin.
      * intros [|j] wj Hj; simpl.
        -- by intros [= <-].
        -- apply Hfirst. lia.
    + exists 0%nat, w. split; [|done]. split; [done|]. split.
      * intros [|j] wj; simpl.
        -- intros [= <-]. apply ltb_irrefl.
        -- intros Hj. apply (ltb_false_trans wj wk w Hwk); [|done].
           by apply (Hmin j).
      * intros j wj Hj. lia.
Qed.

(** C1, as amended. On a vertex whose two slot arrays have the capacity as
    their length: if some slot has bone id -1, the first such slot is
    filled with the new bone id and weight, no other slot changes and
    nothing is logged. If no slot has bone id -1, the first slot with the
    minimum weight is overwritten with the new bone id and weight exactly
    when the new weight is strictly greater than that minimum and that
    minimum is strictly below 1.0 (the replacement is logged); otherwise,
    a tie with the minimum and a minimum of 1.0 or more included, every
    slot is left as it is and the drop is logged. *)
Theorem AddBoneWeight_policy (vertexID boneID : Z) (currentWeight : float)
    (vb : VertexBoneData) :
  vbd_wf vb →
  let r := AddBoneWeight vertexID boneID currentWeight vb in
  (∀ k, first_open_slot (BoneIDs vb) k →
        r = (with_slot k boneID currentWeight vb, [])) ∧
  (no_open_slot (BoneIDs vb) →
   ∀ k wk, first_min_slot (Weights vb) k wk → is_nan wk = false →
     r = if gtb currentWeight wk && ltb wk one
         then (with_slot k boneID currentWeight vb,
               [LogWarn_Replacing MaxBonesPerVertex vertexID
                  (BoneIDs vb !!! k) wk boneID currentWeight])
         else (vb, [LogWarn_NotAdding MaxBonesPerVertex vertexID boneID
                      currentWeight])).
Proof.
  intros [Hids Hws] r. subst r. unfold AddBoneWeight. split.
  - intros k Hk. by rewrite (find_open_slot_first _ _ Hids Hk).
  - intros Hfull k wk Hmin Hwk.
    rewrite (find_open_slot_full _ Hids Hfull).
    destruct (ltb wk one) eqn:Hone.
    + rewrite (find_lowest_first_min _ _ _ Hws Hmin Hone).
      rewrite andb_true_r.
      destruct (gtb currentWeight wk); simpl; [|done].
      replace (Z.of_nat k =? -1) with false
        by (symmetry; apply Z.eqb_neq; lia).
      simpl. rewrite Nat2Z.id.
      destruct Hmin as [Hk _].
      by rewrite (list_lookup_total_correct _ _ _ Hk).
    + rewrite andb_false_r.
      rewrite find_lowest_none; [simpl; by rewrite andb_false_r|].
      intros j Hj. destruct Hmin as (_ & Hmin & _).
      apply (ltb_false_trans _ wk _ Hwk); [|done].
      apply (Hmin j). apply list_lookup_lookup_total_lt. lia.
Qed.

(** C8. The scan for the lowest weight starts from the bound 1.0 and
    compares with [<]. So on a vertex (slot arrays of capacity length)
    without a slot of bone id -1, a slot whose weight is at least 1.0 keeps
    its bone id and its weight whatever the new influence is; and when
    every slot holds a weight of at least 1.0 the new influence is dropped,
    however large its weight: the slots are unchanged and the drop is
    logged. *)
Theorem AddBoneWeight_at_least_one_kept (vertexID boneID : Z)
    (currentWeight : float) (vb : VertexBoneData) :
  vbd_wf vb → no_open_slot (BoneIDs vb) →
  let r := AddBoneWeight vertexID boneID currentWeight vb in
  (find_lowest (Weights vb) = (one, -1) ∨
   ∃ k : nat, (k < MaxBonesPerVertex)%nat ∧
              find_lowest (Weights vb) = (Weights vb !!! k, Z.of_nat k) ∧
              ltb (Weights vb !!! k) one = true) ∧
  (∀ k wk, Weights vb !! k = Some wk → geb wk one = true →
           BoneIDs r.1 !! k = BoneIDs vb !! k ∧ Weights r.1 !! k = Some wk) ∧
  (Forall (λ wk, geb wk one = true) (Weights vb) →
   r = (vb, [LogWarn_NotAdding MaxBonesPerVertex vertexID boneID
               currentWeight])).
Proof.
  intros [Hids Hws] Hfull r. subst r. unfold AddBoneWeight.
  rewrite (find_open_slot_full _ Hids Hfull).
  split; [apply find_lowest_selected|]. split.
  - intros k wk Hk Hge. apply geb_not_ltb in Hge.
    destruct (find_lowest_selected (Weights vb)) as [->|(i & Hi & -> & Hone)].
    + rewrite andb_false_r. done.
    + destruct (gtb currentWeight (Weights vb !!! i) &&
                negb (Z.of_nat i =? -1)); [|done].
      simpl. rewrite Nat2Z.id.
      assert (i ≠ k) as Hne.
      { intros ->. rewrite (list_lookup_total_correct _ _ _ Hk) in Hone.
        congruence. }
      by rewrite !list_lookup_insert_ne.
  - intros Hall. rewrite find_lowest_none; [by rewrite andb_false_r|].
    intros j Hj. apply geb_not_ltb.
    rewrite Forall_lookup in Hall. apply (Hall j).
    apply list_lookup_lookup_total_lt. lia.
Qed.

(** *** The registry stays well formed *)

Lemma registry_wf_new : registry_wf Model_new.
Proof.
  split; [done|]. split; simpl; intros *; rewrite lookup_empty; done.
Qed.

Lemma registry_wf_set_GlobalInverseTransform (t : mat4) (m : Model) :
  registry_wf m → registry_wf (set_GlobalInverseTransform t m).
Proof. intros H. exact H. Qed.

Lemma RegisterBone_spec (name : string) (X : aiMatrix4x4) (m : Model) :
  registry_wf m →
  let r := RegisterBone name X m in
  registry_wf r.2 ∧ 0 ≤ r.1 ∧
  (∃ bd, m_BoneDataMap r.2 !! name = Some bd ∧ boneID bd = r.1) ∧
  (∀ n bd, m_BoneDataMap m !! n = Some bd →
           m_BoneDataMap r.2 !! n = Some bd) ∧
  m_Meshes r.2 = m_Meshes m ∧
  m_GlobalInverseTransform r.2 = m_GlobalInverseTransform m ∧
  m_Directory r.2 = m_Directory m ∧ m_Name r.2 = m_Name m.
Proof.
  intros (Hcount & Hrange & Hinj) r. subst r.
  destruct (m_BoneDataMap m !! name) as [found|] eqn:E.
  - rewrite (RegisterBone_known _ X _ _ E). simpl.
    split; [done|]. split; [by apply (Hrange name)|].
    split; [by exists found|]. done.
  - rewrite (RegisterBone_fresh _ X _ E). simpl.
    split; [|split; [done|split; [|split; [|done]]]].
    + split; [simpl; lia|]. split; simpl.
      * intros n bd [[-> <-]|[Hne Hn]]%lookup_insert_Some; simpl; [lia|].
        specialize (Hrange n bd Hn). lia.
      * intros n1 n2 bd1 bd2
          [[-> <-]|[Hne1 Hn1]]%lookup_insert_Some
          [[-> <-]|[Hne2 Hn2]]%lookup_insert_Some; simpl; intros Heq.
        -- done.
        -- specialize (Hrange n2 bd2 Hn2). lia.
        -- specialize (Hrange n1 bd1 Hn1). lia.
        -- by eapply Hinj.
    + eexists. by rewrite lookup_insert_eq.
    + intros n bd Hn. rewrite lookup_insert_ne; [done|]. congruence.
Qed.

(** *** Occupied slots hold different bone ids *)

Lemma AddBoneWeight_ids (vertexID boneID : Z) (w : float)
    (vb : VertexBoneData) :
  BoneIDs (AddBoneWeight vertexID boneID w vb).1 = BoneIDs vb ∨
  ∃ k, BoneIDs (AddBoneWeight vertexID boneID w vb).1 =
         <[k := boneID]> (BoneIDs vb).
Proof.
  unfold AddBoneWeight.
  destruct (find_open_slot (BoneIDs vb) 0 MaxBonesPerVertex) as [i|].
  - right. by exists i.
  - destruct (find_lowest (Weights vb)) as [lowestWeight smallestWeightIndex].
    destruct (gtb w lowestWeight && negb (smallestWeightIndex =? -1)).
    + right. by eexists.
    + by left.
Qed.

Lemma AddBoneWeight_slots_inv (vertexID boneID : Z) (w : float)
    (vb : VertexBoneData) (P : Z → Prop) :
  boneID ≠ -1 → boneID ∉ BoneIDs vb →
  distinct_occupied vb →
  (∀ id', id' ∈ BoneIDs vb → id' ≠ -1 → id' = boneID ∨ P id') →
  let vb' := (AddBoneWeight vertexID boneID w vb).1 in
  distinct_occupied vb' ∧
  ∀ id', id' ∈ BoneIDs vb' → id' ≠ -1 → id' = boneID ∨ P id'.
Proof.
  intros Hid Hnew Hdist Hold vb'. subst vb'. unfold distinct_occupied in *.
  destruct (AddBoneWeight_ids vertexID boneID w vb) as [->|[k ->]]; [done|].
  split.
  - intros i j id Hi Hj Hne.
    apply list_lookup_insert_Some in Hi as [(-> & <- & Hlt)|[Hik Hi]];
    apply list_lookup_insert_Some in Hj as [(Hjk & Hjid & _)|[Hjk Hj]].
    + done.
    + destruct Hnew. by eapply list_elem_of_lookup_2.
    + subst id. destruct Hnew. by eapply list_elem_of_lookup_2.
    + by eapply Hdist.
  - intros id' [i Hi]%list_elem_of_lookup_1 Hne.
    apply list_lookup_insert_Some in Hi as [(-> & <- & Hlt)|[Hik Hi]];
      [by left|].
    apply Hold; [by eapply list_elem_of_lookup_2|done].
Qed.

Lemma weight_step_slots_inv (n : nat) (id : Z) (P : Z → Prop)
    (bw bw' : list VertexBoneData) (tr tr' : list Event)
    (w : aiVertexWeight) :
  id ≠ -1 →
  weight_step n id (bw, tr) w = Ok (bw', tr') →
  slots_inv id P bw →
  (∀ vb, bw !! Z.to_nat (vertexID_of w) = Some vb → id ∉ BoneIDs vb) →
  0 ≤ vertexID_of w ∧
  slots_inv id P bw' ∧
  ∀ v, v ≠ Z.to_nat (vertexID_of w) → bw' !! v = bw !! v.
Proof.
  intros Hid Hstep Hinv Hnew. unfold weight_step in Hstep.
  fold (vertexID_of w) in Hstep.
  apply bind_Ok in Hstep as (u & _ & Hstep).
  destruct (vertexID_of w <? 0) eqn:Hneg; [done|].
  apply Z.ltb_ge in Hneg.
  apply bind_Ok in Hstep as (vb & Hvb & Hstep). apply at_index_Ok in Hvb.
  simpl in Hvb.
  pose proof (AddBoneWeight_slots_inv (vertexID_of w) id (mWeight w) vb P
                Hid (Hnew vb Hvb) (proj1 (Hinv _ _ Hvb)) (proj2 (Hinv _ _ Hvb)))
    as Hvb'.
  destruct (AddBoneWeight (vertexID_of w) id (mWeight w) vb) as [vb' events].
  injection Hstep as <- <-. simpl in *.
  split; [done|]. split.
  - intros v vb1 Hv.
    apply list_lookup_insert_Some in Hv as [(_ & <- & _)|[Hne Hv]]; [done|].
    by apply (Hinv v).
  - intros v Hv. by rewrite list_lookup_insert_ne.
Qed.

Lemma weights_loop_slots_inv (n : nat) (id : Z) (P : Z → Prop)
    (ws : list aiVertexWeight) (bw bw' : list VertexBoneData)
    (tr tr' : list Event) :
  id ≠ -1 →
  NoDup (vertexID_of <$> ws) →
  foldM (weight_step n id) (bw, tr) ws = Ok (bw', tr') →
  slots_inv id P bw →
  (∀ w vb, w ∈ ws → 0 ≤ vertexID_of w →
           bw !! Z.to_nat (vertexID_of w) = Some vb → id ∉ BoneIDs vb) →
  slots_inv id P bw'.
Proof.
  intros Hid. revert bw tr.
  induction ws as [|w ws IH]; intros bw tr Hnodup Hrun Hinv Hnew;
    simpl in Hrun.
  - by simplify_eq.
  - apply bind_Ok in Hrun as ([bw1 tr1] & Hstep & Hrun).
    rewrite fmap_cons in Hnodup. apply NoDup_cons in Hnodup as [Hw Hnodup].
    assert (0 ≤ vertexID_of w ∧ slots_inv id P bw1 ∧
            ∀ v, v ≠ Z.to_nat (vertexID_of w) → bw1 !! v = bw !! v)
      as (Hpos & Hinv1 & Hother).
    { eapply weight_step_slots_inv; [done..|].
      intros vb Hvb.
      destruct (decide (0 ≤ vertexID_of w)) as [Hpos|Hneg].
      - apply (Hnew w); [apply list_elem_of_here|done..].
      - unfold weight_step in Hstep. fold (vertexID_of w) in Hstep.
        apply bind_Ok in Hstep as (u & _ & Hstep).
        replace (vertexID_of w <? 0) with true in Hstep; [done|].
        symmetry. apply Z.ltb_lt. lia. }
    apply (IH bw1 tr1); [done..|].
    intros w' vb Hw' Hpos' Hvb.
    assert (vertexID_of w' ≠ vertexID_of w) as Hne.
    { intros Heq. apply Hw. rewrite <- Heq.
      apply list_elem_of_fmap. by exists w'. }
    rewrite Hother in Hvb by lia.
    apply (Hnew w'); [by apply list_elem_of_further|done..].
Qed.

Lemma bone_step_inv (n : nat) (names : list string) (m m' : Model)
    (bw bw' : list VertexBoneData) (tr tr' : list Event) (bone : aiBone) :
  bones_inv names m bw →
  bone_name bone ∉ names →
  NoDup (vertexID_of <$> mWeights bone) →
  bone_step n (m, bw, tr) bone = Ok (m', bw', tr') →
  bones_inv (bone_name bone :: names) m' bw'.
Proof.
  intros [Hwf Hslots] Hfresh Hnodup Hstep.
  unfold bone_step in Hstep. fold (bone_name bone) in Hstep.
  pose proof (RegisterBone_spec (bone_name bone) (mOffsetMatrix bone) m Hwf)
    as (Hwf' & Hpos & (bd & Hbd & Hbdid) & Hmono & _).
  destruct (RegisterBone (bone_name bone) (mOffsetMatrix bone) m)
    as [id m1]. simpl in *.
  apply bind_Ok in Hstep as (u & _ & Hstep).
  apply bind_Ok in Hstep as ([bw1 tr1] & Hloop & Hstep).
  injection Hstep as <- <- <-.
  split; [done|].
  assert (slots_inv id (known_id names m1) bw1) as Hinv1.
  { eapply weights_loop_slots_inv; [lia|done|done|..].
    - intros v vb Hv. destruct (Hslots v vb Hv) as [Hd Hk].
      split; [done|]. intros id' Hin Hne. right.
      destruct (Hk id' Hin Hne) as (nm & bd' & Hnm & Hl & Hid').
      exists nm, bd'. split; [done|]. split; [by apply Hmono|done].
    - intros w vb _ _ Hvb Hin. destruct (Hslots _ _ Hvb) as [_ Hk].
      destruct (Hk id Hin) as (nm & bd' & Hnm & Hl & Hid'); [lia|].
      apply Hmono in Hl. destruct Hwf' as (_ & _ & Hinj).
      assert (nm = bone_name bone) as ->
        by (eapply Hinj; [done|done|congruence]).
      done. }
  intros v vb Hv. destruct (Hinv1 v vb Hv) as [Hd Hk].
  split; [done|]. intros id' Hin Hne.
  destruct (Hk id' Hin Hne) as [->|(nm & bd' & Hnm & Hl & Hid')].
  - exists (bone_name bone), bd. split; [apply list_elem_of_here|done].
  - exists nm, bd'. split; [by apply list_elem_of_further|done].
Qed.

Lemma ProcessBones_inv (n : nat) (bones : list aiBone) (names : list string)
    (m m' : Model) (bw bw' : list VertexBoneData) (tr tr' : list Event) :
  bones_inv names m bw →
  bones_distinct bones →
  (∀ bone, bone ∈ bones → bone_name bone ∉ names) →
  ProcessBones n bones (m, bw, tr) = Ok (m', bw', tr') →
  ∃ names', bones_inv names' m' bw'.
Proof.
  unfold ProcessBones. revert names m bw tr.
  induction bones as [|bone bones IH];
    intros names m bw tr Hinv [Hnames Hweights] Hfresh Hrun; simpl in Hrun.
  - simplify_eq. by exists names.
  - apply bind_Ok in Hrun as ([[m1 bw1] tr1] & Hstep & Hrun).
    rewrite fmap_cons in Hnames. apply NoDup_cons in Hnames as [Hb Hnames].
    apply Forall_cons in Hweights as [Hw Hweights].
    apply (IH (bone_name bone :: names) m1 bw1 tr1); [|done| |done].
    + eapply bone_step_inv; [done| |done..].
      apply Hfresh, list_elem_of_here.
    + intros b Hin [Heq|Hold]%elem_of_cons.
      * apply Hb. rewrite <- Heq. apply list_elem_of_fmap. by exists b.
      * by apply (Hfresh b); [apply list_elem_of_further|].
Qed.

(** What registering a bone and the bone loop never touch. *)
Lemma RegisterBone_frame (name : string) (X : aiMatrix4x4) (m : Model) :
  let m' := (RegisterBone name X m).2 in
  m_Meshes m' = m_Meshes m ∧
  m_GlobalInverseTransform m' = m_GlobalInverseTransform m ∧
  m_Directory m' = m_Directory m ∧ m_Name m' = m_Name m.
Proof.
  unfold RegisterBone. by destruct (m_BoneDataMap m !! name).
Qed.

Lemma weights_loop_length (n : nat) (id : Z) (ws : list aiVertexWeight)
    (bw bw' : list VertexBoneData) (tr tr' : list Event) :
  foldM (weight_step n id) (bw, tr) ws = Ok (bw', tr') →
  length bw' = length bw.
Proof.
  intros Hloop.
  apply (foldM_inv (λ st : list VertexBoneData * list Event,
           length st.1 = length bw)) in Hloop; [done| |done].
  clear. intros [bw1 tr1] w [bw2 tr2] _ Hlen Hstep. simpl in *.
  unfold weight_step in Hstep.
  apply bind_Ok in Hstep as (u & _ & Hstep).
  destruct (to_int (Z.of_nat (mVertexId w)) <? 0); [done|].
  apply bind_Ok in Hstep as (vb & _ & Hstep). simpl in Hstep.
  destruct (AddBoneWeight _ _ _ vb) as [vb' events].
  injection Hstep as <- <-. by rewrite length_insert.
Qed.

Lemma ProcessBones_frame (n : nat) (bones : list aiBone) (m m' : Model)
    (bw bw' : list VertexBoneData) (tr tr' : list Event) :
  ProcessBones n bones (m, bw, tr) = Ok (m', bw', tr') →
  length bw' = length bw ∧
  m_Meshes m' = m_Meshes m ∧
  m_GlobalInverseTransform m' = m_GlobalInverseTransform m ∧
  m_Directory m' = m_Directory m ∧ m_Name m' = m_Name m.
Proof.
  intros Hrun.
  apply (foldM_inv (λ st : Model * list VertexBoneData * list Event,
           length st.1.2 = length bw ∧
           m_Meshes st.1.1 = m_Meshes m ∧
           m_GlobalInverseTransform st.1.1 = m_GlobalInverseTransform m ∧
           m_Directory st.1.1 = m_Directory m ∧ m_Name st.1.1 = m_Name m))
    in Hrun; [done| |done].
  clear. intros [[m1 bw1] tr1] bone [[m2 bw2] tr2] _
    (Hlen & Hmeshes & Hinverse & Hdir & Hname) Hstep. simpl in *.
  unfold bone_step in Hstep.
  pose proof (RegisterBone_frame (StdString.of_c_str (mName bone))
                (mOffsetMatrix bone) m1)
    as (Hmeshes' & Hinverse' & Hdir' & Hname').
  destruct (RegisterBone (StdString.of_c_str (mName bone))
              (mOffsetMatrix bone) m1) as [id m1']. simpl in *.
  apply bind_Ok in Hstep as (u & _ & Hstep).
  apply bind_Ok in Hstep as ([bw3 tr3] & Hloop & Hstep).
  injection Hstep as <- <- <-. apply weights_loop_length in Hloop.
  split_and!; congruence.
Qed.

Lemma ProcessBones_registry_wf (n : nat) (bones : list aiBone)
    (m m' : Model) (bw bw' : list VertexBoneData) (tr tr' : list Event) :
  registry_wf m →
  ProcessBones n bones (m, bw, tr) = Ok (m', bw', tr') →
  registry_wf m'.
Proof.
  intros Hwf Hrun.
  apply (foldM_inv (λ st : Model * list VertexBoneData * list Event,
           registry_wf st.1.1)) in Hrun; [done| |done].
  clear. intros [[m1 bw1] tr1] bone [[m2 bw2] tr2] _ Hwf Hstep.
  simpl in *. unfold bone_step in Hstep.
  pose proof (RegisterBone_spec (StdString.of_c_str (mName bone))
                (mOffsetMatrix bone) m1 Hwf) as (Hwf' & _).
  destruct (RegisterBone (StdString.of_c_str (mName bone))
              (mOffsetMatrix bone) m1) as [id m1']. simpl in *.
  apply bind_Ok in Hstep as (u & _ & Hstep).
  apply bind_Ok in Hstep as ([bw3 tr3] & Hloop & Hstep).
  by injection Hstep as <- <- <-.
Qed.

(** *** Points of the run of the bone loop *)

Lemma bones_prefix_refl (bones : list aiBone) : bones_prefix bones bones.
Proof. induction bones as [|bone bones IH]; by constructor. Qed.

Lemma bones_prefix_names (done bones : list aiBone) (name : string) :
  bones_prefix done bones →
  name ∈ bone_name <$> done → name ∈ bone_name <$> bones.
Proof.
  induction 1 as [bones|nm offset ws1 ws2 bones|bone done bones Hp IH];
    rewrite ?fmap_cons, ?elem_of_cons.
  - by intros ?%elem_of_nil.
  - intros [->|?%elem_of_nil]; [by left|done].
  - intros [->|Hin]; [by left|]. right. by apply IH.
Qed.

Lemma bones_distinct_prefix (done bones : list aiBone) :
  bones_prefix done bones → bones_distinct bones → bones_distinct done.
Proof.
  induction 1 as [bones|nm offset ws1 ws2 bones|bone done bones Hp IH];
    intros [Hnames Hweights].
  - split; [apply NoDup_nil_2|apply Forall_nil_2].
  - split; [apply NoDup_singleton|].
    apply Forall_cons in Hweights as [Hw _]. simpl in Hw.
    rewrite fmap_app in Hw. apply NoDup_app in Hw as [Hw _].
    by apply Forall_singleton.
  - rewrite fmap_cons in Hnames. apply NoDup_cons in Hnames as [Hb Hnames].
    apply Forall_cons in Hweights as [Hw Hweights].
    destruct IH as [IHn IHw]; [done|].
    split; [|by apply Forall_cons].
    rewrite fmap_cons. apply NoDup_cons. split; [|done].
    intros Hin. apply Hb. by eapply bones_prefix_names.
Qed.

(** Processing a bone after only its first weights have been processed:
    the bone is found in the registry and its other weights follow. *)
Lemma bone_step_weights_app (n : nat) (name : string) (offset : aiMatrix4x4)
    (ws1 ws2 : list aiVertexWeight)
    (st : Model * list VertexBoneData * list Event) :
  bone_step n st (mk_aiBone name offset (ws1 ++ ws2)) =
  bone_step n st (mk_aiBone name offset ws1) ≫= λ st1,
    let boneID :=
      (RegisterBone (StdString.of_c_str name) offset st1.1.1).1 in
    r ← foldM (weight_step n boneID) (st1.1.2, st1.2) ws2;
    mret (st1.1.1, r.1, r.2).
Proof.
  destruct st as [[m bw] tr]. unfold bone_step. cbn [mName mOffsetMatrix mWeights].
  pose proof (RegisterBone_again (StdString.of_c_str name) offset offset m)
    as Hid.
  destruct (RegisterBone (StdString.of_c_str name) offset m) as [id m1].
  cbn [snd] in Hid.
  destruct (ARC_ASSERT (negb (id =? -1)) _) as [u| | |]; [|done..].
  rewrite foldM_app. cbn [mbind outcome_bind].
  destruct (foldM (weight_step n id) (bw, tr) ws1) as [[bw1 tr1]| | |];
    [|done..].
  cbn [mbind outcome_bind mret outcome_ret fst snd]. by rewrite Hid.
Qed.

(** The run over [bones] passes through the result of the run over each of
    its prefixes: what remains to be done is a function of that result. *)
Lemma ProcessBones_through_prefix (n : nat) (done bones : list aiBone) :
  bones_prefix done bones →
  ∃ rest : Model * list VertexBoneData * list Event →
           outcome (Model * list VertexBoneData * list Event),
    ∀ st, ProcessBones n bones st = ProcessBones n done st ≫= rest.
Proof.
  unfold ProcessBones.
  induction 1 as [bones|nm offset ws1 ws2 bones|bone done bones Hp IH].
  - exists (λ st, foldM (bone_step n) st bones). done.
  - exists (λ st1,
      (let boneID :=
         (RegisterBone (StdString.of_c_str nm) offset st1.1.1).1 in
       r ← foldM (weight_step n boneID) (st1.1.2, st1.2) ws2;
       mret (st1.1.1, r.1, r.2)) ≫= λ st2, foldM (bone_step n) st2 bones).
    intros st. cbn [foldM]. rewrite bone_step_weights_app.
    rewrite outcome_bind_ret. by rewrite outcome_bind_assoc.
  - destruct IH as [rest Hrest]. exists rest. intros st. cbn [foldM].
    rewrite outcome_bind_assoc.
    destruct (bone_step n st bone) as [st1| | |]; [apply Hrest|done..].
Qed.

(** *** [ProcessMesh], step by step *)

Lemma ProcessMesh_Ok (mesh : aiMesh) (scene : aiScene) (m m' : Model)
    (tr tr' : list Event) :
  ProcessMesh mesh scene (m, tr) = Ok (m', tr') →
  ∃ va root m2 bw tr2 material,
    ProcessVertices mesh = Ok va ∧
    mRootNode scene = Some root ∧
    ProcessBones (mNumVertices mesh) (mBones mesh)
      (set_GlobalInverseTransform
         (glm_inverse (ConvertAssimpMatrixToGLM (mTransformation root))) m,
       boneWeights va, tr) = Ok (m2, bw, tr2) ∧
    mMaterials scene !! mMaterialIndex mesh = Some material ∧
    m' = emplace_back_Mesh
           (mk_Mesh (positions va) (uvs va) (normals va) (tangents va)
              (bitangents va) bw (ProcessIndices (mFaces mesh))
              (LoadMaterial m2 material).1) m2 ∧
    tr' = (tr2 ++ [Call_Mesh_LoadData]) ++ (LoadMaterial m2 material).2.
Proof.
  intros Hrun. unfold ProcessMesh in Hrun.
  apply bind_Ok in Hrun as (va & Hva & Hrun).
  apply bind_Ok in Hrun as (root & Hroot & Hrun).
  apply bind_Ok in Hrun as ([[m2 bw] tr2] & Hbones & Hrun).
  apply bind_Ok in Hrun as ([newMesh tr4] & Hmat & Hrun).
  injection Hrun as <- <-.
  replace (0 <=? Z.of_nat (mMaterialIndex mesh)) with true in Hmat
    by (symmetry; apply Z.leb_le; lia).
  apply bind_Ok in Hmat as (material & Hmaterial & Hmat).
  apply at_index_Ok in Hmaterial.
  destruct (LoadMaterial m2 material) as [mat events] eqn:Hload.
  injection Hmat as <- <-.
  exists va, root, m2, bw, tr2, material. rewrite Hload.
  destruct (mRootNode scene); by simplify_eq.
Qed.

Lemma to_int_le (u : Z) : 0 ≤ u → to_int u ≤ u.
Proof.
  intros Hu. unfold to_int.
  pose proof (Z.mod_le (u + 2 ^ 31) (2 ^ 32)). lia.
Qed.

Lemma weights_loop_total (n : nat) (id : Z) (ws : list aiVertexWeight)
    (bw : list VertexBoneData) (tr : list Event) :
  length bw = n →
  (∀ w, w ∈ ws → 0 ≤ vertexID_of w < to_int (Z.of_nat n)) →
  ∃ r, foldM (weight_step n id) (bw, tr) ws = Ok r.
Proof.
  revert bw tr. induction ws as [|w ws IH]; intros bw tr Hlen Hrange;
    simpl.
  - by eexists.
  - assert (∃ bw1 tr1, weight_step n id (bw, tr) w = Ok (bw1, tr1) ∧
                       length bw1 = n) as (bw1 & tr1 & -> & Hlen1).
    { unfold weight_step. fold (vertexID_of w).
      destruct (Hrange w) as [Hpos Hlt]; [apply list_elem_of_here|].
      replace (vertexID_of w <? to_int (Z.of_nat n)) with true
        by (symmetry; apply Z.ltb_lt; lia).
      replace (vertexID_of w <? 0) with false
        by (symmetry; apply Z.ltb_ge; lia).
      simpl.
      pose proof (to_int_le (Z.of_nat n)) as Hle.
      destruct (lookup_lt_is_Some_2 bw (Z.to_nat (vertexID_of w)))
        as [vb Hvb]; [lia|].
      apply at_index_Ok in Hvb. rewrite Hvb. simpl.
      destruct (AddBoneWeight _ _ _ vb) as [vb' events].
      eexists _, _. split; [done|]. by rewrite length_insert. }
    simpl. apply IH; [done|].
    intros w' Hw'. apply Hrange. by apply list_elem_of_further.
Qed.

Lemma ProcessBones_total (n : nat) (bones : list aiBone) (m : Model)
    (bw : list VertexBoneData) (tr : list Event) :
  registry_wf m → length bw = n →
  (∀ bone w, bone ∈ bones → w ∈ mWeights bone →
             0 ≤ vertexID_of w < to_int (Z.of_nat n)) →
  ∃ r, ProcessBones n bones (m, bw, tr) = Ok r.
Proof.
  unfold ProcessBones. revert m bw tr.
  induction bones as [|bone bones IH]; intros m bw tr Hwf Hlen Hrange;
    cbn [foldM].
  - by eexists.
  - assert (∃ m1 bw1 tr1, bone_step n (m, bw, tr) bone = Ok (m1, bw1, tr1) ∧
                          registry_wf m1 ∧ length bw1 = n)
      as (m1 & bw1 & tr1 & -> & Hwf1 & Hlen1).
    { unfold bone_step.
      pose proof (RegisterBone_spec (StdString.of_c_str (mName bone))
                    (mOffsetMatrix bone) m Hwf) as (Hwf' & Hpos & _).
      destruct (RegisterBone (StdString.of_c_str (mName bone))
                  (mOffsetMatrix bone) m) as [id m1]. simpl in *.
      replace (id =? -1) with false by (symmetry; apply Z.eqb_neq; lia).
      simpl.
      destruct (weights_loop_total n id (mWeights bone) bw tr Hlen)
        as [[bw1 tr1] Hloop].
      { intros w Hw. apply (Hrange bone); [apply list_elem_of_here|done]. }
      rewrite Hloop. simpl. eexists _, _, _. split; [done|].
      split; [done|]. apply weights_loop_length in Hloop. by rewrite Hloop. }
    simpl. apply IH; [done..|].
    intros b w Hb. apply Hrange. by apply list_elem_of_further.
Qed.

(** [ProcessMesh] completes on every mesh whose arrays are as long as its
    counts say, whose bones refer to vertices of the mesh and whose
    material exists, in a scene with a root node. *)
Lemma ProcessMesh_total (mesh : aiMesh) (scene : aiScene) (m : Model)
    (tr : list Event) :
  registry_wf m → mesh_ok mesh scene →
  ∃ r, ProcessMesh mesh scene (m, tr) = Ok r.
Proof.
  intros Hwf (Harrays & Hbones & [root Hroot] & [material Hmaterial]).
  unfold ProcessMesh.
  destruct (ProcessVertices_total mesh Harrays) as [va Hva].
  rewrite Hva, Hroot. simpl.
  pose proof (ProcessVertices_inv mesh va Hva)
    as (_ & _ & _ & _ & _ & Hlen & _).
  destruct (mBones mesh) as [|bone bones] eqn:Hb.
  - simpl. replace (0 <=? Z.of_nat (mMaterialIndex mesh)) with true
      by (symmetry; apply Z.leb_le; lia).
    apply at_index_Ok in Hmaterial. rewrite Hmaterial. simpl.
    destruct (LoadMaterial _ material). by eexists.
  - destruct (ProcessBones_total (mNumVertices mesh) (bone :: bones)
                (set_GlobalInverseTransform
                   (glm_inverse
                      (ConvertAssimpMatrixToGLM (mTransformation root))) m)
                (boneWeights va) tr) as [[[m2 bw] tr2] Hrun].
    + done.
    + rewrite Hlen. unfold mNumBones. by rewrite Hb.
    + done.
    + rewrite Hrun. simpl.
      replace (0 <=? Z.of_nat (mMaterialIndex mesh)) with true
        by (symmetry; apply Z.leb_le; lia).
      apply at_index_Ok in Hmaterial. rewrite Hmaterial. simpl.
      destruct (LoadMaterial _ material). by eexists.
Qed.

(** *** The finished mesh *)

(** C4. [ProcessMesh] completes on every well-formed mesh, skinned or
    not, and the mesh that a completed [ProcessMesh] appends to the model
    has positions, UVs, normals, tangents and bitangents of length
    [mNumVertices]; its bone-influence sequence has length [mNumVertices]
    when the source mesh has a bone, and is empty when it has none, in
    which case the bone loop does nothing: it returns the state it was
    given. *)
Theorem ProcessMesh_lengths (mesh : aiMesh) (scene : aiScene) (m : Model)
    (tr : list Event) :
  (registry_wf m → mesh_ok mesh scene →
   ∃ m' tr', ProcessMesh mesh scene (m, tr) = Ok (m', tr')) ∧
  ∀ m' tr',
  ProcessMesh mesh scene (m, tr) = Ok (m', tr') →
  ∃ newMesh,
    m_Meshes m' = m_Meshes m ++ [newMesh] ∧
    length (m_Positions newMesh) = mNumVertices mesh ∧
    length (m_UVs newMesh) = mNumVertices mesh ∧
    length (m_Normals newMesh) = mNumVertices mesh ∧
    length (m_Tangents newMesh) = mNumVertices mesh ∧
    length (m_Bitangents newMesh) = mNumVertices mesh ∧
    ((0 < mNumBones mesh)%nat →
     length (m_BoneWeights newMesh) = mNumVertices mesh) ∧
    (mNumBones mesh = 0%nat →
     m_BoneWeights newMesh = [] ∧
     ∀ st, ProcessBones (mNumVertices mesh) (mBones mesh) st = Ok st).
Proof.
  split.
  { intros Hwf Hok.
    destruct (ProcessMesh_total mesh scene m tr Hwf Hok) as [[m' tr'] Hrun].
    by exists m', tr'. }
  intros m' tr' Hrun.
  apply ProcessMesh_Ok in Hrun
    as (va & root & m2 & bw & tr2 & material & Hva & _ & Hbones & _ & -> & _).
  apply ProcessVertices_inv in Hva as (Hp & Hu & Hn & Ht & Hb & Hbw & _).
  apply ProcessBones_frame in Hbones as (Hlen & Hmeshes & _).
  eexists. simpl. rewrite Hmeshes. split; [done|]. simpl.
  split_and!; try done.
  - intros Hsome%Nat.ltb_lt. rewrite Hlen, Hbw. by rewrite Hsome.
  - intros Hnone. rewrite Hnone in Hbw. simpl in Hbw.
    split; [apply nil_length_inv; lia|].
    intros st. unfold mNumBones in Hnone.
    apply nil_length_inv in Hnone. by rewrite Hnone.
Qed.

(** C9. [ProcessMesh] completes on every well-formed mesh, with or
    without a texture-coordinate channel, and in the mesh that a
    completed [ProcessMesh] appends the UV of every vertex is (0,0) when
    the source mesh has no texture-coordinate channel, and is the x and y
    of that vertex's entry of the first channel when it has one. *)
Theorem ProcessMesh_uvs (mesh : aiMesh) (scene : aiScene) (m : Model)
    (tr : list Event) :
  (registry_wf m → mesh_ok mesh scene →
   ∃ m' tr', ProcessMesh mesh scene (m, tr) = Ok (m', tr')) ∧
  ∀ m' tr',
  ProcessMesh mesh scene (m, tr) = Ok (m', tr') →
  ∃ newMesh,
    m_Meshes m' = m_Meshes m ++ [newMesh] ∧
    ∀ j, (j < mNumVertices mesh)%nat →
      match mTextureCoords0 mesh with
      | None => m_UVs newMesh !! j = Some (mk_vec2 zero zero)
      | Some coords =>
          ∃ t, coords !! j = Some t ∧
               m_UVs newMesh !! j = Some (mk_vec2 (ai_x t) (ai_y t))
      end.
Proof.
  split.
  { intros Hwf Hok.
    destruct (ProcessMesh_total mesh scene m tr Hwf Hok) as [[m' tr'] Hrun].
    by exists m', tr'. }
  intros m' tr' Hrun.
  apply ProcessMesh_Ok in Hrun
    as (va & root & m2 & bw & tr2 & material & Hva & _ & Hbones & _ & -> & _).
  apply ProcessVertices_inv in Hva as (_ & _ & _ & _ & _ & _ & Huv & _).
  apply ProcessBones_frame in Hbones as (_ & Hmeshes & _).
  eexists. simpl. rewrite Hmeshes. split; [done|]. simpl.
  intros j Hj. apply (Huv j Hj).
Qed.

(** C5, as amended. The index sequence is the concatenation, in face
    order, of the index lists of the faces, and it is the index sequence
    of the mesh that a completed [ProcessMesh] appends. When every face
    has exactly 3 indices its length is 3 times the number of faces. The
    indices are copied as they are: every emitted index is below the
    vertex count when every index of every source face is. *)
Theorem ProcessIndices_spec (mesh : aiMesh) :
  ProcessIndices (mFaces mesh) = concat (mIndices <$> mFaces mesh) ∧
  (∀ scene m tr m' tr',
     ProcessMesh mesh scene (m, tr) = Ok (m', tr') →
     ∃ newMesh, m_Meshes m' = m_Meshes m ++ [newMesh] ∧
                m_Indices newMesh = ProcessIndices (mFaces mesh)) ∧
  (Forall (λ face, length (mIndices face) = 3%nat) (mFaces mesh) →
   length (ProcessIndices (mFaces mesh)) = (3 * mNumFaces mesh)%nat) ∧
  (Forall (λ face, Forall (λ index, (index < mNumVertices mesh)%nat)
                     (mIndices face)) (mFaces mesh) →
   Forall (λ index, (index < mNumVertices mesh)%nat)
     (ProcessIndices (mFaces mesh))).
Proof.
  split; [apply ProcessIndices_concat|]. split; [|split].
  - intros scene m tr m' tr' Hrun.
    apply ProcessMesh_Ok in Hrun
      as (va & root & m2 & bw & tr2 & material & _ & _ & Hbones & _ & -> & _).
    apply ProcessBones_frame in Hbones as (_ & Hmeshes & _).
    eexists. simpl. by rewrite Hmeshes.
  - rewrite ProcessIndices_concat. unfold mNumFaces.
    induction 1 as [|face faces Hface _ IH]; [done|].
    rewrite fmap_cons. simpl. rewrite length_app, IH, Hface. lia.
  - rewrite ProcessIndices_concat.
    induction 1 as [|face faces Hface _ IH]; [by apply Forall_nil_2|].
    rewrite fmap_cons. simpl. by apply Forall_app.
Qed.

(** *** Distinct bone ids in the slots of a vertex *)

Lemma cleared_bones_inv (mesh : aiMesh) (va : VertexArrays) (m : Model) :
  registry_wf m → ProcessVertices mesh = Ok va →
  bones_inv [] m (boneWeights va).
Proof.
  intros Hwf Hva. split; [done|].
  apply ProcessVertices_inv in Hva as (_ & _ & _ & _ & _ & Hlen & _ & Hcl).
  intros v vb Hv.
  assert (vb = cleared_VertexBoneData) as ->.
  { apply lookup_lt_Some in Hv as Hlt. rewrite Hlen in Hlt.
    destruct (0 <? mNumBones mesh)%nat eqn:Hb; [|lia].
    apply Nat.ltb_lt in Hb. rewrite (Hcl v Hlt Hb) in Hv. by simplify_eq. }
  simpl. split.
  - intros i j id [-> _]%lookup_replicate. done.
  - intros id [-> _]%elem_of_replicate. done.
Qed.

(** C7, as amended. For a mesh whose bones have pairwise different names
    and none of which lists a vertex twice, processed in a model whose
    registry is well formed (as that of every new model is): at every
    point of the run of the bone loop, and in the mesh that a completed
    [ProcessMesh] appends, no two slots of a vertex with a bone id other
    than -1 hold the same bone id; and the registry is again well
    formed. *)
Theorem bone_ids_distinct (mesh : aiMesh) :
  bones_distinct (mBones mesh) →
  (∀ va m tr done m' bw' tr',
     registry_wf m →
     ProcessVertices mesh = Ok va →
     bones_prefix done (mBones mesh) →
     ProcessBones (mNumVertices mesh) done (m, boneWeights va, tr) =
       Ok (m', bw', tr') →
     Forall distinct_occupied bw') ∧
  (∀ scene m tr m' tr',
     registry_wf m →
     ProcessMesh mesh scene (m, tr) = Ok (m', tr') →
     ∃ newMesh, m_Meshes m' = m_Meshes m ++ [newMesh] ∧
                Forall distinct_occupied (m_BoneWeights newMesh) ∧
                registry_wf m').
Proof.
  intros Hdistinct.
  assert (∀ va m tr done m' bw' tr',
     registry_wf m →
     ProcessVertices mesh = Ok va →
     bones_prefix done (mBones mesh) →
     ProcessBones (mNumVertices mesh) done (m, boneWeights va, tr) =
       Ok (m', bw', tr') →
     Forall distinct_occupied bw') as Hduring.
  { intros va m tr done m' bw' tr' Hwf Hva Hprefix Hrun.
    destruct (ProcessBones_inv (mNumVertices mesh) done [] m m'
                (boneWeights va) bw' tr tr') as [names [_ Hslots]].
    - by apply (cleared_bones_inv mesh).
    - by eapply bones_distinct_prefix.
    - intros bone _. apply not_elem_of_nil.
    - done.
    - apply Forall_lookup. intros v vb Hv. by apply (Hslots v vb). }
  split; [done|].
  intros scene m tr m' tr' Hwf Hrun.
  apply ProcessMesh_Ok in Hrun
    as (va & root & m2 & bw & tr2 & material & Hva & _ & Hbones & _ & -> & _).
  pose proof (ProcessBones_frame _ _ _ _ _ _ _ _ Hbones) as (_ & Hmeshes & _).
  eexists. simpl. rewrite Hmeshes. split; [done|]. simpl. split.
  - apply (Hduring va _ tr (mBones mesh) m2 bw tr2
             (registry_wf_set_GlobalInverseTransform _ _ Hwf) Hva
             (bones_prefix_refl _) Hbones).
  - apply (ProcessBones_registry_wf _ _ _ _ _ _ _ _
             (registry_wf_set_GlobalInverseTransform _ _ Hwf) Hbones).
Qed.

(** *** [std::string] operations *)

Lemma string_length_app (a b : string) :
  String.length (a +:+ b) = (String.length a + String.length b)%nat.
Proof. induction a as [|c a IH]; simpl; [done|]. by rewrite IH. Qed.

Lemma substring_0_length (s : string) :
  String.substring 0 (String.length s) s = s.
Proof. induction s as [|c s IH]; simpl; [done|]. by rewrite IH. Qed.

Lemma substring_0_app (a b : string) :
  String.substring 0 (String.length a) (a +:+ b) = a.
Proof.
  induction a as [|c a IH]; simpl; [by destruct b|]. by rewrite IH.
Qed.

Lemma substring_skip (a b : string) (n : nat) :
  String.substring (String.length a) n (a +:+ b) = String.substring 0 n b.
Proof. induction a as [|c a IH]; simpl; done. Qed.

Lemma string_app_snoc (a b : string) (c : ascii) :
  (a +:+ String c EmptyString) +:+ b = a +:+ String c b.
Proof.
  induction a as [|d a IH]; [done|]. exact (f_equal (String d) IH).
Qed.

Lemma last_index_of_None (set s : string) :
  no_char_of set s = true → StdString.last_index_of set s = None.
Proof.
  induction s as [|c s IH]; simpl; [done|].
  intros [Hc Hs]%andb_true_iff. rewrite (IH Hs).
  by destruct (StdString.contains set c).
Qed.

Lemma last_index_of_split (set before after : string) (c : ascii) :
  StdString.contains set c = true → no_char_of set after = true →
  StdString.last_index_of set (before +:+ String c after) =
    Some (String.length before).
Proof.
  intros Hc Hafter. induction before as [|d before IH]; simpl.
  - by rewrite (last_index_of_None _ _ Hafter), Hc.
  - by rewrite IH.
Qed.

(** A path that splits at a character of [set] contains one. *)
Lemma split_at_last_occurs (set path before after : string) :
  split_at_last set path before after → no_char_of set path = false.
Proof.
  intros (c & -> & Hc & _).
  induction before as [|d before IH].
  - change (negb (StdString.contains set c) && no_char_of set after = false).
    by rewrite Hc.
  - change (negb (StdString.contains set d) &&
            no_char_of set (before +:+ String c after) = false).
    rewrite IH. apply andb_false_r.
Qed.

(** Line 50 on a path with a last ['/']. *)
Lemma directory_of_split (path before after : string) :
  split_at_last "/" path before after →
  StdString.substr path 0 (StdString.find_last_of path "/") = Ok before.
Proof.
  intros (c & -> & Hc & Hafter).
  unfold StdString.substr, StdString.find_last_of, StdString.size.
  rewrite (last_index_of_split _ _ _ _ Hc Hafter).
  rewrite string_length_app. simpl.
  replace (_ <? 0) with false by (symmetry; apply Z.ltb_ge; lia).
  rewrite Z.min_l by lia. rewrite Nat2Z.id, Z2Nat.inj_0.
  by rewrite substring_0_app.
Qed.

(** Line 51 on a path with a last ['/'] or ['\']. *)
Lemma name_of_split (path before after : string) :
  StdString.size path < StdString.npos →
  split_at_last "/\" path before after →
  StdString.substr path
    (StdString.size_t_add (StdString.find_last_of path "/\") 1)
    StdString.npos = Ok after.
Proof.
  intros Hsize (c & -> & Hc & Hafter). revert Hsize.
  unfold StdString.substr, StdString.find_last_of, StdString.size,
    StdString.size_t_add, StdString.npos, StdString.size_t_modulus.
  rewrite (last_index_of_split _ _ _ _ Hc Hafter).
  rewrite string_length_app. simpl String.length. intros Hsize.
  rewrite Z.mod_small by lia.
  replace (_ <? _) with false by (symmetry; apply Z.ltb_ge; lia).
  rewrite Z.min_r by lia.
  replace (Z.to_nat (Z.of_nat (String.length before) + 1))
    with (String.length (before +:+ String c EmptyString))
    by (rewrite string_length_app; simpl; lia).
  rewrite <- (string_app_snoc before after c).
  rewrite substring_skip.
  replace (Z.to_nat _) with (String.length after) by lia.
  apply f_equal, substring_0_length.
Qed.

(** Line 51 on a path without ['/'] and ['\']: [npos + 1] is 0. *)
Lemma name_of_plain (path : string) :
  StdString.size path < StdString.npos →
  no_char_of "/\" path = true →
  StdString.substr path
    (StdString.size_t_add (StdString.find_last_of path "/\") 1)
    StdString.npos = Ok path.
Proof.
  intros Hsize Hplain. revert Hsize.
  unfold StdString.substr, StdString.find_last_of, StdString.size.
  rewrite (last_index_of_None _ _ Hplain).
  change (StdString.size_t_add StdString.npos 1) with 0. intros Hsize.
  replace (_ <? 0) with false by (symmetry; apply Z.ltb_ge; lia).
  rewrite Z.min_r by lia. rewrite Z.sub_0_r, Nat2Z.id, Z2Nat.inj_0.
  apply f_equal, substring_0_length.
Qed.

(** Line 50 on a path without ['/']: [substr(0, npos)] is the path. *)
Lemma directory_of_plain (path : string) :
  StdString.size path < StdString.npos →
  no_char_of "/" path = true →
  StdString.substr path 0 (StdString.find_last_of path "/") = Ok path.
Proof.
  intros Hsize Hplain. revert Hsize.
  unfold StdString.substr, StdString.find_last_of, StdString.size.
  rewrite (last_index_of_None _ _ Hplain). intros Hsize.
  replace (_ <? 0) with false by (symmetry; apply Z.ltb_ge; lia).
  rewrite Z.min_r by lia. rewrite Z.sub_0_r, Nat2Z.id, Z2Nat.inj_0.
  apply f_equal, substring_0_length.
Qed.

(** *** The scene walk *)

Lemma aiNode_children_ind (P : aiNode → Prop) :
  (∀ t meshes children,
     Forall P children → P (mk_aiNode t meshes children)) →
  ∀ node, P node.
Proof.
  intros Hnode. fix IH 1. intros [t meshes children]. apply Hnode.
  induction children as [|child children IHchildren]; constructor.
  - apply IH.
  - apply IHchildren.
Qed.

(** A property of the model that every [ProcessMesh] keeps is kept by
    the walk. *)
Lemma ProcessNode_inv (P : Model → Prop) (scene : aiScene) :
  (∀ mesh m tr m' tr',
     P m → ProcessMesh mesh scene (m, tr) = Ok (m', tr') → P m') →
  ∀ node m tr m' tr',
    P m → ProcessNode node scene (m, tr) = Ok (m', tr') → P m'.
Proof.
  intros Hmesh node.
  induction node as [t meshes children IH] using aiNode_children_ind.
  intros m tr m' tr' Hm Hrun. simpl in Hrun.
  apply bind_Ok in Hrun as ([m1 tr1] & Hmeshes & Hrun).
  assert (P m1) as Hm1.
  { apply (foldM_inv (λ st : Model * list Event, P st.1)) in Hmeshes;
      [done| |done].
    intros [ma tra] i [mb trb] _ Hma Hstep. simpl in *.
    unfold ProcessNodeMeshes in Hstep.
    apply bind_Ok in Hstep as (mesh & _ & Hstep). by eapply Hmesh. }
  clear Hmeshes Hm. revert m1 tr1 Hm1 Hrun.
  induction IH as [|child children Hchild _ IHchildren];
    intros m1 tr1 Hm1 Hrun.
  - by simplify_eq.
  - apply bind_Ok in Hrun as ([m2 tr2] & Hrun1 & Hrun).
    apply (IHchildren m2 tr2); [|done]. by eapply Hchild.
Qed.

Lemma ProcessMesh_frame (mesh : aiMesh) (scene : aiScene) (m m' : Model)
    (tr tr' : list Event) :
  ProcessMesh mesh scene (m, tr) = Ok (m', tr') →
  m_Directory m' = m_Directory m ∧ m_Name m' = m_Name m.
Proof.
  intros Hrun.
  apply ProcessMesh_Ok in Hrun
    as (va & root & m2 & bw & tr2 & material & _ & _ & Hbones & _ & -> & _).
  by apply ProcessBones_frame in Hbones as (_ & _ & _ & Hdir & Hname).
Qed.

Lemma ProcessMesh_registry_wf (mesh : aiMesh) (scene : aiScene)
    (m m' : Model) (tr tr' : list Event) :
  registry_wf m → ProcessMesh mesh scene (m, tr) = Ok (m', tr') →
  registry_wf m'.
Proof.
  intros Hwf Hrun.
  apply ProcessMesh_Ok in Hrun
    as (va & root & m2 & bw & tr2 & material & _ & _ & Hbones & _ & -> & _).
  apply (ProcessBones_registry_wf _ _ _ _ _ _ _ _
           (registry_wf_set_GlobalInverseTransform _ _ Hwf) Hbones).
Qed.

(** Every model that a load leaves behind, starting from a model with a
    well-formed registry such as a new one, has a well-formed registry. *)
Lemma LoadModel_registry_wf (path : string) (m m' : Model)
    (tr tr' : list Event) :
  registry_wf m → LoadModel path (m, tr) = Ok (m', tr') → registry_wf m'.
Proof.
  intros Hwf Hrun. unfold LoadModel in Hrun.
  destruct (ReadFile path import_flags) as [[sc|] errorString];
    [|by simplify_eq].
  destruct (negb _); [by simplify_eq|].
  destruct (mRootNode sc) as [root|]; [|by simplify_eq].
  apply bind_Ok in Hrun as (directory & _ & Hrun).
  apply bind_Ok in Hrun as (name & _ & Hrun).
  eapply (ProcessNode_inv registry_wf) in Hrun; [done| |exact Hwf].
  intros mesh m1 tr1 m2 tr2. apply ProcessMesh_registry_wf.
Qed.

(** *** Directory and name *)

(** What line 50 does with a path without ['/']: the directory is the
    whole path. *)
Lemma LoadModel_directory_plain (path : string) (m m' : Model)
    (tr tr' : list Event) (sc : aiScene) (root : aiNode)
    (errorString : string) :
  StdString.size path < StdString.npos →
  ReadFile path import_flags = (Some sc, errorString) →
  Z.land (mFlags sc) AI_SCENE_FLAGS_INCOMPLETE = 0 →
  mRootNode sc = Some root →
  LoadModel path (m, tr) = Ok (m', tr') →
  no_char_of "/" path = true →
  m_Directory m' = path.
Proof.
  intros Hsize Hread Hflags Hroot Hrun Hplain. unfold LoadModel in Hrun.
  rewrite Hread, Hflags, Hroot in Hrun. simpl in Hrun.
  rewrite (directory_of_plain _ Hsize Hplain) in Hrun.
  apply bind_Ok in Hrun as (directory & [= <-] & Hrun).
  apply bind_Ok in Hrun as (name & _ & Hrun).
  eapply (ProcessNode_inv (λ m1, m_Directory m1 = path)) in Hrun;
    [done| |done].
  intros mesh m1 tr1 m2 tr2 Hm1 [Hdir _]%ProcessMesh_frame. congruence.
Qed.

(** C10. After a load that is not a fatal failure and that completes, of
    a path that is a [std::string] (its size is below [npos]): when the
    path contains a ['/'], the model directory is the path up to, and not
    including, its last ['/']; when the path contains a ['/'] or a ['\'],
    the model name is the part after the last of them, and when it
    contains neither the model name is the whole path. When the path
    contains no ['/'], [find_last_of] returns [npos] and line 50 makes
    the directory the whole path, file name included, where nothing of
    the path comes before the name: texture files are then looked up
    under the model file's own name, not in the directory of the model
    as the comment of line 249 has it. *)
Theorem LoadModel_directory_name (path : string) (m m' : Model)
    (tr tr' : list Event) (sc : aiScene) (root : aiNode)
    (errorString : string) :
  StdString.size path < StdString.npos →
  ReadFile path import_flags = (Some sc, errorString) →
  Z.land (mFlags sc) AI_SCENE_FLAGS_INCOMPLETE = 0 →
  mRootNode sc = Some root →
  LoadModel path (m, tr) = Ok (m', tr') →
  (∀ before after,
     split_at_last "/" path before after → m_Directory m' = before) ∧
  (∀ before after,
     split_at_last "/\" path before after → m_Name m' = after) ∧
  (no_char_of "/\" path = true → m_Name m' = path) ∧
  (no_char_of "/" path = true →
   m_Directory m' = path ∧
   ∀ str, texture_file m' str =
          StdString.of_c_str (path +:+ "/" +:+ StdString.of_c_str str)).
Proof.
  intros Hsize Hread Hflags Hroot Hrun.
  pose proof (LoadModel_directory_plain path m m' tr tr' sc root errorString
                Hsize Hread Hflags Hroot Hrun) as Hwhole.
  unfold LoadModel in Hrun.
  rewrite Hread, Hflags, Hroot in Hrun. simpl in Hrun.
  apply bind_Ok in Hrun as (directory & Hdirectory & Hrun).
  apply bind_Ok in Hrun as (name & Hname & Hrun).
  eapply (ProcessNode_inv
            (λ m1, m_Directory m1 = directory ∧ m_Name m1 = name))
    in Hrun as [Hd Hn]; [| |done].
  - split; [|split; [|split]].
    + intros before after Hsplit.
      rewrite (directory_of_split _ _ _ Hsplit) in Hdirectory. congruence.
    + intros before after Hsplit.
      rewrite (name_of_split _ _ _ Hsize Hsplit) in Hname. congruence.
    + intros Hplain. rewrite (name_of_plain _ Hsize Hplain) in Hname.
      congruence.
    + intros Hplain. split; [exact (Hwhole Hplain)|].
      intros str. unfold texture_file. by rewrite (Hwhole Hplain).
  - intros mesh m1 tr1 m2 tr2 [Hd Hn] [Hdir Hnm]%ProcessMesh_frame.
    split; congruence.
Qed.

(** ** Further properties of the source *)

(** *** The scene walk as a work list *)

Lemma ProcessNode_foldM (scene : aiScene) (node : aiNode)
    (st : Model * list Event) :
  ProcessNode node scene st =
  foldM (ProcessNodeMeshes scene) st (node_mesh_indices node).
Proof.
  revert st.
  induction node as [t meshes children IH] using aiNode_children_ind.
  intros st. cbn [ProcessNode node_mesh_indices]. rewrite foldM_app.
  destruct (foldM (ProcessNodeMeshes scene) st meshes) as [st1| | |];
    [|done..].
  cbn [mbind outcome_bind]. revert st1.
  induction IH as [|child children Hchild _ IHchildren]; intros st1.
  - done.
  - rewrite fmap_cons. cbn [concat]. rewrite foldM_app, Hchild.
    destruct (foldM (ProcessNodeMeshes scene) st1 (node_mesh_indices child))
      as [st2| | |]; [|done..].
    apply IHchildren.
Qed.

(** The recursive walk processes the mesh indices of the tree in document
    order, the node's own before those of its children: it is the loop
    of [ProcessNodeMeshes] over [node_mesh_indices], with the same result
    also when the run stops. *)
Theorem ProcessNode_worklist (scene : aiScene) (node : aiNode)
    (st : Model * list Event) :
  ProcessNode node scene st =
  foldM (ProcessNodeMeshes scene) st (node_mesh_indices node).
Proof. apply ProcessNode_foldM. Qed.

(** *** The vertex loop, exactly *)

Lemma ProcessVertices_contents (mesh : aiMesh) (va : VertexArrays) :
  ProcessVertices mesh = Ok va →
  positions va = to_vec3 <$> take (mNumVertices mesh) (mVertices mesh) ∧
  normals va = to_vec3 <$> take (mNumVertices mesh) (mNormals mesh) ∧
  tangents va = to_vec3 <$> take (mNumVertices mesh) (mTangents mesh) ∧
  bitangents va = to_vec3 <$> take (mNumVertices mesh) (mBitangents mesh).
Proof.
  intros Hrun.
  apply (foldM_seq_inv (λ i va,
           positions va = to_vec3 <$> take i (mVertices mesh) ∧
           normals va = to_vec3 <$> take i (mNormals mesh) ∧
           tangents va = to_vec3 <$> take i (mTangents mesh) ∧
           bitangents va = to_vec3 <$> take i (mBitangents mesh))
           _ _ 0 _ _) in Hrun; [done| |done].
  clear. intros i va va' _ (Hp & Hn & Ht & Hb) Hstep.
  unfold vertex_step in Hstep.
  apply bind_Ok in Hstep as (uv & _ & Hstep).
  apply bind_Ok in Hstep as (p & Hp'%at_index_Ok & Hstep).
  apply bind_Ok in Hstep as (n & Hn'%at_index_Ok & Hstep).
  apply bind_Ok in Hstep as (t & Ht'%at_index_Ok & Hstep).
  apply bind_Ok in Hstep as (b & Hb'%at_index_Ok & Hstep).
  apply bind_Ok in Hstep as (bw & _ & Hstep).
  injection Hstep as <-. simpl.
  rewrite (take_S_r _ _ _ Hp'), (take_S_r _ _ _ Hn'),
    (take_S_r _ _ _ Ht'), (take_S_r _ _ _ Hb').
  rewrite !fmap_app, Hp, Hn, Ht, Hb. done.
Qed.

Lemma ProcessVertices_Ok_arrays (mesh : aiMesh) (va : VertexArrays) :
  ProcessVertices mesh = Ok va → vertex_arrays_ok mesh.
Proof.
  intros Hrun.
  apply (foldM_seq_inv (λ i (_ : VertexArrays),
           (i ≤ length (mVertices mesh))%nat ∧
           (i ≤ length (mNormals mesh))%nat ∧
           (i ≤ length (mTangents mesh))%nat ∧
           (i ≤ length (mBitangents mesh))%nat ∧
           (∀ coords, mTextureCoords0 mesh = Some coords →
                      (i ≤ length coords)%nat))
           _ _ 0 _ _) in Hrun; [done| |].
  - clear. intros i va va' _ _ Hstep. unfold vertex_step in Hstep.
    apply bind_Ok in Hstep as (uv & Huv & Hstep).
    apply bind_Ok in Hstep as (p & Hp%at_index_Ok%lookup_lt_Some & Hstep).
    apply bind_Ok in Hstep as (n & Hn%at_index_Ok%lookup_lt_Some & Hstep).
    apply bind_Ok in Hstep as (t & Ht%at_index_Ok%lookup_lt_Some & Hstep).
    apply bind_Ok in Hstep as (b & Hb%at_index_Ok%lookup_lt_Some & _).
    split_and!; try lia.
    intros coords Hcoords. rewrite Hcoords in Huv.
    apply bind_Ok in Huv as (c & Hc%at_index_Ok%lookup_lt_Some & _). lia.
  - split_and!; intros; lia.
Qed.

(** The vertex loop completes exactly on the meshes whose five arrays
    have at least [mNumVertices] elements (the texture coordinates only
    when present); on every other mesh it reads outside an array. *)
Theorem ProcessVertices_Ok_iff (mesh : aiMesh) :
  (∃ va, ProcessVertices mesh = Ok va) ↔ vertex_arrays_ok mesh.
Proof.
  split.
  - intros [va Hva]. by eapply ProcessVertices_Ok_arrays.
  - apply ProcessVertices_total.
Qed.

(** *** What one [ProcessMesh] and a whole walk leave in the model *)

Lemma ProcessMesh_appends (mesh : aiMesh) (scene : aiScene) (m m' : Model)
    (tr tr' : list Event) :
  ProcessMesh mesh scene (m, tr) = Ok (m', tr') →
  ∃ newMesh root,
    m_Meshes m' = m_Meshes m ++ [newMesh] ∧
    mesh_made_from mesh newMesh ∧
    mRootNode scene = Some root ∧
    m_GlobalInverseTransform m' =
      Some (glm_inverse (ConvertAssimpMatrixToGLM (mTransformation root))).
Proof.
  intros Hrun.
  apply ProcessMesh_Ok in Hrun
    as (va & root & m2 & bw & tr2 & material & Hva & Hroot & Hbones & _ &
        -> & _).
  apply ProcessVertices_contents in Hva as (Hp & Hn & Ht & Hb).
  apply ProcessBones_frame in Hbones as (_ & Hmeshes & Hinverse & _).
  eexists _, root. simpl. rewrite Hmeshes, Hinverse.
  split; [done|]. split; [|done].
  unfold mesh_made_from. simpl. split_and!; try done.
  apply ProcessIndices_concat.
Qed.

Lemma walk_meshes (scene : aiScene) (l : list nat) (m m' : Model)
    (tr tr' : list Event) :
  foldM (ProcessNodeMeshes scene) (m, tr) l = Ok (m', tr') →
  ∃ new,
    m_Meshes m' = m_Meshes m ++ new ∧
    Forall2 (λ i newMesh,
               ∃ mesh, scene_mMeshes scene !! i = Some mesh ∧
                       mesh_made_from mesh newMesh) l new.
Proof.
  revert m tr. induction l as [|i l IH]; intros m tr Hrun; cbn [foldM] in Hrun.
  - injection Hrun as <- <-. exists []. by rewrite app_nil_r.
  - apply bind_Ok in Hrun as ([m1 tr1] & Hstep & Hrun).
    unfold ProcessNodeMeshes in Hstep.
    apply bind_Ok in Hstep as (mesh & Hmesh%at_index_Ok & Hstep).
    apply ProcessMesh_appends in Hstep
      as (newMesh & root & Hm1 & Hmade & _).
    destruct (IH _ _ Hrun) as (new & Hm' & Hnew).
    exists (newMesh :: new). split.
    + rewrite Hm', Hm1. by rewrite <- app_assoc.
    + constructor; [by exists mesh|done].
Qed.

Lemma walk_global_inverse (scene : aiScene) (root : aiNode) (l : list nat)
    (m m' : Model) (tr tr' : list Event) :
  mRootNode scene = Some root →
  foldM (ProcessNodeMeshes scene) (m, tr) l = Ok (m', tr') →
  m_GlobalInverseTransform m' =
    if l is [] then m_GlobalInverseTransform m
    else Some (glm_inverse
                 (ConvertAssimpMatrixToGLM (mTransformation root))).
Proof.
  intros Hroot. revert m tr.
  induction l as [|i l IH]; intros m tr Hrun; cbn [foldM] in Hrun.
  - by injection Hrun as <- <-.
  - apply bind_Ok in Hrun as ([m1 tr1] & Hstep & Hrun).
    unfold ProcessNodeMeshes in Hstep.
    apply bind_Ok in Hstep as (mesh & _ & Hstep).
    apply ProcessMesh_appends in Hstep
      as (newMesh & root' & _ & _ & Hroot' & Hinverse).
    rewrite Hroot in Hroot'. injection Hroot' as <-.
    rewrite (IH _ _ Hrun). by destruct l.
Qed.

(** *** Every path has a directory and a name *)

Lemma last_index_of_None_inv (set s : string) :
  StdString.last_index_of set s = None → no_char_of set s = true.
Proof.
  induction s as [|c s IH]; [done|]. cbn [StdString.last_index_of no_char_of].
  destruct (StdString.last_index_of set s); [done|].
  destruct (StdString.contains set c); [done|]. intros _. by rewrite IH.
Qed.

Lemma last_index_of_Some_split (set s : string) (k : nat) :
  StdString.last_index_of set s = Some k →
  ∃ before after, split_at_last set s before after.
Proof.
  revert k. induction s as [|c s IH]; intros k; [done|].
  cbn [StdString.last_index_of].
  destruct (StdString.last_index_of set s) as [k'|] eqn:Hs.
  - intros _. destruct (IH k' eq_refl) as (before & after & d & -> & Hd & Ha).
    exists (String c before), after, d. done.
  - destruct (StdString.contains set c) eqn:Hc; [|done]. intros _.
    exists EmptyString, s, c. split; [done|]. split; [done|].
    by apply last_index_of_None_inv.
Qed.

Lemma path_cases (set path : string) :
  no_char_of set path = true ∨
  ∃ before after, split_at_last set path before after.
Proof.
  destruct (StdString.last_index_of set path) as [k|] eqn:Hk.
  - right. by eapply last_index_of_Some_split.
  - left. by apply last_index_of_None_inv.
Qed.

Lemma no_char_of_slash (s : string) :
  no_char_of "/\" s = true → no_char_of "/" s = true.
Proof.
  induction s as [|c s IH]; [done|]. cbn [no_char_of StdString.contains].
  intros [Hc Hs]%andb_true_iff. rewrite (IH Hs).
  destruct (Ascii.eqb c "/"); done.
Qed.

(** Lines 50 and 51 never throw: each [substr] returns a part of the
    path, the first a prefix and the second a suffix. *)
Lemma directory_name_derived (path : string) :
  StdString.size path < StdString.npos →
  ∃ directory name rest1 rest2,
    StdString.substr path 0 (StdString.find_last_of path "/") = Ok directory ∧
    StdString.substr path
      (StdString.size_t_add (StdString.find_last_of path "/\") 1)
      StdString.npos = Ok name ∧
    path = directory +:+ rest1 ∧ path = rest2 +:+ name.
Proof.
  intros Hsize.
  assert (∃ directory rest1,
    StdString.substr path 0 (StdString.find_last_of path "/") = Ok directory ∧
    path = directory +:+ rest1) as (directory & rest1 & Hd & Hp1).
  { destruct (path_cases "/" path) as [Hplain|(before & after & Hsplit)].
    - exists path, EmptyString. split; [by apply directory_of_plain|].
      clear. induction path as [|c path IH]; [done|].
      exact (f_equal (String c) IH).
    - exists before. pose proof Hsplit as (c & -> & _).
      eexists. split; [by eapply directory_of_split|done]. }
  assert (∃ name rest2,
    StdString.substr path
      (StdString.size_t_add (StdString.find_last_of path "/\") 1)
      StdString.npos = Ok name ∧
    path = rest2 +:+ name) as (name & rest2 & Hn & Hp2).
  { destruct (path_cases "/\" path) as [Hplain|(before & after & Hsplit)].
    - exists path, EmptyString. split; [by apply name_of_plain|done].
    - exists after. pose proof Hsplit as (c & Hpath & _).
      exists (before +:+ String c EmptyString).
      split; [by eapply name_of_split|]. by rewrite string_app_snoc. }
  by exists directory, name, rest1, rest2.
Qed.

(** A load that is not a fatal failure is the walk from the root node,
    started with the directory and the name set. *)
Lemma LoadModel_walk (path : string) (m : Model) (tr : list Event)
    (sc : aiScene) (root : aiNode) (errorString : string) :
  StdString.size path < StdString.npos →
  ReadFile path import_flags = (Some sc, errorString) →
  Z.land (mFlags sc) AI_SCENE_FLAGS_INCOMPLETE = 0 →
  mRootNode sc = Some root →
  ∃ directory name rest1 rest2,
    path = directory +:+ rest1 ∧ path = rest2 +:+ name ∧
    LoadModel path (m, tr) =
      foldM (ProcessNodeMeshes sc) (set_Directory_Name directory name m, tr)
        (node_mesh_indices root).
Proof.
  intros Hsize Hread Hflags Hroot.
  destruct (directory_name_derived path Hsize)
    as (directory & name & rest1 & rest2 & Hd & Hn & Hp1 & Hp2).
  exists directory, name, rest1, rest2. split; [done|]. split; [done|].
  unfold LoadModel. rewrite Hread, Hflags, Hroot. simpl.
  rewrite Hd, Hn. simpl. apply ProcessNode_foldM.
Qed.

(** A load that is not a fatal failure never throws: lines 50 and 51
    always yield a directory that is a prefix and a name that is a suffix
    of the path, and the load is then the loop of [ProcessNodeMeshes]
    over the mesh indices of the tree in document order. *)
Theorem LoadModel_derives_and_walks (path : string) (m : Model)
    (tr : list Event) (sc : aiScene) (root : aiNode) (errorString : string) :
  StdString.size path < StdString.npos →
  ReadFile path import_flags = (Some sc, errorString) →
  Z.land (mFlags sc) AI_SCENE_FLAGS_INCOMPLETE = 0 →
  mRootNode sc = Some root →
  ∃ directory name rest1 rest2,
    path = directory +:+ rest1 ∧ path = rest2 +:+ name ∧
    LoadModel path (m, tr) =
      foldM (ProcessNodeMeshes sc) (set_Directory_Name directory name m, tr)
        (node_mesh_indices root).
Proof. apply LoadModel_walk. Qed.

(** A completed load keeps the meshes the model had, in place, and
    appends one mesh per mesh index of the tree, in document order, each
    made from the scene mesh of that index: a scene mesh that two nodes
    refer to is appended twice. *)
Theorem LoadModel_meshes (path : string) (m m' : Model)
    (tr tr' : list Event) (sc : aiScene) (root : aiNode)
    (errorString : string) :
  StdString.size path < StdString.npos →
  ReadFile path import_flags = (Some sc, errorString) →
  Z.land (mFlags sc) AI_SCENE_FLAGS_INCOMPLETE = 0 →
  mRootNode sc = Some root →
  LoadModel path (m, tr) = Ok (m', tr') →
  ∃ new,
    m_Meshes m' = m_Meshes m ++ new ∧
    Forall2 (λ i newMesh,
               ∃ mesh, scene_mMeshes sc !! i = Some mesh ∧
                       mesh_made_from mesh newMesh)
      (node_mesh_indices root) new.
Proof.
  intros Hsize Hread Hflags Hroot Hrun.
  destruct (LoadModel_walk path m tr sc root errorString Hsize Hread Hflags
              Hroot) as (directory & name & _ & _ & _ & _ & Hwalk).
  rewrite Hwalk in Hrun. by apply walk_meshes in Hrun.
Qed.

(** After a completed load the global inverse transform is the inverse of
    the root node's transformation when the tree refers to at least one
    mesh; when it refers to none, line 128 is never reached and the
    transform is what it was before the load. *)
Theorem LoadModel_global_inverse (path : string) (m m' : Model)
    (tr tr' : list Event) (sc : aiScene) (root : aiNode)
    (errorString : string) :
  StdString.size path < StdString.npos →
  ReadFile path import_flags = (Some sc, errorString) →
  Z.land (mFlags sc) AI_SCENE_FLAGS_INCOMPLETE = 0 →
  mRootNode sc = Some root →
  LoadModel path (m, tr) = Ok (m', tr') →
  m_GlobalInverseTransform m' =
    if node_mesh_indices root is [] then m_GlobalInverseTransform m
    else Some (glm_inverse
                 (ConvertAssimpMatrixToGLM (mTransformation root))).
Proof.
  intros Hsize Hread Hflags Hroot Hrun.
  destruct (LoadModel_walk path m tr sc root errorString Hsize Hread Hflags
              Hroot) as (directory & name & _ & _ & _ & _ & Hwalk).
  rewrite Hwalk in Hrun.
  by apply (walk_global_inverse sc root) in Hrun.
Qed.

(** *** Texture files of a loaded model *)

Lemma nul_free_cons (c : ascii) (s : string) :
  nul_free (String c s) ↔ Ascii.eqb c Ascii.zero = false ∧ nul_free s.
Proof.
  unfold nul_free. cbn [StdString.of_c_str].
  destruct (Ascii.eqb c Ascii.zero); split.
  - discriminate.
  - by intros [? _].
  - intros [= H]. done.
  - intros [_ ->]. done.
Qed.

Lemma nul_free_app (a b : string) :
  nul_free a → nul_free b → nul_free (a +:+ b).
Proof.
  intros Ha Hb. induction a as [|c a IH]; [done|].
  apply nul_free_cons in Ha as [Hc Ha].
  change (nul_free (String c (a +:+ b))).
  apply nul_free_cons. split; [done|]. by apply IH.
Qed.

(** How the load and the texture lookup compose: after a completed load
    of a path [directory/name], whose name contains no separator, the
    file requested for a texture path is [directory/texture], provided
    neither the directory nor the texture path contains a NUL
    character. *)
Theorem LoadModel_texture_file (path : string) (m m' : Model)
    (tr tr' : list Event) (sc : aiScene) (root : aiNode)
    (errorString directory name str : string) :
  StdString.size path < StdString.npos →
  ReadFile path import_flags = (Some sc, errorString) →
  Z.land (mFlags sc) AI_SCENE_FLAGS_INCOMPLETE = 0 →
  mRootNode sc = Some root →
  LoadModel path (m, tr) = Ok (m', tr') →
  path = directory +:+ "/" +:+ name →
  no_char_of "/\" name = true →
  nul_free directory → nul_free str →
  m_Directory m' +:+ "/" +:+ m_Name m' = path ∧
  ∀ (mat : aiMaterial) (type : aiTextureType) (isSRGB : bool) rest,
    textures mat type = str :: rest →
    Call_Load2DTextureAsync (directory +:+ "/" +:+ str)
      (mk_TextureSettings isSRGB)
    ∈ (LoadMaterialTexture m' mat type isSRGB).2.
Proof.
  intros Hsize Hread Hflags Hroot Hrun Hpath Hname Hdir Hstr.
  assert (split_at_last "/\" path directory name) as Hsplit2
    by (by exists "/"%char).
  assert (split_at_last "/" path directory name) as Hsplit1.
  { exists "/"%char. split; [done|]. split; [done|].
    by apply no_char_of_slash. }
  unfold LoadModel in Hrun.
  rewrite Hread, Hflags, Hroot in Hrun. simpl in Hrun.
  rewrite (directory_of_split _ _ _ Hsplit1) in Hrun.
  rewrite (name_of_split _ _ _ Hsize Hsplit2) in Hrun. simpl in Hrun.
  eapply (ProcessNode_inv
            (λ m1, m_Directory m1 = directory ∧ m_Name m1 = name))
    in Hrun as [Hd Hn]; [| |done].
  - rewrite Hd, Hn. split; [done|].
    intros mat type isSRGB rest Htex.
    unfold LoadMaterialTexture, GetTextureCount, GetTexture.
    rewrite Htex, Hd. simpl.
    apply elem_of_app. right. apply list_elem_of_singleton.
    unfold nul_free in Hstr. rewrite Hstr.
    assert (nul_free (directory +:+ "/" +:+ str)) as ->; [|done].
    apply nul_free_app; [done|]. by apply (nul_free_app "/").
  - intros mesh m1 tr1 m2 tr2 [Hd Hn] [Hdir' Hnm]%ProcessMesh_frame.
    split; congruence.
Qed.

(** *** The registry across meshes and loads *)

(** A property of the bone map and the bone count that registering a bone
    keeps is kept by the bone loop, by [ProcessMesh] and by a load. *)
Section RegistryProperty.

Variable P : Model → Prop.
Hypothesis P_registry : ∀ m1 m2,
  m_BoneDataMap m1 = m_BoneDataMap m2 → m_BoneCount m1 = m_BoneCount m2 →
  P m1 → P m2.
Hypothesis P_RegisterBone : ∀ name X m, P m → P (RegisterBone name X m).2.

Lemma ProcessBones_registry_property (n : nat) (bones : list aiBone)
    (m m' : Model) (bw bw' : list VertexBoneData) (tr tr' : list Event) :
  P m → ProcessBones n bones (m, bw, tr) = Ok (m', bw', tr') → P m'.
Proof.
  intros Hm Hrun.
  apply (foldM_inv (λ st : Model * list VertexBoneData * list Event,
           P st.1.1)) in Hrun; [done| |done].
  intros [[m1 bw1] tr1] bone [[m2 bw2] tr2] _ Hm1 Hstep. simpl in *.
  unfold bone_step in Hstep.
  pose proof (P_RegisterBone (StdString.of_c_str (mName bone))
                (mOffsetMatrix bone) m1 Hm1) as Hm1'.
  destruct (RegisterBone (StdString.of_c_str (mName bone))
              (mOffsetMatrix bone) m1) as [id m1']. simpl in *.
  apply bind_Ok in Hstep as (u & _ & Hstep).
  apply bind_Ok in Hstep as ([bw3 tr3] & Hloop & Hstep).
  by injection Hstep as <- <- <-.
Qed.

Lemma ProcessMesh_registry_property (mesh : aiMesh) (scene : aiScene)
    (m m' : Model) (tr tr' : list Event) :
  P m → ProcessMesh mesh scene (m, tr) = Ok (m', tr') → P m'.
Proof.
  intros Hm Hrun.
  apply ProcessMesh_Ok in Hrun
    as (va & root & m2 & bw & tr2 & material & _ & _ & Hbones & _ & -> & _).
  apply ProcessBones_registry_property in Hbones.
  - by apply (P_registry m2).
  - by apply (P_registry m).
Qed.

Lemma LoadModel_registry_property (path : string) (m m' : Model)
    (tr tr' : list Event) :
  P m → LoadModel path (m, tr) = Ok (m', tr') → P m'.
Proof.
  intros Hm Hrun. unfold LoadModel in Hrun.
  destruct (ReadFile path import_flags) as [[sc|] errorString];
    [|by simplify_eq].
  destruct (negb _); [by simplify_eq|].
  destruct (mRootNode sc) as [root|]; [|by simplify_eq].
  apply bind_Ok in Hrun as (directory & _ & Hrun).
  apply bind_Ok in Hrun as (name & _ & Hrun).
  eapply (ProcessNode_inv P) in Hrun; [done| |by apply (P_registry m)].
  intros mesh m1 tr1 m2 tr2. apply ProcessMesh_registry_property.
Qed.

End RegistryProperty.

Lemma RegisterBone_keeps_entry (name n : string) (X : aiMatrix4x4)
    (m : Model) (bd : BoneData) :
  m_BoneDataMap m !! n = Some bd →
  m_BoneDataMap (RegisterBone name X m).2 !! n = Some bd.
Proof.
  intros Hn. unfold RegisterBone.
  destruct (m_BoneDataMap m !! name) eqn:E; simpl; [done|].
  rewrite lookup_insert_ne; [done|]. congruence.
Qed.

Lemma RegisterBone_count (name : string) (X : aiMatrix4x4) (m : Model) :
  m_BoneCount m ≤ m_BoneCount (RegisterBone name X m).2 ≤ m_BoneCount m + 1.
Proof.
  unfold RegisterBone. destruct (m_BoneDataMap m !! name); simpl; lia.
Qed.

Lemma RegisterBone_dense (name : string) (X : aiMatrix4x4) (m : Model) :
  registry_wf m ∧ registry_dense m →
  registry_wf (RegisterBone name X m).2 ∧
  registry_dense (RegisterBone name X m).2.
Proof.
  intros [Hwf Hdense].
  split; [apply (RegisterBone_spec name X m Hwf)|].
  destruct (m_BoneDataMap m !! name) as [found|] eqn:E.
  - by rewrite (RegisterBone_known _ X _ _ E).
  - rewrite (RegisterBone_fresh _ X _ E). intros id Hid. simpl in *.
    destruct (decide (id = m_BoneCount m)) as [->|Hne].
    + eexists name, _. by rewrite lookup_insert_eq.
    + destruct (Hdense id) as (n & bd & Hn & Hbd); [lia|].
      exists n, bd. split; [|done].
      rewrite lookup_insert_ne; [done|]. congruence.
Qed.

(** The bone ids of a model are exactly the integers below its bone
    count, one name each: a load keeps the registry well formed (ids are
    in range and no two names share one) and dense (every id below the
    count belongs to a name), as it is in a new model. *)
Theorem LoadModel_registry_exact (path : string) (m m' : Model)
    (tr tr' : list Event) :
  registry_wf m → registry_dense m →
  LoadModel path (m, tr) = Ok (m', tr') →
  registry_wf m' ∧ registry_dense m' ∧
  registry_wf Model_new ∧ registry_dense Model_new.
Proof.
  intros Hwf Hdense Hrun.
  destruct (LoadModel_registry_property
              (λ m, registry_wf m ∧ registry_dense m)) with (4 := Hrun)
    as [Hwf' Hdense'].
  - intros m1 m2 Hmap Hcount [H1 H2].
    unfold registry_wf, registry_dense in *. by rewrite <- Hmap, <- Hcount.
  - intros name X m0. apply RegisterBone_dense.
  - done.
  - split; [done|]. split; [done|]. split; [apply registry_wf_new|].
    intros id Hid. simpl in Hid. lia.
Qed.

(** A load never changes or removes a registered bone: every name of the
    map keeps its id and its inverse bind pose, also when a later bone of
    the same name has another offset matrix; and the bone count never
    goes down. *)
Theorem LoadModel_registry_stable (path : string) (m m' : Model)
    (tr tr' : list Event) :
  LoadModel path (m, tr) = Ok (m', tr') →
  m_BoneCount m ≤ m_BoneCount m' ∧
  ∀ name bd, m_BoneDataMap m !! name = Some bd →
             m_BoneDataMap m' !! name = Some bd.
Proof.
  intros Hrun. split.
  - apply (LoadModel_registry_property (λ m0, m_BoneCount m ≤ m_BoneCount m0))
      with (4 := Hrun); [| |simpl; lia].
    + intros m1 m2 _ Hcount. by rewrite Hcount.
    + intros name X m0 Hm0.
      pose proof (RegisterBone_count name X m0). simpl. lia.
  - intros name bd Hname.
    apply (LoadModel_registry_property
             (λ m0, m_BoneDataMap m0 !! name = Some bd)) with (4 := Hrun);
      [| |done].
    + intros m1 m2 Hmap _. by rewrite Hmap.
    + intros nm X m0. apply RegisterBone_keeps_entry.
Qed.

(** *** The bones of a mesh in the registry *)

Lemma RegisterBone_names (name n : string) (X : aiMatrix4x4) (m : Model) :
  is_Some (m_BoneDataMap (RegisterBone name X m).2 !! n) ↔
  is_Some (m_BoneDataMap m !! n) ∨ n = name.
Proof.
  unfold RegisterBone.
  destruct (m_BoneDataMap m !! name) as [found|] eqn:E; simpl.
  - split; [by left|]. intros [?| ->]; [done|]. by rewrite E.
  - rewrite lookup_insert. destruct (decide (name = n)) as [->|Hne].
    + split; [by right|done].
    + split; [by left|]. intros [?|?]; [done|congruence].
Qed.

Lemma ProcessBones_names (n : nat) (bones : list aiBone) (m m' : Model)
    (bw bw' : list VertexBoneData) (tr tr' : list Event) (name : string) :
  ProcessBones n bones (m, bw, tr) = Ok (m', bw', tr') →
  (is_Some (m_BoneDataMap m' !! name) ↔
   is_Some (m_BoneDataMap m !! name) ∨ name ∈ bone_name <$> bones) ∧
  m_BoneCount m' ≤ m_BoneCount m + Z.of_nat (length bones).
Proof.
  clear ReadFile Load2DTextureAsync.
  unfold ProcessBones. revert m bw tr.
  induction bones as [|bone bones IH]; intros m bw tr Hrun;
    cbn [foldM] in Hrun.
  - injection Hrun as <- <- <-. split; [|simpl; lia].
    rewrite fmap_nil, elem_of_nil. tauto.
  - apply bind_Ok in Hrun as ([[m1 bw1] tr1] & Hstep & Hrun).
    destruct (IH _ _ _ Hrun) as [IHn IHc]. unfold bone_step in Hstep.
    pose proof (RegisterBone_names (StdString.of_c_str (mName bone)) name
                  (mOffsetMatrix bone) m) as Hnames.
    pose proof (RegisterBone_count (StdString.of_c_str (mName bone))
                  (mOffsetMatrix bone) m) as Hcount.
    destruct (RegisterBone (StdString.of_c_str (mName bone))
                (mOffsetMatrix bone) m) as [id m0]. simpl in *.
    apply bind_Ok in Hstep as (u & _ & Hstep).
    apply bind_Ok in Hstep as ([bw3 tr3] & _ & Hstep).
    injection Hstep as <- <- <-.
    split; [|lia].
    rewrite IHn, Hnames, ?fmap_cons, elem_of_cons. unfold bone_name. tauto.
Qed.

(** After a completed [ProcessMesh] the registered names are those the
    model had and the names of the bones of the mesh, no other; the bone
    count has grown by at most the number of bones of the mesh. *)
Theorem ProcessMesh_registers_bones (mesh : aiMesh) (scene : aiScene)
    (m m' : Model) (tr tr' : list Event) :
  ProcessMesh mesh scene (m, tr) = Ok (m', tr') →
  (∀ name,
     is_Some (m_BoneDataMap m' !! name) ↔
     is_Some (m_BoneDataMap m !! name) ∨ name ∈ bone_name <$> mBones mesh) ∧
  m_BoneCount m ≤ m_BoneCount m' ≤ m_BoneCount m + Z.of_nat (mNumBones mesh).
Proof.
  intros Hrun.
  apply ProcessMesh_Ok in Hrun
    as (va & root & m2 & bw & tr2 & material & _ & _ & Hbones & _ & -> & _).
  split.
  - intros name. by destruct (ProcessBones_names _ _ _ _ _ _ _ _ name Hbones).
  - split.
    + apply (ProcessBones_registry_property
               (λ m0, m_BoneCount m ≤ m_BoneCount m0)) with (3 := Hbones);
        [|simpl; lia].
      * intros name X m0 Hm0.
        pose proof (RegisterBone_count name X m0). simpl. lia.
    + by destruct (ProcessBones_names _ _ _ _ _ _ _ _ EmptyString Hbones).
Qed.

(** *** What the slots hold *)

Lemma AddBoneWeight_cases (vertexID boneID : Z) (w : float)
    (vb : VertexBoneData) :
  (AddBoneWeight vertexID boneID w vb).1 = vb ∨
  ∃ k, (AddBoneWeight vertexID boneID w vb).1 = with_slot k boneID w vb.
Proof.
  unfold AddBoneWeight.
  destruct (find_open_slot (BoneIDs vb) 0 MaxBonesPerVertex) as [i|].
  - right. by exists i.
  - destruct (find_lowest (Weights vb)) as [lowestWeight smallestWeightIndex].
    destruct (gtb w lowestWeight && negb (smallestWeightIndex =? -1)).
    + right. by eexists.
    + by left.
Qed.

Lemma AddBoneWeight_clean (vertexID boneID : Z) (w : float)
    (vb : VertexBoneData) :
  boneID ≠ -1 → slots_clean vb →
  slots_clean (AddBoneWeight vertexID boneID w vb).1.
Proof.
  intros Hid [[Hids Hws] Hzero].
  destruct (AddBoneWeight_cases vertexID boneID w vb) as [->|[k ->]];
    [done|].
  split; [split; simpl; by rewrite length_insert|]. simpl.
  intros j [(_ & ? & _)|[Hne Hj]]%list_lookup_insert_Some; [done|].
  rewrite list_lookup_insert_ne by done. by apply Hzero.
Qed.

Lemma cleared_clean : slots_clean cleared_VertexBoneData.
Proof.
  split; [split; simpl; apply length_replicate|]. simpl.
  intros k [_ Hk]%lookup_replicate. by apply lookup_replicate.
Qed.

(** The bone loop applied to slots that are clean and hold ids of the
    names [names] only. *)
Lemma ProcessBones_slots (n : nat) (bones : list aiBone)
    (names : list string) (m m' : Model) (bw bw' : list VertexBoneData)
    (tr tr' : list Event) :
  (∀ bone, bone ∈ bones → bone_name bone ∈ names) →
  Forall slots_clean bw →
  (∀ vb id, vb ∈ bw → id ∈ BoneIDs vb → id ≠ -1 → known_id names m id) →
  ProcessBones n bones (m, bw, tr) = Ok (m', bw', tr') →
  Forall slots_clean bw' ∧
  ∀ vb id, vb ∈ bw' → id ∈ BoneIDs vb → id ≠ -1 → known_id names m' id.
Proof.
  intros Hnames Hclean Hknown Hrun.
  apply (foldM_inv (λ st : Model * list VertexBoneData * list Event,
           Forall slots_clean st.1.2 ∧
           ∀ vb id, vb ∈ st.1.2 → id ∈ BoneIDs vb → id ≠ -1 →
                    known_id names st.1.1 id)) in Hrun; [done| |done].
  clear Hclean Hknown.
  intros [[m1 bw1] tr1] bone [[m2 bw2] tr2] Hbone [Hclean Hknown] Hstep.
  simpl in *. unfold bone_step in Hstep. fold (bone_name bone) in Hstep.
  assert (∃ bd, m_BoneDataMap
                  (RegisterBone (bone_name bone) (mOffsetMatrix bone) m1).2
                !! bone_name bone = Some bd ∧
                boneID bd =
                  (RegisterBone (bone_name bone) (mOffsetMatrix bone) m1).1)
    as (bd & Hbd & Hbdid).
  { unfold RegisterBone.
    destruct (m_BoneDataMap m1 !! bone_name bone) as [found|] eqn:E; simpl.
    - by exists found.
    - eexists. by rewrite lookup_insert_eq. }
  pose proof (λ nm b, RegisterBone_keeps_entry (bone_name bone) nm
                        (mOffsetMatrix bone) m1 b) as Hkeep.
  destruct (RegisterBone (bone_name bone) (mOffsetMatrix bone) m1)
    as [id m1']. simpl in *.
  apply bind_Ok in Hstep as (u & Hassert%ARC_ASSERT_Ok & Hstep).
  apply negb_true_iff, Z.eqb_neq in Hassert.
  apply bind_Ok in Hstep as ([bw3 tr3] & Hloop & Hstep).
  injection Hstep as <- <- <-. simpl.
  apply (foldM_inv (λ st : list VertexBoneData * list Event,
           Forall slots_clean st.1 ∧
           ∀ vb id', vb ∈ st.1 → id' ∈ BoneIDs vb → id' ≠ -1 →
                     known_id names m1' id')) in Hloop; [done| |].
  - clear -Hassert Hbd Hbdid Hbone Hnames.
    intros [bwa tra] w [bwb trb] _ [Hclean Hknown] Hstep. simpl in *.
    unfold weight_step in Hstep.
    apply bind_Ok in Hstep as (u & _ & Hstep).
    destruct (to_int (Z.of_nat (mVertexId w)) <? 0); [done|].
    apply bind_Ok in Hstep as (vb & Hvb%at_index_Ok & Hstep).
    simpl in Hvb, Hstep.
    pose proof (AddBoneWeight_clean (to_int (Z.of_nat (mVertexId w))) id
                  (mWeight w) vb Hassert) as Hclean'.
    pose proof (AddBoneWeight_ids (to_int (Z.of_nat (mVertexId w))) id
                  (mWeight w) vb) as Hids.
    destruct (AddBoneWeight _ id _ vb) as [vb' events].
    injection Hstep as <- <-. simpl in *.
    assert (vb ∈ bwa) as Hin by (by eapply list_elem_of_lookup_2).
    split.
    + apply Forall_insert; [done|]. apply Hclean'.
      rewrite Forall_forall in Hclean. by apply Hclean.
    + intros vb1 id' [j Hj]%list_elem_of_lookup_1 Hid' Hne.
      apply list_lookup_insert_Some in Hj as [(_ & <- & _)|[_ Hj]].
      * destruct Hids as [Hids|[k Hids]]; rewrite Hids in Hid'.
        -- by apply (Hknown vb).
        -- apply list_elem_of_lookup_1 in Hid' as [i Hi].
           apply list_lookup_insert_Some in Hi as [(_ & <- & _)|[_ Hi]].
           ++ exists (bone_name bone), bd. split; [by apply Hnames|done].
           ++ apply (Hknown vb); [done| |done].
              by eapply list_elem_of_lookup_2.
      * apply (Hknown vb1); [|done..]. by eapply list_elem_of_lookup_2.
  - split; [done|]. intros vb id' Hvb Hid' Hne.
    destruct (Hknown vb id' Hvb Hid' Hne) as (nm & b & Hnm & Hl & Hb).
    exists nm, b. split; [done|]. split; [by apply Hkeep|done].
Qed.

(** In the mesh that a completed [ProcessMesh] appends, the two slot
    arrays of every vertex have the capacity as their length, and every
    slot with bone id -1 has weight 0. *)
Theorem ProcessMesh_slots_clean (mesh : aiMesh) (scene : aiScene)
    (m m' : Model) (tr tr' : list Event) :
  ProcessMesh mesh scene (m, tr) = Ok (m', tr') →
  ∃ newMesh,
    m_Meshes m' = m_Meshes m ++ [newMesh] ∧
    Forall slots_clean (m_BoneWeights newMesh).
Proof.
  intros Hrun.
  apply ProcessMesh_Ok in Hrun
    as (va & root & m2 & bw & tr2 & material & Hva & _ & Hbones & _ & -> & _).
  pose proof (ProcessBones_frame _ _ _ _ _ _ _ _ Hbones) as (_ & Hmeshes & _).
  apply (ProcessBones_slots _ _ (bone_name <$> mBones mesh)) in Hbones
    as [Hclean _].
  - eexists. simpl. rewrite Hmeshes. split; [done|]. done.
  - intros bone Hbone. apply list_elem_of_fmap. by exists bone.
  - apply Forall_lookup. intros v vb Hv.
    destruct (cleared_bones_inv mesh va Model_new registry_wf_new Hva)
      as [_ Hcl].
    apply ProcessVertices_inv in Hva as (_ & _ & _ & _ & _ & Hlen & _ & Hc).
    apply lookup_lt_Some in Hv as Hlt. rewrite Hlen in Hlt.
    destruct (0 <? mNumBones mesh)%nat eqn:Hb; [|lia].
    apply Nat.ltb_lt in Hb. rewrite (Hc v Hlt Hb) in Hv.
    injection Hv as <-. apply cleared_clean.
  - intros vb id Hvb Hid Hne. exfalso.
    apply list_elem_of_lookup_1 in Hvb as [v Hv].
    apply ProcessVertices_inv in Hva as (_ & _ & _ & _ & _ & Hlen & _ & Hc).
    apply lookup_lt_Some in Hv as Hlt. rewrite Hlen in Hlt.
    destruct (0 <? mNumBones mesh)%nat eqn:Hb; [|lia].
    apply Nat.ltb_lt in Hb. rewrite (Hc v Hlt Hb) in Hv.
    injection Hv as <-. simpl in Hid.
    by apply elem_of_replicate in Hid as [-> _].
Qed.

Lemma ProcessVertices_cleared (mesh : aiMesh) (va : VertexArrays)
    (vb : VertexBoneData) :
  ProcessVertices mesh = Ok va → vb ∈ boneWeights va →
  vb = cleared_VertexBoneData.
Proof.
  intros Hva [v Hv]%list_elem_of_lookup_1.
  apply ProcessVertices_inv in Hva as (_ & _ & _ & _ & _ & Hlen & _ & Hc).
  apply lookup_lt_Some in Hv as Hlt. rewrite Hlen in Hlt.
  destruct (0 <? mNumBones mesh)%nat eqn:Hb; [|lia].
  apply Nat.ltb_lt in Hb. rewrite (Hc v Hlt Hb) in Hv. by injection Hv.
Qed.

(** In the mesh that a completed [ProcessMesh] appends, every bone id in
    a slot is -1 or the id under which one of the bones of the mesh is
    registered in the model, and then, the registry being well formed, an
    integer from 0 to below the bone count: no slot refers to a bone the
    model does not know. *)
Theorem ProcessMesh_slot_ids (mesh : aiMesh) (scene : aiScene)
    (m m' : Model) (tr tr' : list Event) :
  registry_wf m →
  ProcessMesh mesh scene (m, tr) = Ok (m', tr') →
  ∃ newMesh,
    m_Meshes m' = m_Meshes m ++ [newMesh] ∧
    ∀ vb id, vb ∈ m_BoneWeights newMesh → id ∈ BoneIDs vb →
      id = -1 ∨
      (0 ≤ id < m_BoneCount m' ∧
       ∃ bone bd, bone ∈ mBones mesh ∧
                  m_BoneDataMap m' !! bone_name bone = Some bd ∧
                  boneID bd = id).
Proof.
  intros Hwf Hrun.
  apply ProcessMesh_Ok in Hrun
    as (va & root & m2 & bw & tr2 & material & Hva & _ & Hbones & _ & -> & _).
  pose proof (ProcessBones_frame _ _ _ _ _ _ _ _ Hbones) as (_ & Hmeshes & _).
  pose proof (ProcessBones_registry_wf _ _ _ _ _ _ _ _
                (registry_wf_set_GlobalInverseTransform _ _ Hwf) Hbones)
    as (_ & Hrange & _).
  apply (ProcessBones_slots _ _ (bone_name <$> mBones mesh)) in Hbones
    as [_ Hknown].
  - eexists. simpl. rewrite Hmeshes. split; [done|]. simpl.
    intros vb id Hvb Hid.
    destruct (decide (id = -1)) as [|Hne]; [by left|]. right.
    destruct (Hknown vb id Hvb Hid Hne) as (name & bd & Hname & Hbd & <-).
    split; [by eapply Hrange|].
    apply list_elem_of_fmap in Hname as (bone & -> & Hbone).
    by exists bone, bd.
  - intros bone Hbone. apply list_elem_of_fmap. by exists bone.
  - apply Forall_forall. intros vb Hvb.
    rewrite (ProcessVertices_cleared mesh va vb Hva Hvb).
    apply cleared_clean.
  - intros vb id Hvb Hid Hne. exfalso.
    rewrite (ProcessVertices_cleared mesh va vb Hva Hvb) in Hid.
    simpl in Hid. by apply elem_of_replicate in Hid as [-> _].
Qed.

(** *** One influence, slot by slot *)

(** A slot that holds a bone either keeps its bone id and weight, or
    receives the new bone id and weight; the second happens only when the
    new weight is strictly greater than the weight the slot held, and
    that weight was below 1.0: the weight of an occupied slot never goes
    down. *)
Theorem AddBoneWeight_occupied_slot (vertexID boneID : Z)
    (currentWeight : float) (vb : VertexBoneData) (k : nat) (id : Z)
    (wk : float) :
  BoneIDs vb !! k = Some id → id ≠ -1 → Weights vb !! k = Some wk →
  let vb' := (AddBoneWeight vertexID boneID currentWeight vb).1 in
  (BoneIDs vb' !! k = Some id ∧ Weights vb' !! k = Some wk) ∨
  (BoneIDs vb' !! k = Some boneID ∧ Weights vb' !! k = Some currentWeight ∧
   gtb currentWeight wk = true ∧ ltb wk one = true).
Proof.
  intros Hid Hne Hwk vb'. subst vb'. unfold AddBoneWeight.
  destruct (find_open_slot (BoneIDs vb) 0 MaxBonesPerVertex) as [i|] eqn:Hi.
  - left. apply find_open_slot_Some in Hi as (_ & Hi & _). simpl.
    assert (i ≠ k) as Hik.
    { intros ->. by rewrite (list_lookup_total_correct _ _ _ Hid) in Hi. }
    by rewrite !list_lookup_insert_ne.
  - destruct (find_lowest_selected (Weights vb)) as [->|(i & _ & -> & Hone)].
    + rewrite andb_false_r. by left.
    + destruct (gtb currentWeight (Weights vb !!! i)) eqn:Hgt; simpl;
        [|by left].
      replace (Z.of_nat i =? -1) with false
        by (symmetry; apply Z.eqb_neq; lia).
      simpl. rewrite Nat2Z.id.
      destruct (decide (i = k)) as [->|Hik].
      * right. rewrite (list_lookup_total_correct _ _ _ Hwk) in Hgt, Hone.
        apply lookup_lt_Some in Hid, Hwk.
        by rewrite !list_lookup_insert_eq.
      * left. by rewrite !list_lookup_insert_ne.
Qed.

(** No influence is lost silently. Either the influence goes into a slot
    with bone id -1 and nothing is logged; or it displaces a bone, and
    exactly one warning is logged, which names the displaced bone id and
    weight; or the slots are left as they are and exactly one warning
    says that the influence was not added. The two warnings occur only
    when none of the slots has bone id -1. *)
Theorem AddBoneWeight_logged (vertexID boneID : Z) (currentWeight : float)
    (vb : VertexBoneData) :
  let r := AddBoneWeight vertexID boneID currentWeight vb in
  (∃ k, (k < MaxBonesPerVertex)%nat ∧ BoneIDs vb !!! k = -1 ∧
        r = (with_slot k boneID currentWeight vb, [])) ∨
  ((∀ j, (j < MaxBonesPerVertex)%nat → BoneIDs vb !!! j ≠ -1) ∧
   ((∃ k, (k < MaxBonesPerVertex)%nat ∧
          r = (with_slot k boneID currentWeight vb,
               [LogWarn_Replacing MaxBonesPerVertex vertexID
                  (BoneIDs vb !!! k) (Weights vb !!! k) boneID
                  currentWeight])) ∨
    r = (vb, [LogWarn_NotAdding MaxBonesPerVertex vertexID boneID
                currentWeight]))).
Proof.
  intros r. subst r. unfold AddBoneWeight.
  destruct (find_open_slot (BoneIDs vb) 0 MaxBonesPerVertex) as [i|] eqn:Hi.
  - left. apply find_open_slot_Some in Hi as (Hlt & Hi & _).
    exists i. split; [lia|done].
  - right. split.
    { intros j Hj. apply (proj1 (find_open_slot_None _ _ _) Hi). lia. }
    destruct (find_lowest_selected (Weights vb)) as [->|(i & Hlt & -> & _)].
    + right. by rewrite andb_false_r.
    + destruct (gtb currentWeight (Weights vb !!! i)); simpl; [|by right].
      replace (Z.of_nat i =? -1) with false
        by (symmetry; apply Z.eqb_neq; lia).
      simpl. rewrite Nat2Z.id. left. by exists i.
Qed.

(** *** When [ProcessMesh] completes *)




(** *** What [ProcessMesh] logs and requests *)

Lemma AddBoneWeight_events (vertexID boneID : Z) (w : float)
    (vb : VertexBoneData) :
  Forall (λ e, is_slot_warning e = true)
    (AddBoneWeight vertexID boneID w vb).2.
Proof.
  unfold AddBoneWeight.
  destruct (find_open_slot (BoneIDs vb) 0 MaxBonesPerVertex) as [i|];
    [by constructor|].
  destruct (find_lowest (Weights vb)) as [lowestWeight smallestWeightIndex].
  destruct (gtb w lowestWeight && negb (smallestWeightIndex =? -1));
    by repeat constructor.
Qed.

Lemma ProcessBones_trace (n : nat) (bones : list aiBone) (m m' : Model)
    (bw bw' : list VertexBoneData) (tr tr' : list Event) :
  ProcessBones n bones (m, bw, tr) = Ok (m', bw', tr') →
  ∃ warnings, tr' = tr ++ warnings ∧
              Forall (λ e, is_slot_warning e = true) warnings.
Proof.
  intros Hrun.
  apply (foldM_inv (λ st : Model * list VertexBoneData * list Event,
           ∃ warnings, st.2 = tr ++ warnings ∧
                       Forall (λ e, is_slot_warning e = true) warnings))
    in Hrun; [done| |].
  - clear. intros [[m1 bw1] tr1] bone [[m2 bw2] tr2] _ Htr1 Hstep.
    simpl in *. unfold bone_step in Hstep.
    destruct (RegisterBone (StdString.of_c_str (mName bone))
                (mOffsetMatrix bone) m1) as [id m1'].
    apply bind_Ok in Hstep as (u & _ & Hstep).
    apply bind_Ok in Hstep as ([bw3 tr3] & Hloop & Hstep).
    injection Hstep as <- <- <-. simpl.
    apply (foldM_inv (λ st : list VertexBoneData * list Event,
             ∃ warnings, st.2 = tr ++ warnings ∧
                         Forall (λ e, is_slot_warning e = true) warnings))
      in Hloop; [done| |done].
    clear. intros [bwa tra] w [bwb trb] _ (warnings & Htra & Hw) Hstep.
    simpl in *. unfold weight_step in Hstep.
    apply bind_Ok in Hstep as (u & _ & Hstep).
    destruct (to_int (Z.of_nat (mVertexId w)) <? 0); [done|].
    apply bind_Ok in Hstep as (vb & _ & Hstep). simpl in Hstep.
    pose proof (AddBoneWeight_events (to_int (Z.of_nat (mVertexId w))) id
                  (mWeight w) vb) as Hevents.
    destruct (AddBoneWeight _ id _ vb) as [vb' events].
    injection Hstep as <- <-. exists (warnings ++ events).
    split; [by rewrite Htra, app_assoc|by apply Forall_app].
  - exists []. by rewrite app_nil_r.
Qed.

(** A completed [ProcessMesh] erases nothing from the trace and adds to
    it, in this order: the warnings of the slot policy (none when the
    mesh has no bone), one request for the GPU data of the new mesh, and
    the warnings and requests of the at most four texture lookups of the
    mesh's material. It never logs an error. *)
Theorem ProcessMesh_trace (mesh : aiMesh) (scene : aiScene) (m m' : Model)
    (tr tr' : list Event) :
  ProcessMesh mesh scene (m, tr) = Ok (m', tr') →
  ∃ warnings material,
    mMaterials scene !! mMaterialIndex mesh = Some material ∧
    Forall (λ e, is_slot_warning e = true) warnings ∧
    (mBones mesh = [] → warnings = []) ∧
    tr' = tr ++ warnings ++
          Call_Mesh_LoadData :: (LoadMaterial m' material).2 ∧
    (length (filter (λ e, is_texture_request e = true)
               (LoadMaterial m' material).2) ≤ 4)%nat.
Proof.
  intros Hrun.
  apply ProcessMesh_Ok in Hrun
    as (va & root & m2 & bw & tr2 & material & _ & _ & Hbones & Hmaterial &
        -> & ->).
  assert (mBones mesh = [] → tr2 = tr) as Hnone.
  { intros Hb. rewrite Hb in Hbones. by injection Hbones as _ _ <-. }
  apply ProcessBones_trace in Hbones as (warnings & -> & Hwarnings).
  exists warnings, material. split; [done|]. split; [done|]. split.
  { intros Hb. specialize (Hnone Hb).
    apply (f_equal length) in Hnone. rewrite length_app in Hnone.
    apply nil_length_inv. lia. }
  split.
  { rewrite <- !app_assoc. done. }
  unfold LoadMaterial, LoadMaterialTexture, GetTextureCount, GetTexture.
  simpl.
  destruct (textures material aiTextureType_DIFFUSE) as [|? [|? ?]];
    destruct (textures material aiTextureType_NORMALS) as [|? [|? ?]];
    destruct (textures material aiTextureType_AMBIENT) as [|? [|? ?]];
    destruct (textures material aiTextureType_DISPLACEMENT) as [|? [|? ?]];
    simpl; repeat (rewrite ?filter_cons, ?filter_nil; case_decide);
    simpl; lia.
Qed.

(** *** [Draw] *)

Lemma Draw_from (m : Model) (shader : N) (pass : RenderPassType)
    (k a : nat) (calls : list RenderCall) :
  (a + k)%nat = length (m_Meshes m) →
  foldM (draw_step m shader pass) calls (seq a k) =
  Ok (calls ++ concat (draw_calls shader pass <$> drop a (m_Meshes m))).
Proof.
  revert a calls. induction k as [|k IH]; intros a calls Hlen; cbn [seq foldM].
  - rewrite drop_ge by lia. by rewrite app_nil_r.
  - destruct (lookup_lt_is_Some_2 (m_Meshes m) a) as [mesh Hmesh]; [lia|].
    rewrite (drop_S _ _ _ Hmesh), fmap_cons. cbn [concat].
    assert (draw_step m shader pass calls a =
            Ok (calls ++ draw_calls shader pass mesh)) as ->.
    { unfold draw_step, draw_calls, at_index. rewrite Hmesh.
      destruct pass; simpl; [by rewrite <- app_assoc|done]. }
    cbn [mbind outcome_bind]. rewrite IH by lia. by rewrite <- app_assoc.
Qed.

(** [Draw] never reads outside the mesh array. It issues one draw call
    per mesh, in the order of the meshes; in a pass that requires
    material state each draw is preceded by the binding of the material
    of that same mesh, and in any other pass no material is bound. *)
Theorem Draw_calls (m : Model) (shader : N) (pass : RenderPassType) :
  Draw m shader pass =
    Ok (concat (draw_calls shader pass <$> m_Meshes m)) ∧
  (pass ≠ MaterialRequired →
   Draw m shader pass = Ok (Call_Mesh_Draw <$> m_Meshes m)).
Proof.
  assert (Draw m shader pass =
          Ok (concat (draw_calls shader pass <$> m_Meshes m))) as Hdraw.
  { unfold Draw. by rewrite (Draw_from m shader pass _ 0 []). }
  split; [done|]. intros Hpass. rewrite Hdraw. f_equal. clear Hdraw.
  destruct pass; [done|]. unfold draw_calls. simpl.
  induction (m_Meshes m) as [|mesh meshes IH]; [done|].
  rewrite !fmap_cons. simpl. f_equal. exact IH.
Qed.

End ModelCpp.

(** ** The properties on the example inputs *)

Lemma example_full_slots_no_open_slot :
  no_open_slot (BoneIDs example_full_slots).
Proof. intros [|[|[|[|j]]]]; done. Qed.

Lemma example_full_slots_first_min :
  first_min_slot (Weights example_full_slots) 1 quarter.
Proof.
  split; [done|]. split.
  - intros [|[|[|[|j]]]] wj; simpl; intros [= <-]; reflexivity.
  - intros [|j] wj Hj; [|lia]. simpl. by intros [= <-].
Qed.

Lemma example_ones_slots_no_open_slot :
  no_open_slot (BoneIDs example_ones_slots).
Proof. intros [|[|[|[|j]]]]; done. Qed.

Lemma example_ones_slots_first_min :
  first_min_slot (Weights example_ones_slots) 0 one.
Proof.
  split; [done|]. split.
  - intros [|[|[|[|j]]]] wj; simpl; intros [= <-]; reflexivity.
  - intros j wj Hj. lia.
Qed.

Lemma AddBoneWeight_policy_witness :
  vbd_wf 4 example_open_slots ∧ vbd_wf 4 example_full_slots ∧
  AddBoneWeight 4 7 9 half example_open_slots =
    (with_slot 1 9 half example_open_slots, []) ∧
  AddBoneWeight 4 7 9 half example_full_slots =
    (with_slot 1 9 half example_full_slots,
     [LogWarn_Replacing 4 7 1 quarter 9 half]) ∧
  AddBoneWeight 4 7 9 quarter example_full_slots =
    (example_full_slots, [LogWarn_NotAdding 4 7 9 quarter]) ∧
  AddBoneWeight 4 7 9 two example_ones_slots =
    (example_ones_slots, [LogWarn_NotAdding 4 7 9 two]).
Proof.
  assert (vbd_wf 4 example_open_slots) as Hopen by (split; reflexivity).
  assert (vbd_wf 4 example_full_slots) as Hfull by (split; reflexivity).
  assert (vbd_wf 4 example_ones_slots) as Hones by (split; reflexivity).
  split; [exact Hopen|]. split; [exact Hfull|]. split; [|split; [|split]].
  - apply (proj1 (AddBoneWeight_policy 4 7 9 half example_open_slots Hopen)
             1%nat).
    split; [reflexivity|]. intros [|j] Hj; [discriminate|lia].
  - exact (proj2 (AddBoneWeight_policy 4 7 9 half example_full_slots Hfull)
             example_full_slots_no_open_slot 1%nat quarter
             example_full_slots_first_min eq_refl).
  - exact (proj2 (AddBoneWeight_policy 4 7 9 quarter example_full_slots Hfull)
             example_full_slots_no_open_slot 1%nat quarter
             example_full_slots_first_min eq_refl).
  - exact (proj2 (AddBoneWeight_policy 4 7 9 two example_ones_slots Hones)
             example_ones_slots_no_open_slot 0%nat one
             example_ones_slots_first_min eq_refl).
Defined.

(** C1 as stated fails: no slot is unused, the first slot with the minimum
    weight is slot 0 with weight 1.0, the new weight 2.0 is strictly
    greater, and yet no slot is overwritten. *)
Lemma AddBoneWeight_policy_counterexample :
  vbd_wf 4 example_ones_slots ∧
  no_open_slot (BoneIDs example_ones_slots) ∧
  first_min_slot (Weights example_ones_slots) 0 one ∧
  gtb two one = true ∧
  (AddBoneWeight 4 7 9 two example_ones_slots).1 = example_ones_slots ∧
  (AddBoneWeight 4 7 9 two example_ones_slots).1 ≠
    with_slot 0 9 two example_ones_slots.
Proof.
  split; [by split|]. split; [exact example_ones_slots_no_open_slot|].
  split; [exact example_ones_slots_first_min|]. by split_and!.
Qed.

Lemma AddBoneWeight_at_least_one_kept_witness :
  vbd_wf 4 example_ones_slots ∧
  no_open_slot (BoneIDs example_ones_slots) ∧
  Forall (λ wk, geb wk one = true) (Weights example_ones_slots) ∧
  AddBoneWeight 4 7 9 two example_ones_slots =
    (example_ones_slots, [LogWarn_NotAdding 4 7 9 two]).
Proof.
  assert (vbd_wf 4 example_ones_slots) as Hwf by (split; reflexivity).
  pose proof example_ones_slots_no_open_slot as Hfull.
  assert (Forall (λ wk, geb wk one = true) (Weights example_ones_slots))
    as Hones by (repeat constructor).
  split; [exact Hwf|]. split; [exact Hfull|]. split; [exact Hones|].
  exact (proj2 (proj2 (AddBoneWeight_at_least_one_kept 4 7 9 two
                         example_ones_slots Hwf Hfull)) Hones).
Defined.

Lemma LoadModel_fatal_witness :
  LoadModel 4 example_convert example_inverse example_loader
    example_failing_importer "missing.obj" (Model_new, []) =
  Ok (Model_new, [LogError_FailedToLoad "Unable to open file"]).
Proof.
  apply (LoadModel_fatal 4 example_convert example_inverse example_loader
           example_failing_importer "missing.obj" Model_new [] None
           "Unable to open file").
  - reflexivity.
  - left. reflexivity.
Defined.

Lemma example_quad_mesh_ok : mesh_ok example_quad (example_scene example_quad).
Proof.
  split; [|split; [|split]].
  - unfold vertex_arrays_ok. simpl. split_and!; try lia. discriminate.
  - intros bone w Hbone. simpl in Hbone. by apply elem_of_nil in Hbone.
  - by eexists.
  - by eexists.
Qed.

Lemma example_skinned_mesh_ok :
  mesh_ok example_skinned (example_scene example_skinned).
Proof.
  split; [|split; [|split]].
  - unfold vertex_arrays_ok. simpl. split_and!; try lia.
    intros coords [= <-]. simpl. lia.
  - intros bone w Hbone Hw. simpl in Hbone.
    apply elem_of_cons in Hbone as [->|Hbone].
    + simpl in Hw.
      apply elem_of_cons in Hw as [->|Hw]; [by vm_compute|].
      apply elem_of_cons in Hw as [->|Hw]; [by vm_compute|].
      by apply elem_of_nil in Hw.
    + apply elem_of_cons in Hbone as [->|Hbone];
        [|by apply elem_of_nil in Hbone].
      simpl in Hw.
      apply elem_of_cons in Hw as [->|Hw]; [by vm_compute|].
      by apply elem_of_nil in Hw.
  - by eexists.
  - by eexists.
Qed.

(** C4 on a skinned mesh of two vertices and on the quad, which has no
    bone. *)
Lemma ProcessMesh_lengths_witness :
  (∃ m' tr' newMesh,
     ProcessMesh 4 example_convert example_inverse example_loader
       example_skinned (example_scene example_skinned) (Model_new, []) =
     Ok (m', tr') ∧
     m_Meshes m' = [newMesh] ∧
     length (m_Positions newMesh) = 2%nat ∧
     length (m_UVs newMesh) = 2%nat ∧
     length (m_Normals newMesh) = 2%nat ∧
     length (m_Tangents newMesh) = 2%nat ∧
     length (m_Bitangents newMesh) = 2%nat ∧
     length (m_BoneWeights newMesh) = 2%nat) ∧
  (∃ m' tr' newMesh,
     ProcessMesh 4 example_convert example_inverse example_loader
       example_quad (example_scene example_quad) (Model_new, []) =
     Ok (m', tr') ∧
     m_Meshes m' = [newMesh] ∧
     length (m_Positions newMesh) = 4%nat ∧
     length (m_UVs newMesh) = 4%nat ∧
     length (m_Normals newMesh) = 4%nat ∧
     length (m_Tangents newMesh) = 4%nat ∧
     length (m_Bitangents newMesh) = 4%nat ∧
     m_BoneWeights newMesh = []).
Proof.
  split.
  - destruct (ProcessMesh_lengths 4 example_convert example_inverse
                example_loader example_skinned (example_scene example_skinned)
                Model_new []) as [Hcompletes Hlengths].
    destruct (Hcompletes registry_wf_new example_skinned_mesh_ok)
      as (m' & tr' & Hrun).
    destruct (Hlengths m' tr' Hrun)
      as (newMesh & Hm & Hp & Hu & Hn & Ht & Hb & Hsome & _).
    exists m', tr', newMesh. split; [exact Hrun|]. split; [exact Hm|].
    split; [exact Hp|]. split; [exact Hu|]. split; [exact Hn|].
    split; [exact Ht|]. split; [exact Hb|].
    apply Hsome. unfold mNumBones. simpl. lia.
  - destruct (ProcessMesh_lengths 4 example_convert example_inverse
                example_loader example_quad (example_scene example_quad)
                Model_new []) as [Hcompletes Hlengths].
    destruct (Hcompletes registry_wf_new example_quad_mesh_ok)
      as (m' & tr' & Hrun).
    destruct (Hlengths m' tr' Hrun)
      as (newMesh & Hm & Hp & Hu & Hn & Ht & Hb & _ & Hnone).
    exists m', tr', newMesh. split; [exact Hrun|]. split; [exact Hm|].
    split; [exact Hp|]. split; [exact Hu|]. split; [exact Hn|].
    split; [exact Ht|]. split; [exact Hb|].
    exact (proj1 (Hnone eq_refl)).
Defined.

(** C9 on a mesh with a texture-coordinate channel and on the quad,
    which has none. *)
Lemma ProcessMesh_uvs_witness :
  (∃ m' tr' newMesh,
     ProcessMesh 4 example_convert example_inverse example_loader
       example_skinned (example_scene example_skinned) (Model_new, []) =
     Ok (m', tr') ∧
     m_Meshes m' = [newMesh] ∧
     m_UVs newMesh !! 0%nat = Some (mk_vec2 half quarter) ∧
     m_UVs newMesh !! 1%nat = Some (mk_vec2 one half)) ∧
  (∃ m' tr' newMesh,
     ProcessMesh 4 example_convert example_inverse example_loader
       example_quad (example_scene example_quad) (Model_new, []) =
     Ok (m', tr') ∧
     m_Meshes m' = [newMesh] ∧
     ∀ j, (j < 4)%nat → m_UVs newMesh !! j = Some (mk_vec2 zero zero)).
Proof.
  split.
  - destruct (ProcessMesh_uvs 4 example_convert example_inverse
                example_loader example_skinned (example_scene example_skinned)
                Model_new []) as [Hcompletes Huvs].
    destruct (Hcompletes registry_wf_new example_skinned_mesh_ok)
      as (m' & tr' & Hrun).
    destruct (Huvs m' tr' Hrun) as (newMesh & Hm & Huv).
    exists m', tr', newMesh. split; [exact Hrun|]. split; [exact Hm|].
    split.
    + destruct (Huv 0%nat) as (t & Ht & H0); [simpl; lia|].
      injection Ht as <-. exact H0.
    + destruct (Huv 1%nat) as (t & Ht & H1); [simpl; lia|].
      injection Ht as <-. exact H1.
  - destruct (ProcessMesh_uvs 4 example_convert example_inverse
                example_loader example_quad (example_scene example_quad)
                Model_new []) as [Hcompletes Huvs].
    destruct (Hcompletes registry_wf_new example_quad_mesh_ok)
      as (m' & tr' & Hrun).
    destruct (Huvs m' tr' Hrun) as (newMesh & Hm & Huv).
    exists m', tr', newMesh. split; [exact Hrun|]. split; [exact Hm|].
    exact Huv.
Defined.

Lemma ProcessIndices_spec_witness :
  Forall (λ face, length (mIndices face) = 3%nat) (mFaces example_quad) ∧
  Forall (λ face, Forall (λ index, (index < 4)%nat) (mIndices face))
    (mFaces example_quad) ∧
  ProcessIndices (mFaces example_quad) = [0; 1; 2; 2; 3; 0]%nat ∧
  length (ProcessIndices (mFaces example_quad)) = 6%nat ∧
  Forall (λ index, (index < 4)%nat) (ProcessIndices (mFaces example_quad)).
Proof.
  assert (Forall (λ face, length (mIndices face) = 3%nat)
            (mFaces example_quad)) as Htri by (repeat constructor).
  assert (Forall (λ face, Forall (λ index, (index < 4)%nat) (mIndices face))
            (mFaces example_quad)) as Hrange
    by (repeat constructor; simpl; lia).
  destruct (ProcessIndices_spec 4 example_convert example_inverse
              example_loader example_quad) as (Hconcat & _ & Hlen & Hlt).
  split; [exact Htri|]. split; [exact Hrange|].
  split; [exact Hconcat|]. split; [exact (Hlen Htri)|exact (Hlt Hrange)].
Defined.

(** C5 as stated fails: every face has exactly 3 indices, and an emitted
    index is not below the vertex count. *)
Lemma ProcessIndices_spec_counterexample :
  mNumVertices example_stray_index = 3%nat ∧
  Forall (λ face, length (mIndices face) = 3%nat)
    (mFaces example_stray_index) ∧
  ProcessIndices (mFaces example_stray_index) = [0; 1; 7]%nat ∧
  ¬ Forall (λ index, (index < mNumVertices example_stray_index)%nat)
      (ProcessIndices (mFaces example_stray_index)).
Proof.
  split; [done|]. split; [by repeat constructor|]. split; [done|].
  intros H. apply Forall_lookup with (i := 2%nat) (x := 7%nat) in H;
    [simpl in H; lia|done].
Qed.

Lemma example_skinned_bones_distinct :
  bones_distinct (mBones example_skinned).
Proof.
  split.
  - apply NoDup_cons. split; [|apply NoDup_singleton].
    by intros [=]%list_elem_of_singleton.
  - repeat constructor.
    + by intros [=]%list_elem_of_singleton.
    + by intros ?%elem_of_nil.
    + by intros ?%elem_of_nil.
Qed.

Lemma bone_ids_distinct_witness :
  bones_distinct (mBones example_skinned) ∧
  registry_wf Model_new ∧
  match ProcessMesh 4 example_convert example_inverse example_loader
          example_skinned (example_scene example_skinned) (Model_new, []) with
  | Ok (m', _) =>
      ∃ newMesh,
        m_Meshes m' = [newMesh] ∧
        BoneIDs <$> m_BoneWeights newMesh =
          [[0; 1; -1; -1]; [0; -1; -1; -1]] ∧
        Forall distinct_occupied (m_BoneWeights newMesh)
  | _ => False
  end.
Proof.
  split; [exact example_skinned_bones_distinct|].
  split; [exact registry_wf_new|].
  destruct (ProcessMesh 4 example_convert example_inverse example_loader
              example_skinned (example_scene example_skinned) (Model_new, []))
    as [[m' tr']| | |] eqn:Hrun; [|vm_compute in Hrun; discriminate..].
  destruct (proj2 (bone_ids_distinct 4 example_convert example_inverse
                     example_loader example_skinned
                     example_skinned_bones_distinct)
              _ _ _ _ _ registry_wf_new Hrun) as (newMesh & Hm & Hd & _).
  exists newMesh. split; [exact Hm|]. split; [|exact Hd].
  vm_compute in Hrun. injection Hrun as <- _.
  injection Hm as <-. reflexivity.
Defined.

(** C7 as stated fails: a bone that lists a vertex twice fills two slots
    of that vertex with its id. *)
Lemma bone_ids_distinct_counterexample :
  ∃ m' tr' newMesh vb,
    ProcessMesh 4 example_convert example_inverse example_loader
      example_repeated (example_scene example_repeated) (Model_new, []) =
      Ok (m', tr') ∧
    m_Meshes m' = [newMesh] ∧
    m_BoneWeights newMesh !! 0%nat = Some vb ∧
    BoneIDs vb !! 0%nat = Some 0 ∧ BoneIDs vb !! 1%nat = Some 0 ∧
    ¬ distinct_occupied vb.
Proof.
  eexists _, _, _, _. split; [vm_compute; reflexivity|].
  split; [reflexivity|]. split; [reflexivity|].
  split; [reflexivity|]. split; [reflexivity|].
  intros H.
  assert (0%nat = 1%nat) as Hslots
    by (apply (H 0%nat 1%nat 0); [reflexivity|reflexivity|lia]).
  discriminate Hslots.
Qed.

(** C10 on a path with both separators, and on a path with none: there
    the directory is the file name itself and a texture is looked up
    under it. *)
Lemma LoadModel_directory_name_witness :
  (∃ m' tr',
     LoadModel 4 example_convert example_inverse example_loader
       (example_importer (example_scene example_quad))
       "assets/robot\v2/robot.obj" (Model_new, []) = Ok (m', tr') ∧
     m_Directory m' = "assets/robot\v2"%string ∧
     m_Name m' = "robot.obj"%string) ∧
  (∃ m' tr',
     LoadModel 4 example_convert example_inverse example_loader
       (example_importer (example_scene example_quad))
       "robot.obj" (Model_new, []) = Ok (m', tr') ∧
     m_Directory m' = "robot.obj"%string ∧
     m_Name m' = "robot.obj"%string ∧
     texture_file m' "a.png" = "robot.obj/a.png"%string).
Proof.
  split.
  - destruct (LoadModel 4 example_convert example_inverse example_loader
                (example_importer (example_scene example_quad))
                "assets/robot\v2/robot.obj" (Model_new, []))
      as [[m' tr']| | |] eqn:Hrun; [|vm_compute in Hrun; discriminate..].
    destruct (LoadModel_directory_name 4 example_convert example_inverse
                example_loader
                (example_importer (example_scene example_quad))
                "assets/robot\v2/robot.obj" Model_new m' [] tr'
                (example_scene example_quad) (mk_aiNode [] [0%nat] [])
                EmptyString eq_refl eq_refl eq_refl eq_refl Hrun)
      as (Hdirectory & Hname & _).
    exists m', tr'. split; [reflexivity|]. split.
    + apply (Hdirectory "assets/robot\v2" "robot.obj")%string.
      exists "/"%char. split; [reflexivity|]. split; reflexivity.
    + apply (Hname "assets/robot\v2" "robot.obj")%string.
      exists "/"%char. split; [reflexivity|]. split; reflexivity.
  - destruct (LoadModel 4 example_convert example_inverse example_loader
                (example_importer (example_scene example_quad))
                "robot.obj" (Model_new, []))
      as [[m' tr']| | |] eqn:Hrun; [|vm_compute in Hrun; discriminate..].
    destruct (LoadModel_directory_name 4 example_convert example_inverse
                example_loader
                (example_importer (example_scene example_quad))
                "robot.obj" Model_new m' [] tr'
                (example_scene example_quad) (mk_aiNode [] [0%nat] [])
                EmptyString eq_refl eq_refl eq_refl eq_refl Hrun)
      as (_ & _ & Hname & Hplain).
    destruct (Hplain eq_refl) as [Hdirectory Hfile].
    exists m', tr'. split; [reflexivity|].
    split; [exact Hdirectory|]. split; [exact (Hname eq_refl)|].
    exact (Hfile "a.png"%string).
Defined.

(** The run on the path without separator, step by step: the load
    completes, directory and name are both the file name, and the first
    albedo texture of a material is requested under the file name. *)
Example LoadModel_plain_path :
  ∃ m' tr',
    LoadModel 4 example_convert example_inverse example_loader
      (example_importer (example_scene example_quad))
      "robot.obj" (Model_new, []) = Ok (m', tr') ∧
    m_Directory m' = "robot.obj"%string ∧
    m_Name m' = "robot.obj"%string ∧
    (LoadMaterialTexture example_loader m' example_two_albedo
       aiTextureType_DIFFUSE true).2 =
    [LogWarn_MultipleTextures;
     Call_Load2DTextureAsync "robot.obj/a.png" (mk_TextureSettings true)].
Proof.
  eexists _, _. split; [vm_compute; reflexivity|].
  split; [reflexivity|]. split; reflexivity.
Qed.

(** The same on a Windows path: the name is split at the ['\'], the
    directory is not. *)
Example LoadModel_backslash_path :
  ∃ m' tr',
    LoadModel 4 example_convert example_inverse example_loader
      (example_importer (example_scene example_quad))
      "assets\robot.obj" (Model_new, []) = Ok (m', tr') ∧
    m_Directory m' = "assets\robot.obj"%string ∧
    m_Name m' = "robot.obj"%string.
Proof. eexists _, _. split; [vm_compute; reflexivity|]. by split. Qed.

Example RegisterBone_twice :
  let r1 := RegisterBone example_convert "Hip" [] Model_new in
  let r2 := RegisterBone example_convert "Hip" [one] r1.2 in
  let r3 := RegisterBone example_convert "Knee" [] r2.2 in
  r1.1 = 0 ∧ r2.1 = 0 ∧ m_BoneCount r2.2 = 1 ∧ r3.1 = 1 ∧
  m_BoneCount r3.2 = 2 ∧
  m_BoneDataMap r3.2 !! "Hip"%string = Some (mk_BoneData 0 []).
Proof. vm_compute. by split_and!. Qed.

Example LoadMaterial_two_albedo :
  LoadMaterial example_loader
    (set_Directory_Name "assets" "robot.obj" Model_new) example_two_albedo =
  (mk_Material (Some 1%N) None None None,
   [LogWarn_MultipleTextures;
    Call_Load2DTextureAsync "assets/a.png" (mk_TextureSettings true)]).
Proof. reflexivity. Qed.

(** The end-to-end example of the specification: one node, one mesh of
    4 vertices and 2 triangles, no bones, no textures. *)
Example LoadModel_quad :
  ∃ m' mesh,
    LoadModel 4 example_convert example_inverse example_loader
      (example_importer (example_scene example_quad))
      "assets/quad.obj" (Model_new, []) = Ok (m', [Call_Mesh_LoadData]) ∧
    m_Meshes m' = [mesh] ∧
    length (m_Positions mesh) = 4%nat ∧ length (m_UVs mesh) = 4%nat ∧
    m_Indices mesh = [0; 1; 2; 2; 3; 0]%nat ∧
    m_BoneWeights mesh = [] ∧ m_Material mesh = empty_Material.
Proof. eexists _, _. split; [vm_compute; reflexivity|]. by split_and!. Qed.

(** A bone that refers to a vertex the mesh does not have stops the run
    at the assertion of line 160. *)
Example ProcessMesh_stray_bone :
  ProcessMesh 4 example_convert example_inverse example_loader
    example_stray_bone (example_scene example_stray_bone) (Model_new, []) =
  AssertFailed "Bone data is trying to access an vertex that doesn't exist".
Proof. reflexivity. Qed.

(** ** The further properties on the example inputs *)

Lemma ProcessVertices_Ok_iff_witness :
  vertex_arrays_ok example_quad ∧
  ∃ va, ProcessVertices 4 example_quad = Ok va.
Proof.
  assert (vertex_arrays_ok example_quad) as Hok.
  { unfold vertex_arrays_ok. simpl. split_and!; try lia. discriminate. }
  split; [exact Hok|].
  exact (proj2 (ProcessVertices_Ok_iff 4 example_quad) Hok).
Defined.

Lemma LoadModel_derives_and_walks_witness :
  ∃ directory name rest1 rest2,
    "assets/tree.obj"%string = directory +:+ rest1 ∧
    "assets/tree.obj"%string = rest2 +:+ name ∧
    LoadModel 4 example_convert example_inverse example_loader
      (example_importer example_tree) "assets/tree.obj" (Model_new, []) =
    foldM (ProcessNodeMeshes 4 example_convert example_inverse example_loader
             example_tree)
      (set_Directory_Name directory name Model_new, [])
      (node_mesh_indices example_tree_root).
Proof.
  apply (LoadModel_derives_and_walks 4 example_convert example_inverse
           example_loader (example_importer example_tree) "assets/tree.obj"
           Model_new [] example_tree example_tree_root EmptyString);
    reflexivity.
Defined.

Lemma LoadModel_meshes_witness :
  match LoadModel 4 example_convert example_inverse example_loader
          (example_importer example_tree) "assets/tree.obj" (Model_new, [])
  with
  | Ok (m', _) =>
      node_mesh_indices example_tree_root = [0; 1; 0]%nat ∧
      ∃ a b c,
        m_Meshes m' = [a; b; c] ∧
        m_Indices a = [0; 1; 2; 2; 3; 0]%nat ∧
        m_Positions a = replicate 4 (to_vec3 example_vector) ∧
        m_Indices b = [] ∧
        m_Positions b = replicate 2 (to_vec3 example_vector) ∧
        m_Indices c = [0; 1; 2; 2; 3; 0]%nat
  | _ => False
  end.
Proof.
  destruct (LoadModel 4 example_convert example_inverse example_loader
              (example_importer example_tree) "assets/tree.obj"
              (Model_new, []))
    as [[m' tr']| | |] eqn:Hrun; [|vm_compute in Hrun; discriminate..].
  split; [reflexivity|].
  destruct (LoadModel_meshes 4 example_convert example_inverse example_loader
              (example_importer example_tree) "assets/tree.obj" Model_new m'
              [] tr' example_tree example_tree_root EmptyString
              eq_refl eq_refl eq_refl eq_refl Hrun) as (new & Hm' & Hnew).
  change (node_mesh_indices example_tree_root) with [0; 1; 0]%nat in Hnew.
  apply Forall2_cons_inv_l in Hnew
    as (a & new1 & (mesh0 & Hmesh0 & Ha) & Hnew & ->).
  apply Forall2_cons_inv_l in Hnew
    as (b & new2 & (mesh1 & Hmesh1 & Hb) & Hnew & ->).
  apply Forall2_cons_inv_l in Hnew
    as (c & new3 & (mesh2 & Hmesh2 & Hc) & Hnew & ->).
  apply Forall2_nil_inv_l in Hnew as ->.
  injection Hmesh0 as <-. injection Hmesh1 as <-. injection Hmesh2 as <-.
  destruct Ha as (Hpa & _ & _ & _ & Hia).
  destruct Hb as (Hpb & _ & _ & _ & Hib).
  destruct Hc as (_ & _ & _ & _ & Hic).
  exists a, b, c. split; [exact Hm'|].
  split; [exact Hia|]. split; [exact Hpa|].
  split; [exact Hib|]. split; [exact Hpb|exact Hic].
Defined.

Lemma LoadModel_global_inverse_witness :
  match LoadModel 4 example_convert example_inverse example_loader
          (example_importer example_bare) "bare.obj" (Model_new, []),
        LoadModel 4 example_convert example_inverse example_loader
          (example_importer example_tree) "assets/tree.obj" (Model_new, [])
  with
  | Ok (m1, _), Ok (m2, _) =>
      m_GlobalInverseTransform m1 = None ∧
      m_GlobalInverseTransform m2 =
        Some (example_inverse
                (example_convert (mTransformation example_tree_root)))
  | _, _ => False
  end.
Proof.
  destruct (LoadModel 4 example_convert example_inverse example_loader
              (example_importer example_bare) "bare.obj" (Model_new, []))
    as [[m1 tr1]| | |] eqn:Hrun1; [|vm_compute in Hrun1; discriminate..].
  destruct (LoadModel 4 example_convert example_inverse example_loader
              (example_importer example_tree) "assets/tree.obj"
              (Model_new, []))
    as [[m2 tr2]| | |] eqn:Hrun2; [|vm_compute in Hrun2; discriminate..].
  split.
  - exact (LoadModel_global_inverse 4 example_convert example_inverse
             example_loader (example_importer example_bare) "bare.obj"
             Model_new m1 [] tr1 example_bare example_bare_root EmptyString
             eq_refl eq_refl eq_refl eq_refl Hrun1).
  - exact (LoadModel_global_inverse 4 example_convert example_inverse
             example_loader (example_importer example_tree) "assets/tree.obj"
             Model_new m2 [] tr2 example_tree example_tree_root EmptyString
             eq_refl eq_refl eq_refl eq_refl Hrun2).
Defined.

Lemma LoadModel_texture_file_witness :
  match LoadModel 4 example_convert example_inverse example_loader
          (example_importer example_tree) "assets/tree.obj" (Model_new, [])
  with
  | Ok (m', _) =>
      m_Directory m' +:+ "/" +:+ m_Name m' = "assets/tree.obj"%string ∧
      Call_Load2DTextureAsync "assets/a.png" (mk_TextureSettings true)
      ∈ (LoadMaterialTexture example_loader m' example_two_albedo
           aiTextureType_DIFFUSE true).2
  | _ => False
  end.
Proof.
  destruct (LoadModel 4 example_convert example_inverse example_loader
              (example_importer example_tree) "assets/tree.obj"
              (Model_new, []))
    as [[m' tr']| | |] eqn:Hrun; [|vm_compute in Hrun; discriminate..].
  destruct (LoadModel_texture_file 4 example_convert example_inverse
              example_loader (example_importer example_tree)
              "assets/tree.obj" Model_new m' [] tr' example_tree
              example_tree_root EmptyString "assets" "tree.obj" "a.png"
              eq_refl eq_refl eq_refl eq_refl Hrun eq_refl eq_refl eq_refl
              eq_refl) as [Hpath Hfile].
  split; [exact Hpath|].
  exact (Hfile example_two_albedo aiTextureType_DIFFUSE true ["b.png"%string]
           eq_refl).
Defined.

Lemma registry_dense_new : registry_dense Model_new.
Proof. intros id Hid. simpl in Hid. lia. Qed.

Lemma LoadModel_registry_exact_witness :
  match LoadModel 4 example_convert example_inverse example_loader
          (example_importer example_tree) "assets/tree.obj" (Model_new, [])
  with
  | Ok (m', _) => registry_wf m' ∧ registry_dense m' ∧ m_BoneCount m' = 2
  | _ => False
  end.
Proof.
  destruct (LoadModel 4 example_convert example_inverse example_loader
              (example_importer example_tree) "assets/tree.obj"
              (Model_new, []))
    as [[m' tr']| | |] eqn:Hrun; [|vm_compute in Hrun; discriminate..].
  destruct (LoadModel_registry_exact 4 example_convert example_inverse
              example_loader (example_importer example_tree)
              "assets/tree.obj" Model_new m' [] tr' registry_wf_new
              registry_dense_new Hrun) as (Hwf & Hdense & _).
  split; [exact Hwf|]. split; [exact Hdense|].
  vm_compute in Hrun. injection Hrun as <- _. reflexivity.
Defined.

Lemma LoadModel_registry_stable_witness :
  let m := (RegisterBone example_convert "Knee" [one] Model_new).2 in
  match LoadModel 4 example_convert example_inverse example_loader
          (example_importer example_tree) "assets/tree.obj" (m, [])
  with
  | Ok (m', _) =>
      1 ≤ m_BoneCount m' ∧
      m_BoneDataMap m' !! "Knee"%string = Some (mk_BoneData 0 [one])
  | _ => False
  end.
Proof.
  intros m.
  destruct (LoadModel 4 example_convert example_inverse example_loader
              (example_importer example_tree) "assets/tree.obj" (m, []))
    as [[m' tr']| | |] eqn:Hrun; [|vm_compute in Hrun; discriminate..].
  destruct (LoadModel_registry_stable 4 example_convert example_inverse
              example_loader (example_importer example_tree)
              "assets/tree.obj" m m' [] tr' Hrun) as [Hcount Hkeep].
  split; [exact Hcount|].
  apply Hkeep. reflexivity.
Defined.

Lemma ProcessMesh_registers_bones_witness :
  match ProcessMesh 4 example_convert example_inverse example_loader
          example_skinned (example_scene example_skinned) (Model_new, [])
  with
  | Ok (m', _) =>
      is_Some (m_BoneDataMap m' !! "Hip"%string) ∧
      ¬ is_Some (m_BoneDataMap m' !! "Elbow"%string) ∧
      0 ≤ m_BoneCount m' ≤ 2
  | _ => False
  end.
Proof.
  destruct (ProcessMesh 4 example_convert example_inverse example_loader
              example_skinned (example_scene example_skinned) (Model_new, []))
    as [[m' tr']| | |] eqn:Hrun; [|vm_compute in Hrun; discriminate..].
  destruct (ProcessMesh_registers_bones _ _ _ _ _ _ _ _ _ _ Hrun)
    as [Hnames Hcount].
  split; [|split; [|exact Hcount]].
  - apply Hnames. right. apply list_elem_of_here.
  - intros [Hold|Hin]%Hnames.
    + by destruct Hold.
    + simpl in Hin.
      apply elem_of_cons in Hin as [Heq|Hin]; [discriminate Heq|].
      apply elem_of_cons in Hin as [Heq|Hin]; [discriminate Heq|].
      by apply elem_of_nil in Hin.
Defined.

Lemma ProcessMesh_slots_clean_witness :
  match ProcessMesh 4 example_convert example_inverse example_loader
          example_skinned (example_scene example_skinned) (Model_new, [])
  with
  | Ok (m', _) =>
      ∃ newMesh, m_Meshes m' = [newMesh] ∧
                 Forall (slots_clean 4) (m_BoneWeights newMesh)
  | _ => False
  end.
Proof.
  destruct (ProcessMesh 4 example_convert example_inverse example_loader
              example_skinned (example_scene example_skinned) (Model_new, []))
    as [[m' tr']| | |] eqn:Hrun; [|vm_compute in Hrun; discriminate..].
  exact (ProcessMesh_slots_clean _ _ _ _ _ _ _ _ _ _ Hrun).
Defined.

Lemma ProcessMesh_slot_ids_witness :
  match ProcessMesh 4 example_convert example_inverse example_loader
          example_skinned (example_scene example_skinned) (Model_new, [])
  with
  | Ok (m', _) =>
      ∃ newMesh,
        m_Meshes m' = [newMesh] ∧
        ∀ vb id, vb ∈ m_BoneWeights newMesh → id ∈ BoneIDs vb →
                 id = -1 ∨ 0 ≤ id < m_BoneCount m'
  | _ => False
  end.
Proof.
  destruct (ProcessMesh 4 example_convert example_inverse example_loader
              example_skinned (example_scene example_skinned) (Model_new, []))
    as [[m' tr']| | |] eqn:Hrun; [|vm_compute in Hrun; discriminate..].
  destruct (ProcessMesh_slot_ids _ _ _ _ _ _ _ _ _ _ registry_wf_new Hrun)
    as (newMesh & Hm & Hids).
  exists newMesh. split; [exact Hm|].
  intros vb id Hvb Hid.
  destruct (Hids vb id Hvb Hid) as [Hopen|[Hrange _]];
    [left; exact Hopen|right; exact Hrange].
Defined.

Lemma AddBoneWeight_occupied_slot_witness :
  let vb' := (AddBoneWeight 4 7 9 half example_full_slots).1 in
  (BoneIDs vb' !! 1%nat = Some 1 ∧ Weights vb' !! 1%nat = Some quarter) ∨
  (BoneIDs vb' !! 1%nat = Some 9 ∧ Weights vb' !! 1%nat = Some half ∧
   gtb half quarter = true ∧ ltb quarter one = true).
Proof.
  apply (AddBoneWeight_occupied_slot 4 7 9 half example_full_slots 1 1
           quarter).
  - reflexivity.
  - lia.
  - reflexivity.
Defined.


Lemma ProcessMesh_trace_witness :
  match ProcessMesh 4 example_convert example_inverse example_loader
          example_quad (example_scene example_quad) (Model_new, [])
  with
  | Ok (m', tr') =>
      ∃ material,
        tr' = [] ++ [] ++ Call_Mesh_LoadData ::
                (LoadMaterial example_loader m' material).2
  | _ => False
  end.
Proof.
  destruct (ProcessMesh 4 example_convert example_inverse example_loader
              example_quad (example_scene example_quad) (Model_new, []))
    as [[m' tr']| | |] eqn:Hrun; [|vm_compute in Hrun; discriminate..].
  destruct (ProcessMesh_trace _ _ _ _ _ _ _ _ _ _ Hrun)
    as (warnings & material & _ & _ & Hnone & Htr & _).
  exists material. rewrite (Hnone eq_refl) in Htr. exact Htr.
Defined.

Lemma Draw_calls_witness :
  let mesh := mk_Mesh [] [] [] [] [] [] [] empty_Material in
  NoMaterialRequired ≠ MaterialRequired ∧
  Draw (Model_of_meshes [mesh; mesh]) 1%N NoMaterialRequired =
    Ok [Call_Mesh_Draw mesh; Call_Mesh_Draw mesh] ∧
  Draw (Model_of_meshes [mesh]) 1%N MaterialRequired =
    Ok [Call_BindMaterialInformation empty_Material 1%N; Call_Mesh_Draw mesh].
Proof.
  intros mesh.
  assert (NoMaterialRequired ≠ MaterialRequired) as Hpass by discriminate.
  split; [exact Hpass|]. split.
  - exact (proj2 (Draw_calls (Model_of_meshes [mesh; mesh]) 1%N
                    NoMaterialRequired) Hpass).
  - exact (proj1 (Draw_calls (Model_of_meshes [mesh]) 1%N MaterialRequired)).
Defined.
